(** * LeDaViStool: a shallow embedding of [src/LeDaViStool.py]

    The tool reads an ISO 10303-21 exchange file, parses it with a Lark
    grammar, canonicalizes the parse tree with the transformer [T], indexes
    the entity instances of the data section ([explore_data]) and builds a
    graph of the references between them in a pyvis network
    ([make_graph_complete], [make_graph_entity]).

    The embedding follows the Python text function by function.  Python
    objects that are mutated in place (the index dictionary, the network)
    are threaded explicitly; exceptions are values of [exn]. *)

From Stdlib Require Import String Ascii List ZArith Lia Bool Arith.
From Stdlib Require Import Permutation Sorted.
From Stdlib Require Import Numbers.DecimalString Numbers.DecimalZ.
Import ListNotations.

Local Open Scope string_scope.
Local Open Scope list_scope.
Set Warnings "-register-all".

(* ================================================================== *)
(** * Python runtime pieces used by the tool *)
(* ================================================================== *)

(** A lark [Token]: its type (the name of the terminal), its text and
    the line it starts on. *)
Record token := Token { tok_type : string; tok_value : string; tok_line : Z }.

(** The exceptions of lark that [parse] catches.  [UnexpectedToken]
    carries the offending token and the set [accepts];
    [UnexpectedCharacters] carries the offending character and the set
    [allowed], and has neither a [token] nor an [accepts] attribute. *)
Inductive lark_exception :=
| UnexpectedToken (line column : Z) (tok : token) (accepts : list string)
| UnexpectedCharacters (line column : Z) (char : ascii) (allowed : list string).

(** The exceptions the tool raises and the ones of Python and lark it
    can run into.  [NotModelled] stands for an outcome outside the
    embedding: the [repr] of a container taken as an entity id. *)
Inductive exn :=
| SyntaxError (filecontent : string) (exception : lark_exception)
| DuplicateNameError (filecontent name : string) (linenumbers : Z * Z)
| VisitError (rule : string)
| RuntimeError
| IndexError
| TypeError
| ValueError
| AttributeError
| AssertionError
| NotModelled.

Inductive result (A : Type) :=
| Ok (a : A)
| Raise (e : exn).
Arguments Ok {A} a.
Arguments Raise {A} e.

Definition rbind {A B} (r : result A) (k : A -> result B) : result B :=
  match r with
  | Ok a => k a
  | Raise e => Raise e
  end.

Notation "x <- r ;; k" := (rbind r (fun x => k))
  (at level 61, r at next level, right associativity).

(** [l[i]] with Python's negative indices. *)
Definition py_index {A} (l : list A) (i : Z) : result A :=
  let n := Z.of_nat (List.length l) in
  let j := if (i <? 0)%Z then (n + i)%Z else i in
  if ((0 <=? j) && (j <? n))%Z%bool then
    match nth_error l (Z.to_nat j) with
    | Some a => Ok a
    | None => Raise IndexError
    end
  else Raise IndexError.

(** [min(l)] and [max(l)]; [ValueError] on an empty sequence. *)
Definition py_min (l : list Z) : result Z :=
  match l with
  | [] => Raise ValueError
  | x :: t => Ok (fold_left Z.min t x)
  end.

Definition py_max (l : list Z) : result Z :=
  match l with
  | [] => Raise ValueError
  | x :: t => Ok (fold_left Z.max t x)
  end.

(** [sep.join(l)] on a list of [str]. *)
Definition join (sep : string) (l : list string) : string := String.concat sep l.

(** [split] on the newline character. *)
Definition newline : ascii := "010"%char.

Fixpoint split_lines_aux (cur : string) (s : string) : list string :=
  match s with
  | EmptyString => [cur]
  | String c s' =>
      if Ascii.eqb c newline then cur :: split_lines_aux EmptyString s'
      else split_lines_aux (cur ++ String c EmptyString)%string s'
  end.

Definition split_lines (s : string) : list string := split_lines_aux EmptyString s.

(** [int(text)] on the text of an [INT] token ([SIGN? DIGIT+]) and
    [str(i)] for an [int].  [parse_int] is the value of the numeral;
    CPython refuses, with [ValueError], a text of more digits than
    [sys.get_int_max_str_digits()], 4300 unless it is set otherwise. *)
Definition parse_int (s : string) : option Z :=
  match s with
  | String "+" d => option_map Z.of_uint (NilZero.uint_of_string d)
  | String "-" d => option_map (fun u => Z.opp (Z.of_uint u)) (NilZero.uint_of_string d)
  | _ => option_map Z.of_uint (NilZero.uint_of_string s)
  end.

Definition digits_part (s : string) : string :=
  match s with
  | String "+" d | String "-" d => d
  | _ => s
  end.

Definition int_max_str_digits : Z := 4300.

Definition within_int_limit (s : string) : bool :=
  (Z.of_nat (String.length (digits_part s)) <=? int_max_str_digits)%Z.

Definition py_int (s : string) : option Z :=
  if within_int_limit s then parse_int s else None.

Definition py_str_int (z : Z) : string := NilZero.string_of_int (Z.to_int z).

(** ** Dictionaries

    A [dict] keeps its keys in insertion order, which the loops of the
    graph builder follow: it is a list of entries; a key occurs once.
    [dd_getitem] is [d[k]] on a [defaultdict]: a missing key is inserted
    with the default value before it is returned. *)
Definition pydict (V : Type) := list (string * V).

Fixpoint dict_get {V} (d : pydict V) (k : string) : option V :=
  match d with
  | [] => None
  | (k', v) :: d' => if String.eqb k k' then Some v else dict_get d' k
  end.

Definition dict_contains {V} (d : pydict V) (k : string) : bool :=
  match dict_get d k with Some _ => true | None => false end.

Fixpoint dict_set {V} (d : pydict V) (k : string) (v : V) : pydict V :=
  match d with
  | [] => [(k, v)]
  | (k', v') :: d' =>
      if String.eqb k k' then (k', v) :: d' else (k', v') :: dict_set d' k v
  end.

Definition dict_keys {V} (d : pydict V) : list string := map fst d.

Definition dd_getitem {V} (default : V) (d : pydict V) (k : string) : V * pydict V :=
  match dict_get d k with
  | Some v => (v, d)
  | None => (default, d ++ [(k, default)])
  end.

(* ================================================================== *)
(** * Parse trees, the transformer [T] and the entity indexer *)
(* ================================================================== *)

(** [float] and the two conversions the tool applies to it ([REAL = float]
    in [T], [str(t)] in [explode_object]) are an interface: binary
    floating point is not modelled. *)
Class PyFloat := {
  pyfloat : Type;
  py_float : string -> pyfloat;
  py_str_float : pyfloat -> string
}.

Section Canonicalizer.

Context `{PyFloat}.

(** The Python values a parse tree is made of, before and after [T]:
    lark's [Tree] and [Token] (a subclass of [str]), plain [str], [int],
    [float], [tuple] and [list]. *)
Inductive pyval :=
| VTree (data : string) (children : list pyval)
| VToken (t : token)
| VStr (s : string)
| VInt (z : Z)
| VFloat (f : pyfloat)
| VTuple (items : list pyval)
| VList (items : list pyval).

(** [isinstance(x, str)]: a [Token] is a [str] too. *)
Definition as_str (x : pyval) : option string :=
  match x with
  | VStr s => Some s
  | VToken t => Some (tok_value t)
  | _ => None
  end.

(** [str(x)] for the values the tool applies it to; the [repr] of a
    container is not modelled. *)
Definition py_str (x : pyval) : option string :=
  match x with
  | VStr s => Some s
  | VToken t => Some (tok_value t)
  | VInt z => Some (py_str_int z)
  | VFloat f => Some (py_str_float f)
  | _ => None
  end.

(** [join] on the empty separator, applied to Python values: every item
    has to be a [str]. *)
Fixpoint join_values (s : list pyval) : result string :=
  match s with
  | [] => Ok EmptyString
  | x :: s' =>
      match as_str x with
      | Some w => rest <- join_values s' ;; Ok (w ++ rest)%string
      | None => Raise TypeError
      end
  end.

(** ** class T(Transformer)

    The callbacks [T.id], [T.string], ... are named [T_id], [T_string], ... *)

Definition T_id (s : list pyval) : result pyval := py_index s 0%Z.

Definition T_string (s : list pyval) : result pyval :=
  word <- join_values s ;; Ok (VStr word).

Definition T_keyword (s : list pyval) : result pyval :=
  word <- join_values s ;; Ok (VStr word).

Definition T_untyped_parameter (s : list pyval) : result pyval :=
  if (0 <? List.length s)%nat then py_index s 0%Z else Ok (VStr EmptyString).

Definition T_typed_parameter (s : list pyval) : result pyval :=
  if (0 <? List.length s)%nat then py_index s 0%Z else Ok (VStr EmptyString).

Definition T_parameter (s : list pyval) : result pyval :=
  if (0 <? List.length s)%nat then py_index s 0%Z else Ok (VStr EmptyString).

Definition T_omitted_parameter (s : list pyval) : result pyval := py_index s 0%Z.

Definition T_enumeration (s : list pyval) : result pyval := py_index s 0%Z.

Definition T_parameter_list (s : list pyval) : result pyval := Ok (VTuple s).
Definition T_list (s : list pyval) : result pyval := Ok (VList s).
Definition T_simple_record (s : list pyval) : result pyval := Ok (VTuple s).
Definition T_subsuper_record (s : list pyval) : result pyval := Ok (VTuple s).
Definition T_simple_record_list (s : list pyval) : result pyval := Ok (VTuple s).

Definition T_INT (t : token) : result pyval :=
  match py_int (tok_value t) with
  | Some z => Ok (VInt z)
  | None => Raise ValueError
  end.

Definition T_REAL (t : token) : result pyval := Ok (VFloat (py_float (tok_value t))).
Definition T_NONE (t : token) : result pyval := Ok (VStr (tok_value t)).
Definition T_STAR (t : token) : result pyval := Ok (VStr (tok_value t)).


(** lark's [Transformer._call_userfunc]: the callback named after the
    rule, or [Tree(data, children)] when [T] has none; an exception of the
    callback is re-raised as [VisitError]. *)
Definition visit (data : string) (r : result pyval) : result pyval :=
  match r with
  | Ok v => Ok v
  | Raise _ => Raise (VisitError data)
  end.

Definition call_userfunc (data : string) (children : list pyval) : result pyval :=
  if data =? "id" then visit data (T_id children)
  else if data =? "string" then visit data (T_string children)
  else if data =? "keyword" then visit data (T_keyword children)
  else if data =? "untyped_parameter" then visit data (T_untyped_parameter children)
  else if data =? "typed_parameter" then visit data (T_typed_parameter children)
  else if data =? "parameter" then visit data (T_parameter children)
  else if data =? "omitted_parameter" then visit data (T_omitted_parameter children)
  else if data =? "enumeration" then visit data (T_enumeration children)
  else if data =? "parameter_list" then visit data (T_parameter_list children)
  else if data =? "list" then visit data (T_list children)
  else if data =? "simple_record" then visit data (T_simple_record children)
  else if data =? "subsuper_record" then visit data (T_subsuper_record children)
  else if data =? "simple_record_list" then visit data (T_simple_record_list children)
  else Ok (VTree data children).

(** [Transformer._call_userfunc_token], active with [visit_tokens=True]. *)
Definition call_userfunc_token (t : token) : result pyval :=
  let ty := tok_type t in
  if ty =? "INT" then visit ty (T_INT t)
  else if ty =? "REAL" then visit ty (T_REAL t)
  else if ty =? "NONE" then visit ty (T_NONE t)
  else if ty =? "STAR" then visit ty (T_STAR t)
  else Ok (VToken t).

(** [T(visit_tokens=True).transform]: bottom-up, children left to right;
    a child that is neither a [Tree] nor a [Token] is left as it is. *)
Fixpoint transform (t : pyval) : result pyval :=
  match t with
  | VTree data children =>
      children' <-
        (fix transform_children (cs : list pyval) : result (list pyval) :=
           match cs with
           | [] => Ok []
           | c :: cs' =>
               c' <- transform c ;;
               r <- transform_children cs' ;;
               Ok (c' :: r)
           end) children ;;
      call_userfunc data children'
  | VToken tk => call_userfunc_token tk
  | other => Ok other
  end.

Fixpoint transform_children (cs : list pyval) : result (list pyval) :=
  match cs with
  | [] => Ok []
  | c :: cs' =>
      c' <- transform c ;;
      r <- transform_children cs' ;;
      Ok (c' :: r)
  end.

(** ** explore_data *)

(** The value [explode_object] builds: nested lists of [str]. *)
Inductive pybody :=
| BStr (s : string)
| BList (items : list pybody).

Record object := Object {
  BODY_TAG : pybody;
  REFS_TAG : list string;
  LINES_TAG : Z * Z
}.

Definition get_line_number (t : pyval) : list Z :=
  match t with
  | VToken tk => [tok_line tk]
  | _ => []
  end.

Fixpoint traverse (fn : pyval -> list Z) (x : pyval) : list Z :=
  fn x ++
  match x with
  | VTree _ children => flat_map (traverse fn) children
  | _ => []
  end.

(** [explode_object(t, refs)]: the list [refs] is shared by all the
    recursive calls and appended to in place; it is threaded here. *)
Fixpoint explode_object (t : pyval) (refs : list string) : pybody * list string :=
  let explode_all :=
    fix explode_all (xs : list pyval) (refs : list string) : list pybody * list string :=
      match xs with
      | [] => ([], refs)
      | x :: xs' =>
          let (b, refs1) := explode_object x refs in
          let (bs, refs2) := explode_all xs' refs1 in
          (b :: bs, refs2)
      end in
  match t with
  | VList items | VTuple items =>
      let (a, refs') := explode_all items refs in (BList a, refs')
  | VTree _ children =>
      let (a, refs') := explode_all children refs in (BList a, refs')
  | VToken tk => (BStr (tok_value tk), refs ++ [tok_value tk])
  | VStr s => (BStr s, refs)
  | VInt z => (BStr (py_str_int z), refs)
  | VFloat f => (BStr (py_str_float f), refs)
  end.

Fixpoint explode_all (xs : list pyval) (refs : list string) : list pybody * list string :=
  match xs with
  | [] => ([], refs)
  | x :: xs' =>
      let (b, refs1) := explode_object x refs in
      let (bs, refs2) := explode_all xs' refs1 in
      (b :: bs, refs2)
  end.

Definition children_of (x : pyval) : result (list pyval) :=
  match x with
  | VTree _ children => Ok children
  | _ => Raise AttributeError
  end.

(** One turn of the loop [for entity in data_tree.children]. *)
Definition explore_entity (filecontent : string) (objects : pydict (list object))
    (entity : pyval) : result (pydict (list object)) :=
  let lines := traverse get_line_number entity in
  ecs <- children_of entity ;;
  entity_instance <- py_index ecs 0%Z ;;
  ics <- children_of entity_instance ;;
  id0 <- py_index ics 0%Z ;;
  id <- match py_str id0 with Some s => Ok s | None => Raise NotModelled end ;;
  record <- py_index ics 1%Z ;;
  let (body, refs) := explode_object record [] in
  lo <- py_min lines ;;
  hi <- py_max lines ;;
  let lines_range := (lo, hi) in
  let (cur, objects1) := dd_getitem [] objects id in
  match cur with
  | _ :: _ => Raise (DuplicateNameError filecontent id lines_range)
  | [] =>
      let obj := {| BODY_TAG := body; REFS_TAG := refs; LINES_TAG := lines_range |} in
      Ok (dict_set objects1 id (cur ++ [obj]))
  end.

Fixpoint explore_entities (filecontent : string) (objects : pydict (list object))
    (entities : list pyval) : result (pydict (list object)) :=
  match entities with
  | [] => Ok objects
  | entity :: rest =>
      objects' <- explore_entity filecontent objects entity ;;
      explore_entities filecontent objects' rest
  end.

Definition explore_data (filecontent : string) (data_tree : pyval)
  : result (pydict (list object)) :=
  entities <- children_of data_tree ;;
  explore_entities filecontent [] entities.

(** The model is the dictionary [{DATA_TAG: data}]; its single entry is
    kept as a record field. *)
Record model := Model { DATA_TAG : pydict (list object) }.

Definition explore_model (filecontent : string) (entity_tree : pyval) : result model :=
  t <- transform entity_tree ;;
  cs <- children_of t ;;
  data_tree <- py_index cs 2%Z ;;
  data <- explore_data filecontent data_tree ;;
  Ok {| DATA_TAG := data |}.

Definition process_tree (filecontent : string) (file_tree : pyval) (with_progress : bool)
  : result model :=
  explore_model filecontent file_tree.

End Canonicalizer.

(* ================================================================== *)
(** * The preprocessor of [parse] *)
(* ================================================================== *)

(** A [str] is a sequence of code points; the embedding keeps the code
    points below 256, where [\d] is [0-9]. *)
Definition is_digit (c : ascii) : bool :=
  (Ascii.leb "0" c && Ascii.leb c "9")%bool.

(** The class [[\r\t\f\v ]]. *)
Definition is_blank (c : ascii) : bool :=
  (Ascii.eqb c "013" || Ascii.eqb c "009" || Ascii.eqb c "012"
   || Ascii.eqb c "011" || Ascii.eqb c " ")%bool.

(** A match object: [group()] and [group(1)] ([None] when the group did
    not take part in the match). *)
Record re_match := Match { group0 : string; group1 : option string }.

(** [re.sub(p, repl, s)]: [match_at s] is the match of [p] at the start of
    [s] with the text after it.  The scan goes left to right over
    non-overlapping matches; without a match the character is copied;
    after an empty match the character is copied too. *)
Fixpoint re_sub_fuel (fuel : nat) (match_at : string -> option (re_match * string))
    (repl : re_match -> string) (s : string) : string :=
  match s with
  | EmptyString =>
      match match_at s with
      | Some (m, _) => repl m
      | None => EmptyString
      end
  | String c s' =>
      match fuel with
      | O => s
      | S fuel' =>
          match match_at s with
          | Some (m, rest) =>
              match group0 m with
              | EmptyString =>
                  (repl m ++ String c (re_sub_fuel fuel' match_at repl s'))%string
              | String _ _ =>
                  (repl m ++ re_sub_fuel fuel' match_at repl rest)%string
              end
          | None => String c (re_sub_fuel fuel' match_at repl s')
          end
      end
  end.

Definition re_sub (match_at : string -> option (re_match * string))
    (repl : re_match -> string) (s : string) : string :=
  re_sub_fuel (String.length s) match_at repl s.

(** The substitution inside [replace_fn]: every character but a newline
    becomes a blank. *)
Fixpoint blank_text (text : string) : string :=
  match text with
  | EmptyString => EmptyString
  | String c text' =>
      String (if Ascii.eqb c newline then c else " "%char) (blank_text text')
  end.

Definition replace_fn (m : re_match) : string := blank_text (group0 m).

(** The lazy run of arbitrary characters of that pattern, up to and
    including the first closing mark. *)
Fixpoint find_close (s : string) : option (string * string) :=
  match s with
  | EmptyString => None
  | String c s' =>
      match c, s' with
      | "*"%char, String "/" rest => Some ("*/", rest)
      | _, _ =>
          match find_close s' with
          | Some (m, rest) => Some (String c m, rest)
          | None => None
          end
      end
  end.

(** The pattern of the first substitution: a block comment, from its
    opening mark to the first closing mark after it. *)
Definition match_comment (s : string) : option (re_match * string) :=
  match s with
  | String "/" (String "*" s') =>
      match find_close s' with
      | Some (m, rest) =>
          Some ({| group0 := String "/" (String "*" m); group1 := None |}, rest)
      | None => None
      end
  | _ => None
  end.

(** The greedy [c*] for a character class [c]. *)
Fixpoint span (c : ascii -> bool) (s : string) : string * string :=
  match s with
  | EmptyString => (EmptyString, EmptyString)
  | String a s' =>
      if c a then let (m, rest) := span c s' in (String a m, rest)
      else (EmptyString, s)
  end.

(** An id literal: a hash sign and one or more digits. *)
Definition match_id (s : string) : option (string * string) :=
  match s with
  | String "#" s' =>
      match span is_digit s' with
      | (EmptyString, _) => None
      | (ds, rest) => Some (String "#" ds, rest)
      end
  | _ => None
  end.

(** A string literal: from an apostrophe to the next one. *)
Definition not_apostrophe (a : ascii) : bool := negb (Ascii.eqb a "'").

Definition match_string (s : string) : option (string * string) :=
  match s with
  | String "'" s' =>
      match span not_apostrophe s' with
      | (body, String "'" rest) => Some (String "'" (body ++ "'")%string, rest)
      | _ => None
      end
  | _ => None
  end.

(** The pattern of the second substitution: group 1 is an id literal or
    a string literal, group 2 a possibly empty run of blanks.  The first
    alternative that matches is taken; the second one always matches. *)
Definition match_literal_or_blanks (s : string) : option (re_match * string) :=
  match match_id s with
  | Some (g, rest) => Some ({| group0 := g; group1 := Some g |}, rest)
  | None =>
      match match_string s with
      | Some (g, rest) => Some ({| group0 := g; group1 := Some g |}, rest)
      | None =>
          let (w, rest) := span is_blank s in
          Some ({| group0 := w; group1 := None |}, rest)
      end
  end.

(** The template of the second substitution, group 1: a group that did
    not take part in the match expands to the empty string. *)
Definition expand_group1 (m : re_match) : string :=
  match group1 m with
  | Some g => g
  | None => EmptyString
  end.

Definition remove_comments (filecontent : string) : string :=
  re_sub match_comment replace_fn filecontent.

Definition remove_blanks (text : string) : string :=
  re_sub match_literal_or_blanks expand_group1 text.

(** The two substitutions at the head of [parse]. *)
Definition preprocess (filecontent : string) : string :=
  remove_blanks (remove_comments filecontent).

(* ================================================================== *)
(** * parse *)
(* ================================================================== *)

(** [Lark(grammar, parser="lalr", start="file").parse]: the parser that
    lark generates from the grammar is an interface. *)
Class LarkParser `{PyFloat} := {
  parser_parse : string -> pyval + lark_exception
}.

Definition parse `{LarkParser} (filecontent : string) (with_progress : bool)
  : result model :=
  let filecontent_wo_comments := remove_comments filecontent in
  let filecontent_wo_comments := remove_blanks filecontent_wo_comments in
  match parser_parse filecontent_wo_comments with
  | inr e => Raise (SyntaxError filecontent e)
  | inl ast => process_tree filecontent ast with_progress
  end.

(* ================================================================== *)
(** * Diagnostics: the two validation errors *)
(* ================================================================== *)

(** [sub in s] on strings. *)
Fixpoint contains (sub s : string) : bool :=
  if String.prefix sub s then true
  else match s with
       | EmptyString => false
       | String _ s' => contains sub s'
       end.

(** [sorted] on a list of [str]: code-point order. *)
Fixpoint insert_sorted (x : string) (l : list string) : list string :=
  match l with
  | [] => [x]
  | y :: l' => if String.leb x y then x :: l else y :: insert_sorted x l'
  end.

Fixpoint sorted (l : list string) : list string :=
  match l with
  | [] => []
  | x :: l' => insert_sorted x (sorted l')
  end.

(** [s.lower()] on code points below 256. *)
Definition lower_char (c : ascii) : ascii :=
  let n := nat_of_ascii c in
  if ((65 <=? n) && (n <=? 90)
      || (192 <=? n) && (n <=? 222) && negb (n =? 215))%nat%bool
  then ascii_of_nat (n + 32) else c.

Fixpoint lower (s : string) : string :=
  match s with
  | EmptyString => EmptyString
  | String c s' => String (lower_char c) (lower s')
  end.

(** [s.rstrip()]. *)
Definition is_space (c : ascii) : bool :=
  let n := nat_of_ascii c in
  ((9 <=? n) && (n <=? 13) || (28 <=? n) && (n <=? 32)
   || (n =? 133) || (n =? 160))%nat%bool.

Fixpoint rstrip (s : string) : string :=
  match s with
  | EmptyString => EmptyString
  | String c s' =>
      match rstrip s' with
      | EmptyString => if is_space c then EmptyString else String c EmptyString
      | r => String c r
      end
  end.

(** [c * n] for a one-character string and [f"{z:05d}"]. *)
Fixpoint repeat_char (c : ascii) (n : nat) : string :=
  match n with
  | O => EmptyString
  | S n' => String c (repeat_char c n')
  end.

Definition zfill (width : nat) (digits : string) : string :=
  (repeat_char "0" (width - String.length digits) ++ digits)%string.

Definition format_05d (z : Z) : string :=
  if (z <? 0)%Z then String "-" (zfill 4 (py_str_int (Z.opp z)))
  else zfill 5 (py_str_int z).

(** The dictionary [asdict] returns. *)
Record error_record := ErrorRecord {
  e_type : string;
  e_name : option string;
  e_lineno : Z;
  e_column : option Z;
  e_found_type : option string;
  e_found_value : option string;
  e_expected : option (list string);
  e_line : string;
  e_message : option string
}.

(** ** class SyntaxError

    [self.exception.token] and [self.exception.accepts] exist on an
    [UnexpectedToken] only. *)
Definition SyntaxError_asdict_without_message (filecontent : string)
    (exception : lark_exception) : result error_record :=
  match exception with
  | UnexpectedToken line column tok accepts =>
      let expected :=
        sorted (filter (fun x => negb (contains "__ANON" x)) accepts) in
      ln <- py_index (split_lines filecontent) (line - 1)%Z ;;
      Ok {| e_type := "unexpected_token";
            e_name := None;
            e_lineno := line;
            e_column := Some column;
            e_found_type := Some (lower (tok_type tok));
            e_found_value := Some (tok_value tok);
            e_expected := Some expected;
            e_line := ln;
            e_message := None |}
  | UnexpectedCharacters line column char allowed => Raise AttributeError
  end.

Definition SyntaxError_str (filecontent : string) (exception : lark_exception)
  : result string :=
  d <- SyntaxError_asdict_without_message filecontent exception ;;
  let expected := match e_expected d with Some l => l | None => [] end in
  let exp :=
    match expected with
    | [x] => x
    | _ => ("one of " ++ join " " expected)%string
    end in
  let sth := if e_type d =? "unexpected_character" then "character" else EmptyString in
  let column := match e_column d with Some c => c | None => 0%Z end in
  Ok ("On line " ++ py_str_int (e_lineno d) ++ " column " ++ py_str_int column
      ++ String ":" (String newline "Unexpected ") ++ sth
      ++ match e_found_type d with Some t => t | None => EmptyString end
      ++ " ('" ++ match e_found_value d with Some v => v | None => EmptyString end
      ++ "')" ++ String newline "Expecting " ++ exp
      ++ String newline (format_05d (e_lineno d)) ++ " | " ++ e_line d
      ++ String newline "        " ++ repeat_char " " (Z.to_nat (column - 1)) ++ "^")%string.

Definition SyntaxError_asdict (filecontent : string) (exception : lark_exception)
    (with_message : bool) : result error_record :=
  d <- SyntaxError_asdict_without_message filecontent exception ;;
  if with_message then
    msg <- SyntaxError_str filecontent exception ;;
    Ok {| e_type := e_type d; e_name := e_name d; e_lineno := e_lineno d;
          e_column := e_column d; e_found_type := e_found_type d;
          e_found_value := e_found_value d; e_expected := e_expected d;
          e_line := e_line d; e_message := Some msg |}
  else Ok d.

(** ** class DuplicateNameError *)
Definition DuplicateNameError_asdict_without_message (filecontent name : string)
    (linenumbers : Z * Z) : result error_record :=
  ln <- py_index (split_lines filecontent) (fst linenumbers - 1)%Z ;;
  Ok {| e_type := "duplicate_name";
        e_name := Some name;
        e_lineno := fst linenumbers;
        e_column := None;
        e_found_type := None;
        e_found_value := None;
        e_expected := None;
        e_line := ln;
        e_message := None |}.

Definition DuplicateNameError_str (filecontent name : string) (linenumbers : Z * Z)
  : result string :=
  d <- DuplicateNameError_asdict_without_message filecontent name linenumbers ;;
  Ok (join (String newline EmptyString)
        [ ("On line " ++ py_str_int (e_lineno d) ++ String ":" (String newline
            "Duplicate instance name ")
            ++ match e_name d with Some n => n | None => EmptyString end)%string;
          (format_05d (e_lineno d) ++ " | " ++ e_line d)%string;
          (repeat_char " " 8
           ++ repeat_char "^" (String.length (rstrip (e_line d))))%string ]).

Definition DuplicateNameError_asdict (filecontent name : string)
    (linenumbers : Z * Z) (with_message : bool) : result error_record :=
  d <- DuplicateNameError_asdict_without_message filecontent name linenumbers ;;
  if with_message then
    msg <- DuplicateNameError_str filecontent name linenumbers ;;
    Ok {| e_type := e_type d; e_name := e_name d; e_lineno := e_lineno d;
          e_column := e_column d; e_found_type := e_found_type d;
          e_found_value := e_found_value d; e_expected := e_expected d;
          e_line := e_line d; e_message := Some msg |}
  else Ok d.

(** [e.asdict()] as the command line calls it on a [ValidationError]. *)
Definition asdict (e : exn) : result error_record :=
  match e with
  | SyntaxError filecontent exception => SyntaxError_asdict filecontent exception true
  | DuplicateNameError filecontent name linenumbers =>
      DuplicateNameError_asdict filecontent name linenumbers true
  | _ => Raise AttributeError
  end.

(* ================================================================== *)
(** * The graph builder *)
(* ================================================================== *)

(** ** The pyvis network

    [Network.add_node] appends a node unless its id is known already;
    [Network.get_node] gives the options of a node, which [add_node]
    updates in place; [Network.add_edge] asserts that both ends are nodes
    and, the network being directed, appends the edge.  A node whose
    [color] option the tool did not set keeps the default of pyvis
    ([None] here). *)
Inductive pycolor :=
| ColStr (s : string)
| ColEmptyDict.

Definition color_len (c : pycolor) : nat :=
  match c with
  | ColStr s => String.length s
  | ColEmptyDict => 0
  end.

Record gnode := GNode {
  n_id : string;
  n_title : option string;
  n_color : option pycolor
}.

Record network := Network {
  nodes : list gnode;
  edges : list (string * string)
}.

Definition empty_network : network := {| nodes := []; edges := [] |}.

Definition num_nodes (net : network) : nat := List.length (nodes net).

Definition has_node (net : network) (n : string) : bool :=
  existsb (fun g => n_id g =? n) (nodes net).

Definition net_add_node (net : network) (n : string) : network :=
  if has_node net n then net
  else {| nodes := nodes net ++ [ {| n_id := n; n_title := None; n_color := None |} ];
          edges := edges net |}.

Definition net_add_edge (net : network) (source to : string) : result network :=
  if negb (has_node net source) then Raise AssertionError
  else if negb (has_node net to) then Raise AssertionError
  else Ok {| nodes := nodes net; edges := edges net ++ [(source, to)] |}.

(** [gnode = net.get_node(node); gnode['title'] = title;
    if len(node_color) > 0: gnode['color'] = node_color]. *)
Definition set_options (title : string) (node_color : pycolor) (g : gnode) : gnode :=
  {| n_id := n_id g;
     n_title := Some title;
     n_color := if (0 <? color_len node_color)%nat then Some node_color else n_color g |}.

Definition net_update_node (net : network) (n : string) (title : string)
    (node_color : pycolor) : network :=
  {| nodes := map (fun g => if n_id g =? n then set_options title node_color g else g)
                  (nodes net);
     edges := edges net |}.

(** ** Sets and [textwrap]

    A [set] is kept as the list of its elements in the order they were
    added.  The order in which Python iterates over a set is not the
    order of insertion; it is the interface [set_iter], some permutation
    of the elements.  [textwrap.wrap] is an interface too. *)
Definition pyset := list string.

Definition set_add (s : pyset) (x : string) : pyset :=
  if existsb (String.eqb x) s then s else s ++ [x].

Class SetOrder := {
  set_iter : pyset -> list string;
  set_iter_perm : forall s, Permutation (set_iter s) s
}.

Class TextWrap := {
  textwrap_wrap : string -> nat -> list string
}.

Definition SPLIT_STRING_SIZE : nat := 100.
Definition ENTRY_NODE_COLOR : string := "indigo".
Definition FAILURE_NODE_COLOR : string := "red".

Definition NODE_COLOR : pydict string :=
  [ ("CARTESIAN_POINT", "lightgrey");
    ("PCURVE", "orange");
    ("B_SPLINE_CURVE_WITH_KNOTS", "palegreen");
    ("B_SPLINE_SURFACE_WITH_KNOTS", "darkkhaki");
    ("IFCCARTESIANPOINT", "lightgrey");
    ("IFCPOLYLINE", "orange");
    ("IFCSHAPEREPRESENTATION", "darkkhaki") ].

(** ** add_node *)

(** [len(x)] and [x[i]] when [x] is a [str] or a [list]. *)
Definition body_len (x : pybody) : nat :=
  match x with
  | BStr s => String.length s
  | BList items => List.length items
  end.

Definition body_index (x : pybody) (i : nat) : result pybody :=
  match x with
  | BStr s =>
      match String.get i s with
      | Some c => Ok (BStr (String c EmptyString))
      | None => Raise IndexError
      end
  | BList items =>
      match nth_error items i with
      | Some y => Ok y
      | None => Raise IndexError
      end
  end.

(** The generator [to_str] yields one string. *)
Fixpoint to_str (o : pybody) : string :=
  match o with
  | BStr s => s
  | BList items =>
      let a := map (fun x => let s := to_str x in
                             if s =? EmptyString then "''" else s) items in
      ("(" ++ join ", " a ++ ")")%string
  end.

Section GraphBuilder.

Context `{TextWrap} `{SetOrder}.

Definition simple_entity (body : pybody) (color : pycolor)
  : result (string * pycolor) :=
  name <- (if (1 <? body_len body)%nat
           then (b1 <- body_index body 1 ;; Ok (to_str b1))
           else Ok "()") ;;
  b0 <- body_index body 0 ;;
  match b0 with
  | BList _ => Raise TypeError
  | BStr kw =>
      let name := (kw ++ name)%string in
      let name := textwrap_wrap name SPLIT_STRING_SIZE in
      let name := join "<br>" name in
      let color :=
        if (color_len color =? 0)%nat then
          match dict_get NODE_COLOR kw with
          | Some c => ColStr c
          | None => ColEmptyDict
          end
        else color in
      Ok (name, color)
  end.

(** The loop [for x in body[0]] of a complex entity. *)
Fixpoint complex_entity (members : list pybody) (title : string) (node_color : pycolor)
  : result (string * pycolor) :=
  match members with
  | [] => Ok (title, node_color)
  | x :: rest =>
      r <- simple_entity x node_color ;;
      let (curr_title, node_color) := (r : string * pycolor) in
      let title :=
        (title ++ (if (0 <? String.length title)%nat then "<br>" else EmptyString)
           ++ curr_title)%string in
      complex_entity rest title node_color
  end.

(** The loop [for object in data[node]]. *)
Fixpoint node_title (objects : list object) (title : string) (node_color : pycolor)
  : result (string * pycolor) :=
  match objects with
  | [] => Ok (title, node_color)
  | obj :: rest =>
      let body := BODY_TAG obj in
      b0 <- body_index body 0 ;;
      r <- match b0 with
           | BStr _ => simple_entity body node_color
           | BList members => complex_entity members title node_color
           end ;;
      let (title, node_color) := (r : string * pycolor) in
      node_title rest title node_color
  end.

(** The two objects the graph builder mutates: the network and the
    dictionary [model[DATA_TAG]], a [defaultdict(list)]. *)
Record gstate := GState {
  net : network;
  data : pydict (list object)
}.

Definition add_node (node : string) (force_color : string) (st : gstate)
  : result unit * gstate :=
  let node_color :=
    if (0 <? String.length force_color)%nat then force_color
    else if (num_nodes (net st) =? 0)%nat then ENTRY_NODE_COLOR
    else EmptyString in
  let net1 := net_add_node (net st) node in
  let (objects, data1) := dd_getitem [] (data st) node in
  match node_title objects EmptyString (ColStr node_color) with
  | Ok (title, node_color) =>
      (Ok tt, {| net := net_update_node net1 node title node_color; data := data1 |})
  | Raise e => (Raise e, {| net := net1; data := data1 |})
  end.

(** ** Loops over mutable state *)
Definition M (A : Type) := gstate -> result A * gstate.

Fixpoint for_each {A} (l : list A) (body : A -> M unit) : M unit :=
  fun st =>
    match l with
    | [] => (Ok tt, st)
    | x :: l' =>
        match body x st with
        | (Ok _, st') => for_each l' body st'
        | (Raise e, st') => (Raise e, st')
        end
    end.

(** [for node in data]: the iterator of a [dict] raises [RuntimeError]
    when the dictionary has changed its size since the loop began; it
    looks at the size each time it is asked for the next key, the last
    time included.  The loop bodies of the tool add keys and never remove
    one, so the keys the loop began with stay in place. *)
Fixpoint for_dict_keys (size : nat) (keys : list string) (body : string -> M unit)
  : M unit :=
  fun st =>
    if negb (List.length (data st) =? size)%nat then (Raise RuntimeError, st)
    else
      match keys with
      | [] => (Ok tt, st)
      | k :: keys' =>
          match body k st with
          | (Ok _, st') => for_dict_keys size keys' body st'
          | (Raise e, st') => (Raise e, st')
          end
      end.

Definition for_dict (body : string -> M unit) : M unit :=
  fun st => for_dict_keys (List.length (data st)) (dict_keys (data st)) body st.

Definition add_edge (source to : string) : M unit :=
  fun st =>
    match net_add_edge (net st) source to with
    | Ok net' => (Ok tt, {| net := net'; data := data st |})
    | Raise e => (Raise e, st)
    end.

(** ** make_graph_complete *)
Definition make_graph_complete : M unit :=
  fun st =>
    match for_dict (fun node => add_node node EmptyString) st with
    | (Raise e, st1) => (Raise e, st1)
    | (Ok _, st1) =>
        for_dict
          (fun node st =>
             let (objects, data1) := dd_getitem [] (data st) node in
             for_each objects
               (fun obj =>
                  for_each (REFS_TAG obj)
                    (fun ref st =>
                       match
                         (if negb (dict_contains (data st) ref)
                          then add_node ref FAILURE_NODE_COLOR st
                          else (Ok tt, st))
                       with
                       | (Ok _, st') => add_edge node ref st'
                       | (Raise e, st') => (Raise e, st')
                       end))
               {| net := net st; data := data1 |})
          st1
    end.

(** ** make_graph_entity *)

(** [nodes[k].add(ref)] on the [defaultdict(set)]. *)
Definition nodes_add (nodes : pydict pyset) (k ref : string) : pydict pyset :=
  let (s, nodes1) := dd_getitem [] nodes k in
  dict_set nodes1 k (set_add s ref).

(** The two loops [for object in data[curr_entity]: for ref in ...]. *)
Definition collect_refs (curr_entity : string) (objects : list object)
    (nodes : pydict pyset) (new_entities : pyset) : pydict pyset * pyset :=
  fold_left
    (fun acc obj =>
       fold_left
         (fun acc ref => (nodes_add (fst acc) curr_entity ref, set_add (snd acc) ref))
         (REFS_TAG obj) acc)
    objects (nodes, new_entities).

(** One turn of [for curr_entity in entities]. *)
Definition visit_entity (curr_entity : string) (nodes : pydict pyset)
    (new_entities : pyset) (st : gstate)
  : result (pydict pyset * pyset) * gstate :=
  if dict_contains nodes curr_entity then (Ok (nodes, new_entities), st)
  else
    let nodes := snd (dd_getitem [] nodes curr_entity) in
    if dict_contains (data st) curr_entity then
      match add_node curr_entity EmptyString st with
      | (Raise e, st') => (Raise e, st')
      | (Ok _, st') =>
          let (objects, data1) := dd_getitem [] (data st') curr_entity in
          (Ok (collect_refs curr_entity objects nodes new_entities),
           {| net := net st'; data := data1 |})
      end
    else
      match add_node curr_entity FAILURE_NODE_COLOR st with
      | (Raise e, st') => (Raise e, st')
      | (Ok _, st') => (Ok (nodes, new_entities), st')
      end.

Fixpoint visit_entities (entities : list string) (nodes : pydict pyset)
    (new_entities : pyset) (st : gstate)
  : result (pydict pyset * pyset) * gstate :=
  match entities with
  | [] => (Ok (nodes, new_entities), st)
  | curr_entity :: rest =>
      match visit_entity curr_entity nodes new_entities st with
      | (Ok (nodes', new_entities'), st') =>
          visit_entities rest nodes' new_entities' st'
      | (Raise e, st') => (Raise e, st')
      end
  end.

(** [while len(entities) > 0]; [None] when the fuel runs out. *)
Fixpoint traverse_refs (fuel : nat) (nodes : pydict pyset) (entities : pyset)
    (st : gstate) : option (result (pydict pyset) * gstate) :=
  match entities with
  | [] => Some (Ok nodes, st)
  | _ :: _ =>
      match fuel with
      | O => None
      | S fuel' =>
          match visit_entities (set_iter entities) nodes [] st with
          | (Ok (nodes', new_entities), st') =>
              traverse_refs fuel' nodes' new_entities st'
          | (Raise e, st') => Some (Raise e, st')
          end
      end
  end.

Definition make_graph_entity (fuel : nat) (entity : string) (st : gstate)
  : option (result unit * gstate) :=
  match traverse_refs fuel [] [entity] st with
  | None => None
  | Some (Raise e, st') => Some (Raise e, st')
  | Some (Ok nodes, st') =>
      Some (for_each nodes
              (fun kv => for_each (set_iter (snd kv))
                           (fun ref => add_edge (fst kv) ref))
              st')
  end.

(** ** make_graph: the network handed to [write_html], and the model
    after the call *)
Definition make_graph (fuel : nat) (m : model) (entity : string)
  : option (result network * model) :=
  let st := {| net := empty_network; data := DATA_TAG m |} in
  let r :=
    if (String.length entity =? 0)%nat then Some (make_graph_complete st)
    else make_graph_entity fuel entity st in
  match r with
  | None => None
  | Some (Ok _, st') => Some (Ok (net st'), {| DATA_TAG := data st' |})
  | Some (Raise e, st') => Some (Raise e, {| DATA_TAG := data st' |})
  end.

End GraphBuilder.

(* ================================================================== *)
(** * The parse trees of the grammar *)
(* ================================================================== *)

(** What lark's parser returns for a parameter, a record and an entity
    instance of the grammar: a tree per rule; the tokens of named
    terminals and of anonymous regular expressions are kept, the tokens
    of anonymous string literals (parentheses, commas, dots, quotes, the
    first digit of a binary, the directive [\*\] inside a string) are
    filtered out.  lark names an anonymous
    regular expression [__ANON_n]; [T] has no callback for such a type,
    the index is left out. *)
Definition ANON : string := "__ANON".

Inductive string_terminal :=
| REVERSE_SOLIDUS | WS | SPECIAL | DIGIT | LOWER | UPPER | CONTROL_DIRECTIVE.

Definition terminal_name (k : string_terminal) : string :=
  match k with
  | REVERSE_SOLIDUS => "REVERSE_SOLIDUS"
  | WS => "WS"
  | SPECIAL => "SPECIAL"
  | DIGIT => "DIGIT"
  | LOWER => "LOWER"
  | UPPER => "UPPER"
  | CONTROL_DIRECTIVE => "CONTROL_DIRECTIVE"
  end.

(** A piece of the content of a string literal: a token of one of these
    terminals, which lark keeps, or the directive [\*\], which the rule
    [string] names by an anonymous string literal, so that its token is
    filtered out of the tree like the two apostrophes. *)
Inductive string_chunk :=
| kept (k : string_terminal) (text : string) (line : Z)
| star_directive.

(** The texts of the tokens lark keeps of a string literal, joined. *)
Definition chunk_kept (c : string_chunk) : list string :=
  match c with
  | kept _ text _ => [text]
  | star_directive => []
  end.

Definition kept_content (chunks : list string_chunk) : string :=
  String.concat EmptyString (flat_map chunk_kept chunks).

Inductive parameter :=
| p_string (chunks : list string_chunk)
| p_none (line : Z)
| p_int (text : string) (line : Z)
| p_real (text : string) (line : Z)
| p_enumeration (kw : string) (line : Z)
| p_id (text : string) (line : Z)
| p_binary (radix : string) (hex : list (string * Z))
| p_list (items : list parameter)
| p_typed (kw : string) (line : Z) (inner : parameter)
| p_typed_empty
| p_omitted (line : Z).

Record simple_record := SimpleRecord {
  r_keyword : string;
  r_line : Z;
  r_parameters : option (list parameter)
}.

Inductive record :=
| simple (r : simple_record)
| subsuper (rs : list simple_record).

Record entity_instance := EntityInstance {
  i_id : string;
  i_line : Z;
  i_record : record
}.

Section ParseTrees.

Context `{PyFloat}.

Definition keyword_tree (kw : string) (line : Z) : pyval :=
  VTree "keyword" [VToken (Token ANON kw line)].

Definition chunk_token (c : string_chunk) : list pyval :=
  match c with
  | kept k text line => [VToken (Token (terminal_name k) text line)]
  | star_directive => []
  end.

Definition hex_token (h : string * Z) : pyval :=
  VToken (Token "HEX" (fst h) (snd h)).

Fixpoint parameter_tree (p : parameter) : pyval :=
  let untyped x := VTree "parameter" [VTree "untyped_parameter" [x]] in
  match p with
  | p_string chunks => untyped (VTree "string" (flat_map chunk_token chunks))
  | p_none line => untyped (VToken (Token "NONE" "$" line))
  | p_int text line => untyped (VToken (Token "INT" text line))
  | p_real text line => untyped (VToken (Token "REAL" text line))
  | p_enumeration kw line => untyped (VTree "enumeration" [keyword_tree kw line])
  | p_id text line => untyped (VTree "id" [VToken (Token ANON text line)])
  | p_binary _ hex => untyped (VTree "binary" (map hex_token hex))
  | p_list items => untyped (VTree "list" (map parameter_tree items))
  | p_typed kw line inner =>
      VTree "parameter"
        [VTree "typed_parameter" [keyword_tree kw line; parameter_tree inner]]
  | p_typed_empty => VTree "parameter" [VTree "typed_parameter" []]
  | p_omitted line =>
      VTree "parameter" [VTree "omitted_parameter" [VToken (Token "STAR" "*" line)]]
  end.

Definition simple_record_tree (r : simple_record) : pyval :=
  VTree "simple_record"
    (keyword_tree (r_keyword r) (r_line r) ::
     match r_parameters r with
     | Some ps => [VTree "parameter_list" (map parameter_tree ps)]
     | None => []
     end).

Definition record_tree (r : record) : pyval :=
  match r with
  | simple r => simple_record_tree r
  | subsuper rs =>
      VTree "subsuper_record" [VTree "simple_record_list" (map simple_record_tree rs)]
  end.

Definition instance_kind (r : record) : string :=
  match r with
  | simple _ => "simple_entity_instance"
  | subsuper _ => "complex_entity_instance"
  end.

Definition entity_instance_tree (e : entity_instance) : pyval :=
  VTree "entity_instance"
    [VTree (instance_kind (i_record e))
       [VTree "id" [VToken (Token ANON (i_id e) (i_line e))];
        record_tree (i_record e)]].

Definition data_section_tree (es : list entity_instance) : pyval :=
  VTree "data_section" (map entity_instance_tree es).

(** Indexing a parsed data section: transform its tree, then
    [explore_data]; the index entry of one parsed entity instance. *)
Definition index_section (filecontent : string) (es : list entity_instance)
  : result (pydict (list object)) :=
  t <- transform (data_section_tree es) ;;
  explore_data filecontent t.

Definition index_instance (filecontent : string) (e : entity_instance)
  : result (pydict (list object)) :=
  index_section filecontent [e].

(** An entity instance after [T]: the rules [entity_instance],
    [simple_entity_instance] and [complex_entity_instance] have no
    callback and stay trees, the id stays a token, the record is a
    tuple. *)
Definition entity_value (kind : string) (id : token) (items : list pyval) : pyval :=
  VTree "entity_instance" [VTree kind [VToken id; VTuple items]].

Definition canonical_instance (e : entity_instance) (v : pyval) : Prop :=
  exists items,
    v = entity_value (instance_kind (i_record e)) (Token ANON (i_id e) (i_line e)) items.

(** The object [explore_data] stores for such an instance. *)
Definition entry_of (id : token) (items : list pyval) : object :=
  {| BODY_TAG := fst (explode_object (VTuple items) []);
     REFS_TAG := snd (explode_object (VTuple items) []);
     LINES_TAG := (tok_line id, tok_line id) |}.

(** The index holds a non-empty list under every id seen so far and
    nothing else. *)
Definition indexed (objects : pydict (list object)) (seen : list string) : Prop :=
  forall k, (In k seen -> exists o os, dict_get objects k = Some (o :: os)) /\
            (~ In k seen -> dict_get objects k = None).

(** Decoding a literal and rendering it the way a title renders a
    parameter: what [to_str] appends to its list [a] for an item. *)
Definition decode (p : parameter) : result pybody :=
  v <- transform (parameter_tree p) ;;
  Ok (fst (explode_object v [])).

Definition render (b : pybody) : string :=
  let s := to_str b in
  if s =? EmptyString then "''" else s.

Definition decode_render (p : parameter) : result string :=
  b <- decode p ;; Ok (render b).

End ParseTrees.

(** ** What the specification says, in its own words *)

(** Every reference found inside a value (section 3, [refs]): in order
    of appearance, across lists and typed wrappers alike. *)
Fixpoint spec_refs (p : parameter) : list string :=
  match p with
  | p_id text _ => [text]
  | p_list items => flat_map spec_refs items
  | p_typed _ _ inner => spec_refs inner
  | _ => []
  end.

Definition spec_record_refs (r : simple_record) : list string :=
  match r_parameters r with
  | Some ps => flat_map spec_refs ps
  | None => []
  end.

Definition spec_instance_refs (e : entity_instance) : list string :=
  match i_record e with
  | simple r => spec_record_refs r
  | subsuper rs => flat_map spec_record_refs rs
  end.







(** ** The token classes of the grammar *)
Fixpoint all_chars (c : ascii -> bool) (s : string) : bool :=
  match s with
  | EmptyString => true
  | String a s' => (c a && all_chars c s')%bool
  end.

Definition is_digits (s : string) : bool :=
  match s with
  | EmptyString => false
  | _ => all_chars is_digit s
  end.

(** [INT: SIGN? DIGIT (DIGIT)*]. *)
Definition is_INT (s : string) : bool :=
  match s with
  | String "+" d | String "-" d => is_digits d
  | _ => is_digits s
  end.




(** A parameter whose [INT] tokens are of the grammar and within the
    limit of [int]. *)
Fixpoint valid_parameter (p : parameter) : bool :=
  match p with
  | p_int text _ => (is_INT text && within_int_limit text)%bool
  | p_list items => forallb valid_parameter items
  | p_typed _ _ inner => valid_parameter inner
  | _ => true
  end.

Definition valid_simple_record (r : simple_record) : bool :=
  match r_parameters r with
  | Some ps => forallb valid_parameter ps
  | None => true
  end.

Definition valid_record (r : record) : bool :=
  match r with
  | simple r => valid_simple_record r
  | subsuper rs => forallb valid_simple_record rs
  end.

(** The references of a value that are not inside a typed wrapper, and
    the values free of binary literals outside typed wrappers. *)
Fixpoint refs_outside_typed (p : parameter) : list string :=
  match p with
  | p_id text _ => [text]
  | p_list items => flat_map refs_outside_typed items
  | _ => []
  end.

Fixpoint no_binary (p : parameter) : bool :=
  match p with
  | p_binary _ _ => false
  | p_list items => forallb no_binary items
  | _ => true
  end.

Definition record_refs_outside_typed (r : simple_record) : list string :=
  match r_parameters r with
  | Some ps => flat_map refs_outside_typed ps
  | None => []
  end.

Definition instance_refs_outside_typed (e : entity_instance) : list string :=
  match i_record e with
  | simple r => record_refs_outside_typed r
  | subsuper rs => flat_map record_refs_outside_typed rs
  end.

Definition record_no_binary (r : simple_record) : bool :=
  match r_parameters r with
  | Some ps => forallb no_binary ps
  | None => true
  end.

Definition instance_no_binary (e : entity_instance) : bool :=
  match i_record e with
  | simple r => record_no_binary r
  | subsuper rs => forallb record_no_binary rs
  end.
(* ================================================================== *)
(** * Sample inputs *)
(* ================================================================== *)

(** A stand-in for [float] where no [REAL] token occurs: the text of the
    literal. *)
Definition literal_float : PyFloat :=
  {| pyfloat := string; py_float := fun s => s; py_str_float := fun s => s |}.

Definition text_of_lines (lines : list string) : string :=
  String.concat (String newline EmptyString) lines.

Definition instance_of (id : string) (line : Z) (kw : string)
    (ps : option (list parameter)) : entity_instance :=
  {| i_id := id; i_line := line;
     i_record := simple {| r_keyword := kw; r_line := line; r_parameters := ps |} |}.

(** [#1=FOO(BAR(#2));] *)
Definition typed_ref_instance : entity_instance :=
  instance_of "#1" 1 "FOO" (Some [p_typed "BAR" 1 (p_id "#2" 1)]).

(** [#1=FOO(#2,(#3,#2),BAR(#4));] *)
Definition list_ref_instance : entity_instance :=
  instance_of "#1" 1 "FOO"
    (Some [p_id "#2" 1; p_list [p_id "#3" 1; p_id "#2" 1]; p_typed "BAR" 1 (p_id "#4" 1)]).

(** A file whose data section holds [#1=FOO();] and then [#1=BAR();]. *)
Definition duplicate_file : string :=
  text_of_lines
    [ "ISO-10303-21;"; "HEADER;"; "FILE_NAME('a');"; "ENDSEC;"; "DATA;";
      "#1=FOO();"; "#1=BAR();"; "ENDSEC;"; "END-ISO-10303-21;" ].

Definition first_duplicate : entity_instance := instance_of "#1" 6 "FOO" None.
Definition second_duplicate : entity_instance := instance_of "#1" 7 "BAR" None.
Definition duplicate_section : list entity_instance :=
  [first_duplicate; second_duplicate].

(** A file with a character that no terminal of the grammar matches
    (code point 233, in the string of line 3, column 12), and a parser
    that stands for lark on this file: it raises [UnexpectedCharacters]
    there. *)
Definition unexpected_character_file : string :=
  text_of_lines
    [ "ISO-10303-21;"; "HEADER;";
      ("FILE_NAME('" ++ String "233" "');")%string;
      "ENDSEC;"; "DATA;"; "ENDSEC;"; "END-ISO-10303-21;" ].

Definition unexpected_character : lark_exception :=
  UnexpectedCharacters 3 12 "233"
    ["APOSTROPHE"; "CONTROL_DIRECTIVE"; "DIGIT"; "LOWER"; "REVERSE_SOLIDUS";
     "SPECIAL"; "UPPER"; "WS"; "__ANON_8"].

Definition rejecting_parser : @LarkParser literal_float :=
  {| parser_parse := fun _ => inr unexpected_character |}.

(** [#1=FOO(#2);] alone: the reference to [#2] dangles. *)
Definition dangling_section : list entity_instance :=
  [instance_of "#1" 1 "FOO" (Some [p_id "#2" 1])].

(** [#1=FOO(#2);] and [#2=BAR(#1);]: a cycle of references. *)
Definition cyclic_section : list entity_instance :=
  [instance_of "#1" 1 "FOO" (Some [p_id "#2" 1]);
   instance_of "#2" 2 "BAR" (Some [p_id "#1" 2])].

(** The index of a sample section. *)
Definition index_of (es : list entity_instance) : pydict (list object) :=
  match @index_section literal_float EmptyString es with
  | Ok d => d
  | Raise _ => []
  end.

(** A set order and a [textwrap.wrap] to run the samples with: the
    order of insertion, and no wrapping. *)
Definition insertion_order : SetOrder :=
  {| set_iter := fun s => s; set_iter_perm := fun s => Permutation_refl s |}.

Definition no_wrap : TextWrap :=
  {| textwrap_wrap := fun s _ => [s] |}.


(** ** Measures of a text *)

(** The sum of a weight over the characters: the length for the weight
    1, the number of newlines for the weight that counts them. *)
Fixpoint weight (w : ascii -> nat) (s : string) : nat :=
  match s with
  | EmptyString => 0
  | String c s' => w c + weight w s'
  end.

Definition newline_weight (c : ascii) : nat :=
  if Ascii.eqb c newline then 1 else 0.

Definition count_newlines (s : string) : nat := weight newline_weight s.


(** ** Shapes of an index entry *)

(** The body of a simple record: a list that begins with the keyword;
    the body of a complex record: a list whose first item is the list of
    such bodies. *)
Definition simple_body (b : pybody) : bool :=
  match b with
  | BList (BStr _ :: _) => true
  | _ => false
  end.

Definition record_body (b : pybody) : bool :=
  match b with
  | BList (BStr _ :: _) => true
  | BList (BList members :: _) => forallb simple_body members
  | _ => false
  end.

(** The first node of the network is [first] and is colored entry. *)
Definition first_is_entry (first : string) (n : network) : Prop :=
  exists g others,
    nodes n = g :: others /\
    n_id g = first /\
    n_color g = Some (ColStr ENTRY_NODE_COLOR).

(** The invariant of the two loops of [make_graph_complete]. *)
Definition entry_kept (first : string) (st : gstate) : Prop :=
  first_is_entry first (net st) /\ dict_contains (data st) first = true.


(** ** The reference relation of an index *)

(** Every id some entity refers to, and a number of turns of the loop
    of [make_graph_entity] that is enough for the index. *)
Definition refs_of_data (d : pydict (list object)) : list string :=
  flat_map (fun kv => flat_map REFS_TAG (snd kv)) d.

Definition traversal_bound (d : pydict (list object)) : nat :=
  S (S (List.length (refs_of_data d))).

(** The invariant of the traversal: the visited ids are distinct and,
    like the ids waiting and every reference of the index, among the
    ids of [universe]. *)
Definition traversal_ok (universe : list string) (visited : pydict pyset)
    (waiting : pyset) (st : gstate) : Prop :=
  NoDup (dict_keys visited) /\
  incl (dict_keys visited) universe /\
  incl waiting universe /\
  incl (refs_of_data (data st)) universe.

(** Every body of the index is the body of a record. *)
Definition records_only (d : pydict (list object)) : Prop :=
  forall k objects, In (k, objects) d ->
    forallb (fun o => record_body (BODY_TAG o)) objects = true.


(** One edge per reference occurrence of the index, in file order. *)
Definition edges_of_data (d : pydict (list object)) : list (string * string) :=
  flat_map (fun kv => map (pair (fst kv)) (flat_map REFS_TAG (snd kv))) d.

(** The state of the traversal on an index without dangling references:
    the index is as it was, every visited id is a node, every id still
    to visit is indexed, and every reference collected so far is
    visited, pending in this turn, or waiting for the next one. *)
Definition closed_state (d : pydict (list object)) (visited : pydict pyset)
    (pending : list string) (waiting : pyset) (st : gstate) : Prop :=
  data st = d /\
  (forall k, In k (dict_keys visited) -> has_node (net st) k = true) /\
  (forall k, In k pending \/ In k waiting -> dict_contains d k = true) /\
  (forall k s r, In (k, s) visited -> In r s ->
                 In r (dict_keys visited) \/ In r pending \/ In r waiting).

(* ================================================================== *)
(** * Further notions: tokens, headers, reachability *)
(* ================================================================== *)

Section Tokens.

Context `{PyFloat}.

(** The text of every [Token] of a value, in the order [explode_object]
    meets them: through trees, tuples and lists. *)
Fixpoint tokens_of (v : pyval) : list string :=
  match v with
  | VToken tk => [tok_value tk]
  | VTree _ xs => flat_map tokens_of xs
  | VTuple xs => flat_map tokens_of xs
  | VList xs => flat_map tokens_of xs
  | _ => []
  end.

End Tokens.

(** The tokens [T] leaves in a parameter: the ids, and the hex digits
    of the binary literals, that are not inside a typed wrapper. *)
Fixpoint tokens_outside_typed (p : parameter) : list string :=
  match p with
  | p_id text _ => [text]
  | p_binary _ hex => map fst hex
  | p_list items => flat_map tokens_outside_typed items
  | _ => []
  end.

Definition record_tokens (r : simple_record) : list string :=
  match r_parameters r with
  | Some ps => flat_map tokens_outside_typed ps
  | None => []
  end.

Definition instance_tokens (e : entity_instance) : list string :=
  match i_record e with
  | simple r => record_tokens r
  | subsuper rs => flat_map record_tokens rs
  end.

Section RecordValues.

Context `{PyFloat}.

(** What [T] makes of a simple record and of a record: a tuple that
    begins with the keyword, or a tuple of one tuple of such tuples. *)
Definition simple_record_value (r : simple_record) (v : pyval) : Prop :=
  exists rest,
    v = VTuple (VStr (r_keyword r) :: rest) /\
    flat_map tokens_of rest = record_tokens r.

Definition record_value (r : record) (items : list pyval) : Prop :=
  match r with
  | simple r => simple_record_value r (VTuple items)
  | subsuper rs => exists vs, items = [VTuple vs] /\ Forall2 simple_record_value rs vs
  end.

(** The entry [explore_data] stores for a parsed entity instance. *)
Definition entry_for (e : entity_instance) (kv : string * list object) : Prop :=
  exists obj,
    kv = (i_id e, [obj]) /\
    LINES_TAG obj = (i_line e, i_line e) /\
    REFS_TAG obj = instance_tokens e /\
    record_body (BODY_TAG obj) = true.

End RecordValues.

(** ** The parse tree of a whole file

    [file: ISO ";" header data_section "END-" ISO ";"]: the two [ISO]
    tokens are of a named terminal and stay in the tree, the header and
    the data section between them; a header entity always has a
    parameter list. *)
Record header_entity := HeaderEntity {
  h_keyword : string;
  h_line : Z;
  h_parameters : list parameter
}.

Section FileTrees.

Context `{PyFloat}.

Definition header_entity_tree (h : header_entity) : pyval :=
  VTree "header_entity"
    [keyword_tree (h_keyword h) (h_line h);
     VTree "parameter_list" (map parameter_tree (h_parameters h))].

Definition header_tree (hs : list header_entity) : pyval :=
  VTree "header" [VTree "header_entity_list" (map header_entity_tree hs)].

Definition iso_token (text : string) (line : Z) : pyval :=
  VToken (Token "ISO" text line).

Definition file_tree (iso : string) (hs : list header_entity)
    (es : list entity_instance) (last_line : Z) : pyval :=
  VTree "file"
    [iso_token iso 1; header_tree hs; data_section_tree es; iso_token iso last_line].

End FileTrees.

Definition valid_header_entity (h : header_entity) : bool :=
  forallb valid_parameter (h_parameters h).

(** ** Texts the preprocessor leaves alone *)

(** The text without its blanks, and the characters that begin no id
    literal and no string literal. *)
Fixpoint strip_blanks (s : string) : string :=
  match s with
  | EmptyString => EmptyString
  | String c s' => if is_blank c then strip_blanks s' else String c (strip_blanks s')
  end.

Definition no_blank (c : ascii) : bool := negb (is_blank c).

Definition no_literal_mark (c : ascii) : bool :=
  (negb (Ascii.eqb c "#") && negb (Ascii.eqb c "'"))%bool.

(** ** The color of a node *)

(** The keywords of the body of a record, in order, and the color of
    the first of them that [NODE_COLOR] knows. *)
Definition keyword_of (b : pybody) : list string :=
  match b with
  | BList (BStr kw :: _) => [kw]
  | _ => []
  end.

Definition keywords_of (b : pybody) : list string :=
  match b with
  | BList (BStr kw :: _) => [kw]
  | BList (BList members :: _) => flat_map keyword_of members
  | _ => []
  end.

Fixpoint first_table_color (kws : list string) : option string :=
  match kws with
  | [] => None
  | kw :: rest =>
      match dict_get NODE_COLOR kw with
      | Some c => Some c
      | None => first_table_color rest
      end
  end.

(** What [simple_entity] and the loop over the members of a complex
    record make of a color that is still empty. *)
Definition table_color (kws : list string) (color : pycolor) : pycolor :=
  match first_table_color kws with
  | Some c => ColStr c
  | None => match kws with [] => color | _ :: _ => ColEmptyDict end
  end.

(** ** The steps of the second loop of [make_graph_complete] *)

Section CompleteSteps.

Context `{TextWrap}.

(** The body of [for ref in object[REFS_TAG]] and the body of the
    second [for node in data], as [make_graph_complete] has them. *)
Definition edge_step (node ref : string) : M unit :=
  fun st =>
    match
      (if negb (dict_contains (data st) ref)
       then add_node ref FAILURE_NODE_COLOR st
       else (Ok tt, st))
    with
    | (Ok _, st') => add_edge node ref st'
    | (Raise e, st') => (Raise e, st')
    end.

Definition node_step (node : string) : M unit :=
  fun st =>
    let (objects, data1) := dd_getitem [] (data st) node in
    for_each objects (fun obj => for_each (REFS_TAG obj) (edge_step node))
      {| net := net st; data := data1 |}.

End CompleteSteps.

(** Every key of the index is a node of the network. *)
Definition keys_are_nodes (st : gstate) : Prop :=
  forall k, dict_contains (data st) k = true -> has_node (net st) k = true.

(** Some reference of the index is no key of it. *)
Definition dangling (d : pydict (list object)) (r : string) : Prop :=
  In r (refs_of_data d) /\ dict_contains d r = false.

(** ** The reference relation and what a root reaches *)

(** [a] refers to [b]: [b] is among the refs of the objects the index
    holds for [a]. *)
Definition refers (d : pydict (list object)) (a b : string) : Prop :=
  exists objects, dict_get d a = Some objects /\ In b (flat_map REFS_TAG objects).

Inductive reachable (d : pydict (list object)) (root : string) : string -> Prop :=
| reach_root : reachable d root root
| reach_step a b : reachable d root a -> refers d a b -> reachable d root b.

(** The edges the last loop of [make_graph_entity] adds for the
    dictionary [nodes], for a given order of iteration over a set. *)
Definition edges_of_nodes `{SetOrder} (visited : pydict pyset) : list (string * string) :=
  flat_map (fun kv => map (pair (fst kv)) (set_iter (snd kv))) visited.

(** The state of the traversal from [root] over the index [d], between
    two turns of [for curr_entity in entities]: [visited] is the
    dictionary [nodes], [pending] what is left of [entities], [waiting]
    the set [new_entities]. *)
Record bfs_state (d : pydict (list object)) (root : string)
    (visited : pydict pyset) (pending : list string) (waiting : pyset)
    (st : gstate) : Prop := {
  bfs_index : forall k v, dict_get d k = Some v -> dict_get (data st) k = Some v;
  bfs_failed : forall k, dict_get d k = None -> In k (dict_keys visited) ->
                         dict_get (data st) k = Some [];
  bfs_absent : forall k, dict_get d k = None -> ~ In k (dict_keys visited) ->
                         dict_get (data st) k = None;
  bfs_nodes : map n_id (nodes (net st)) = dict_keys visited;
  bfs_edges : edges (net st) = [];
  bfs_colors : forall g, In g (nodes (net st)) -> dict_contains d (n_id g) = false ->
                         n_color g = Some (ColStr FAILURE_NODE_COLOR);
  bfs_distinct : NoDup (dict_keys visited);
  bfs_sets : forall k s, In (k, s) visited ->
                         NoDup s /\ forall r, In r s <-> refers d k r;
  bfs_reached : forall k, In k (dict_keys visited) \/ In k pending \/ In k waiting ->
                          reachable d root k;
  bfs_closed : forall k r, In k (dict_keys visited) -> refers d k r ->
                           In r (dict_keys visited) \/ In r pending \/ In r waiting;
  bfs_root : In root (dict_keys visited) \/ In root pending \/ In root waiting;
  bfs_start : visited = [] -> forall k, In k pending \/ In k waiting -> k = root;
  bfs_first : forall k s rest, visited = (k, s) :: rest ->
                k = root /\
                (dict_contains d root = true -> first_is_entry root (net st))
}.

(** ** The title of a simple record *)

(** The parameters of a simple record, none for [KEYWORD()], and the
    title [simple_entity] gives to a record with this keyword whose
    parameters are decoded to [bodies]. *)
Definition parameters_of (r : simple_record) : list parameter :=
  match r_parameters r with
  | Some ps => ps
  | None => []
  end.

Definition record_title `{TextWrap} (kw : string) (bodies : list pybody) : string :=
  join "<br>"
    (textwrap_wrap (kw ++ "(" ++ join ", " (map render bodies) ++ ")")%string
       SPLIT_STRING_SIZE).

(** ** Texts as the two substitutions of the preprocessor read them *)









(** [#1=FOO(#2,"0AF");]: a reference and a binary literal.  The first
    digit of the literal is an anonymous literal of the grammar and is
    not in the tree; the other digits are [HEX] tokens. *)
Definition binary_instance : entity_instance :=
  instance_of "#1" 1 "FOO" (Some [p_id "#2" 1; p_binary "0" [("A", 1%Z); ("F", 1%Z)]]).

(** The tree of the file [ISO-10303-21; HEADER; FILE_NAME('a'); ENDSEC;
    DATA; #1=FOO(#2); #2=BAR(#1); ENDSEC; END-ISO-10303-21;], one
    statement per line, and a parser that stands for lark on it. *)
Definition sample_header : list header_entity :=
  [ {| h_keyword := "FILE_NAME"; h_line := 3;
       h_parameters := [p_string [kept LOWER "a" 3]] |} ].

Definition sample_section : list entity_instance :=
  [instance_of "#1" 6 "FOO" (Some [p_id "#2" 6]);
   instance_of "#2" 7 "BAR" (Some [p_id "#1" 7])].

Definition sample_file : string :=
  text_of_lines
    [ "ISO-10303-21;"; "HEADER;"; "FILE_NAME('a');"; "ENDSEC;"; "DATA;";
      "#1=FOO(#2);"; "#2=BAR(#1);"; "ENDSEC;"; "END-ISO-10303-21;" ].

Definition accepting_parser : @LarkParser literal_float :=
  {| parser_parse := fun _ =>
       inl (@file_tree literal_float "ISO-10303-21" sample_header sample_section 9) |}.

(** A file whose header entity lacks its semicolon, and a parser that
    stands for lark on it: it stops on the keyword of line 4. *)
Definition unexpected_token_file : string :=
  text_of_lines
    [ "ISO-10303-21;"; "HEADER;"; "FILE_NAME ('a')"; "ENDSEC;"; "DATA;";
      "ENDSEC;"; "END-ISO-10303-21;" ].

Definition unexpected_token : lark_exception :=
  UnexpectedToken 4 1 (Token "ENDSEC" "ENDSEC" 4) ["SEMICOLON"].

Definition token_rejecting_parser : @LarkParser literal_float :=
  {| parser_parse := fun _ => inr unexpected_token |}.

(** [#1=FOO(#2);] and [#2=CARTESIAN_POINT('',(0,1));], the object the
    index holds for [#2], and the state of a build that has added the
    node [#1]. *)
Definition point_section : list entity_instance :=
  [instance_of "#1" 1 "FOO" (Some [p_id "#2" 1]);
   instance_of "#2" 2 "CARTESIAN_POINT"
     (Some [p_string []; p_list [p_int "0" 2; p_int "1" 2]])].

Definition point_object : @object :=
  {| BODY_TAG := BList [BStr "CARTESIAN_POINT";
                        BList [BStr EmptyString; BList [BStr "0"; BStr "1"]]];
     REFS_TAG := [];
     LINES_TAG := (2%Z, 2%Z) |}.

Definition point_state : gstate :=
  {| net := net_add_node empty_network "#1"; data := index_of point_section |}.
(* ================================================================== *)
(** * Facts about strings and the runtime pieces *)
(* ================================================================== *)

Lemma append_nil_r (s : string) : (s ++ EmptyString)%string = s.
Proof. induction s as [|c s IH]; cbn; [reflexivity|now rewrite IH]. Qed.

Lemma append_assoc (a b c : string) : ((a ++ b) ++ c = a ++ (b ++ c))%string.
Proof. induction a as [|x a IH]; cbn; [reflexivity|now rewrite IH]. Qed.

Lemma length_append (a b : string) :
  String.length (a ++ b) = String.length a + String.length b.
Proof. induction a as [|x a IH]; cbn; [reflexivity|now rewrite IH]. Qed.

Lemma py_index_0 {A} (x : A) (l : list A) : py_index (x :: l) 0%Z = Ok x.
Proof.
  unfold py_index. cbn [Z.ltb Z.compare List.length].
  replace ((0 <=? 0)%Z && (0 <? Z.of_nat (S (List.length l)))%Z)%bool with true.
  - reflexivity.
  - symmetry. apply andb_true_iff. split; [reflexivity|]. apply Z.ltb_lt. lia.
Qed.

Lemma py_index_1 {A} (x y : A) (l : list A) : py_index (x :: y :: l) 1%Z = Ok y.
Proof.
  unfold py_index. cbn [Z.ltb Z.compare List.length].
  replace ((0 <=? 1)%Z && (1 <? Z.of_nat (S (S (List.length l))))%Z)%bool with true.
  - reflexivity.
  - symmetry. apply andb_true_iff. split; [reflexivity|]. apply Z.ltb_lt. lia.
Qed.

(* ================================================================== *)
(** * The transformer and the indexer *)
(* ================================================================== *)

Section CanonicalizerFacts.

Context `{PyFloat}.

Lemma transform_tree data children :
  transform (VTree data children) =
  (children' <- transform_children children ;; call_userfunc data children').
Proof.
  cbn [transform].
  replace (transform_children children) with
    ((fix transform_children (cs : list pyval) : result (list pyval) :=
        match cs with
        | [] => Ok []
        | c :: cs' =>
            c' <- transform c ;;
            r <- transform_children cs' ;;
            Ok (c' :: r)
        end) children); [reflexivity|].
  induction children as [|c cs IH]; cbn; [reflexivity|].
  destruct (transform c); cbn; [|reflexivity].
  now rewrite IH.
Qed.

Lemma explode_object_items t refs :
  explode_object t refs =
  match t with
  | VList items | VTuple items =>
      let (a, refs') := explode_all items refs in (BList a, refs')
  | VTree _ children =>
      let (a, refs') := explode_all children refs in (BList a, refs')
  | VToken tk => (BStr (tok_value tk), refs ++ [tok_value tk])
  | VStr s => (BStr s, refs)
  | VInt z => (BStr (py_str_int z), refs)
  | VFloat f => (BStr (py_str_float f), refs)
  end.
Proof.
  assert (E : forall xs r,
    (fix explode_all (xs : list pyval) (refs : list string) : list pybody * list string :=
      match xs with
      | [] => ([], refs)
      | x :: xs' =>
          let (b, refs1) := explode_object x refs in
          let (bs, refs2) := explode_all xs' refs1 in
          (b :: bs, refs2)
      end) xs r = explode_all xs r).
  { induction xs as [|x xs IH]; intros r; cbn; [reflexivity|].
    destruct (explode_object x r) as [b r1]. now rewrite IH. }
  destruct t; cbn [explode_object]; try reflexivity; now rewrite E.
Qed.

(** An induction principle that reaches the items of a list. *)
Lemma parameter_rect' (P : parameter -> Prop) :
  (forall chunks, P (p_string chunks)) ->
  (forall line, P (p_none line)) ->
  (forall text line, P (p_int text line)) ->
  (forall text line, P (p_real text line)) ->
  (forall kw line, P (p_enumeration kw line)) ->
  (forall text line, P (p_id text line)) ->
  (forall radix hex, P (p_binary radix hex)) ->
  (forall items, Forall P items -> P (p_list items)) ->
  (forall kw line inner, P inner -> P (p_typed kw line inner)) ->
  P p_typed_empty ->
  (forall line, P (p_omitted line)) ->
  forall p, P p.
Proof.
  intros Hs Hn Hi Hr He Hid Hb Hl Ht Hte Ho.
  fix IH 1.
  intros [chunks|line|text line|text line|kw line|text line|radix hex|items|kw line inner| |line].
  - apply Hs.
  - apply Hn.
  - apply Hi.
  - apply Hr.
  - apply He.
  - apply Hid.
  - apply Hb.
  - apply Hl. induction items as [|q items IHitems]; constructor.
    + apply IH.
    + exact IHitems.
  - apply Ht, IH.
  - exact Hte.
  - apply Ho.
Qed.

Lemma parse_int_INT text : is_INT text = true -> exists z, parse_int text = Some z.
Proof.
  assert (D : forall s, is_digits s = true -> exists u, NilZero.uint_of_string s = Some u).
  { intros s Hs. destruct s as [|c s]; [discriminate|].
    unfold NilZero.uint_of_string.
    revert Hs. unfold is_digits. generalize (String c s). clear c s.
    induction s as [|c s IH]; intros Hs.
    - now exists Decimal.Nil.
    - cbn in Hs. apply andb_true_iff in Hs as [Hc Hs].
      destruct (IH Hs) as [u Hu]. cbn. rewrite Hu.
      unfold is_digit in Hc. apply andb_true_iff in Hc as [H0 H9].
      destruct c as [[] [] [] [] [] [] [] []]; cbn in H0, H9; try discriminate;
        cbn; eauto. }
  intros Ht. unfold is_INT in Ht. unfold parse_int.
  destruct text as [|c s]; [discriminate|].
  destruct (Ascii.eqb_spec c "+") as [->|Hp].
  { destruct (D _ Ht) as [u Hu]. rewrite Hu. cbn. eauto. }
  destruct (Ascii.eqb_spec c "-") as [->|Hm].
  { destruct (D _ Ht) as [u Hu]. rewrite Hu. cbn. eauto. }
  assert (Ht' : is_digits (String c s) = true).
  { destruct c as [[] [] [] [] [] [] [] []]; try exact Ht; congruence. }
  destruct (D _ Ht') as [u Hu].
  exists (Z.of_uint u).
  destruct c as [[] [] [] [] [] [] [] []]; try (rewrite Hu; reflexivity); congruence.
Qed.

Lemma py_int_INT text :
  is_INT text = true -> within_int_limit text = true -> exists z, py_int text = Some z.
Proof.
  intros Ht Hl. unfold py_int. rewrite Hl. now apply parse_int_INT.
Qed.

Lemma transform_untyped x v :
  transform x = Ok v ->
  transform (VTree "parameter" [VTree "untyped_parameter" [x]]) = Ok v.
Proof.
  intros Hx. rewrite transform_tree. cbn [transform_children].
  rewrite transform_tree. cbn [transform_children]. rewrite Hx. reflexivity.
Qed.

Lemma transform_keyword kw line :
  transform (keyword_tree kw line) = Ok (VStr kw).
Proof.
  unfold keyword_tree. rewrite transform_tree. cbn. now rewrite append_nil_r.
Qed.

Lemma transform_children_Forall2 (P : parameter -> pyval -> Prop) items :
  Forall (fun p => exists v, transform (parameter_tree p) = Ok v /\ P p v) items ->
  exists vs, transform_children (map parameter_tree items) = Ok vs /\ Forall2 P items vs.
Proof.
  induction 1 as [|p items (v & Hv & HP) _ (vs & Hvs & HF)].
  - exists []. split; [reflexivity|constructor].
  - exists (v :: vs). cbn. rewrite Hv. cbn. rewrite Hvs. cbn.
    split; [reflexivity|now constructor].
Qed.

Lemma explode_all_refs (R : parameter -> list string) items vs :
  Forall2 (fun p v => forall refs, snd (explode_object v refs) = refs ++ R p) items vs ->
  forall refs, snd (explode_all vs refs) = refs ++ flat_map R items.
Proof.
  induction 1 as [|p v items vs Hv _ IH]; intros refs; cbn.
  - now rewrite app_nil_r.
  - specialize (Hv refs). destruct (explode_object v refs) as [b r1]. cbn in Hv. subst r1.
    specialize (IH (refs ++ R p)). destruct (explode_all vs (refs ++ R p)) as [bs r2].
    cbn in *. now rewrite IH, app_assoc.
Qed.

Lemma chunk_tokens_unchanged chunks :
  transform_children (flat_map chunk_token chunks) = Ok (flat_map chunk_token chunks).
Proof.
  induction chunks as [|[k text line|] chunks IH]; [reflexivity| |exact IH].
  cbn [flat_map chunk_token app transform_children]. rewrite IH.
  destruct k; reflexivity.
Qed.

Lemma hex_tokens_unchanged hex :
  transform_children (map hex_token hex) = Ok (map hex_token hex).
Proof.
  induction hex as [|h hex IH]; [reflexivity|].
  cbn [map transform_children]. rewrite IH. reflexivity.
Qed.

Lemma concat_cons x l :
  String.concat EmptyString (x :: l) = (x ++ String.concat EmptyString l)%string.
Proof. destruct l; cbn; [now rewrite append_nil_r|reflexivity]. Qed.

Lemma join_chunk_tokens chunks :
  join_values (flat_map chunk_token chunks) = Ok (kept_content chunks).
Proof.
  unfold kept_content.
  induction chunks as [|[k text line|] chunks IH]; [reflexivity| |exact IH].
  cbn [flat_map chunk_token chunk_kept app join_values as_str tok_value].
  rewrite IH. cbn [rbind]. now rewrite concat_cons.
Qed.

Lemma transform_parameter p :
  valid_parameter p = true ->
  exists v, transform (parameter_tree p) = Ok v /\
            (no_binary p = true ->
             forall refs, snd (explode_object v refs) = refs ++ refs_outside_typed p).
Proof.
  induction p as [chunks|line|text line|text line|kw line|text line|radix hex|items IH
                 |kw line inner IH| |line] using parameter_rect'; intros Hvalid.
  - exists (VStr (kept_content chunks)).
    split.
    + apply transform_untyped. rewrite transform_tree, chunk_tokens_unchanged.
      cbn [rbind]. unfold call_userfunc. cbn [String.eqb Ascii.eqb Bool.eqb].
      unfold T_string. now rewrite join_chunk_tokens.
    + intros _ refs. cbn. now rewrite app_nil_r.
  - exists (VStr "$"). split; [reflexivity|]. intros _ refs. cbn. now rewrite app_nil_r.
  - cbn [valid_parameter] in Hvalid. apply andb_true_iff in Hvalid as [Hint Hlim].
    destruct (py_int_INT text Hint Hlim) as [z Hz].
    exists (VInt z). split.
    + apply transform_untyped. cbn. unfold T_INT. cbn. now rewrite Hz.
    + intros _ refs. cbn. now rewrite app_nil_r.
  - exists (VFloat (py_float text)). split; [reflexivity|].
    intros _ refs. cbn. now rewrite app_nil_r.
  - exists (VStr kw). split.
    + apply transform_untyped. rewrite transform_tree. cbn [transform_children].
      rewrite transform_keyword. reflexivity.
    + intros _ refs. cbn. now rewrite app_nil_r.
  - exists (VToken (Token ANON text line)). split; [reflexivity|].
    intros _ refs. reflexivity.
  - exists (VTree "binary" (map hex_token hex)). split.
    + apply transform_untyped. rewrite transform_tree, hex_tokens_unchanged. reflexivity.
    + discriminate.
  - cbn [valid_parameter] in Hvalid. rewrite forallb_forall in Hvalid.
    assert (F : Forall (fun p => exists v, transform (parameter_tree p) = Ok v /\
                (no_binary p = true ->
                 forall refs, snd (explode_object v refs) = refs ++ refs_outside_typed p))
              items).
    { rewrite Forall_forall in *. intros q Hq. apply IH; auto. }
    destruct (transform_children_Forall2 _ _ F) as (vs & Hvs & HF).
    exists (VList vs). split.
    + apply transform_untyped. rewrite transform_tree. cbn [parameter_tree].
      fold parameter_tree. rewrite Hvs. reflexivity.
    + intros Hnb refs. cbn [no_binary] in Hnb. rewrite forallb_forall in Hnb.
      rewrite explode_object_items.
      assert (HF' : Forall2 (fun p v => forall refs,
                 snd (explode_object v refs) = refs ++ refs_outside_typed p) items vs).
      { clear - HF Hnb. induction HF; constructor.
        - apply H0, Hnb. now left.
        - apply IHHF. intros q Hq. apply Hnb. now right. }
      pose proof (explode_all_refs _ _ _ HF' refs) as E.
      destruct (explode_all vs refs) as [a r]. exact E.
  - cbn [valid_parameter] in Hvalid. destruct (IH Hvalid) as (v & Hv & _).
    exists (VStr kw). split.
    + cbn [parameter_tree]. rewrite transform_tree. cbn [transform_children].
      rewrite transform_tree. cbn [transform_children].
      rewrite transform_keyword. cbn [rbind]. rewrite Hv. reflexivity.
    + intros _ refs. cbn. now rewrite app_nil_r.
  - exists (VStr EmptyString). split; [reflexivity|].
    intros _ refs. cbn. now rewrite app_nil_r.
  - exists (VStr "*"). split; [reflexivity|].
    intros _ refs. cbn. now rewrite app_nil_r.
Qed.

Lemma transform_simple_record r :
  valid_simple_record r = true ->
  exists items, transform (simple_record_tree r) = Ok (VTuple items) /\
    (record_no_binary r = true ->
     forall refs, snd (explode_object (VTuple items) refs)
                  = refs ++ record_refs_outside_typed r).
Proof.
  unfold valid_simple_record, record_no_binary, record_refs_outside_typed,
    simple_record_tree.
  destruct (r_parameters r) as [ps|]; intros Hvalid.
  - rewrite forallb_forall in Hvalid.
    assert (F : Forall (fun p => exists v, transform (parameter_tree p) = Ok v /\
                (no_binary p = true ->
                 forall refs, snd (explode_object v refs) = refs ++ refs_outside_typed p))
              ps).
    { rewrite Forall_forall. intros q Hq. apply transform_parameter; auto. }
    destruct (transform_children_Forall2 _ _ F) as (vs & Hvs & HF).
    exists [VStr (r_keyword r); VTuple vs]. split.
    + rewrite transform_tree. cbn [transform_children].
      rewrite transform_keyword. cbn [rbind].
      rewrite transform_tree, Hvs. reflexivity.
    + intros Hnb refs. rewrite forallb_forall in Hnb.
      assert (HF' : Forall2 (fun p v => forall refs,
                 snd (explode_object v refs) = refs ++ refs_outside_typed p) ps vs).
      { clear - HF Hnb. induction HF; constructor.
        - apply H0, Hnb. now left.
        - apply IHHF. intros q Hq. apply Hnb. now right. }
      pose proof (explode_all_refs _ _ _ HF' refs) as E.
      rewrite explode_object_items. cbn [explode_all].
      rewrite (explode_object_items (VStr _)).
      rewrite (explode_object_items (VTuple vs)).
      destruct (explode_all vs refs) as [a r']. cbn in *. exact E.
  - exists [VStr (r_keyword r)]. split.
    + rewrite transform_tree. cbn [transform_children].
      rewrite transform_keyword. reflexivity.
    + intros _ refs. cbn. now rewrite app_nil_r.
Qed.

Lemma transform_simple_records rs :
  forallb valid_simple_record rs = true ->
  exists vs, transform_children (map simple_record_tree rs) = Ok vs /\
    (forallb record_no_binary rs = true ->
     forall refs, snd (explode_all vs refs)
                  = refs ++ flat_map record_refs_outside_typed rs).
Proof.
  induction rs as [|r rs IH]; intros Hvalid.
  - exists []. split; [reflexivity|]. intros _ refs. cbn. now rewrite app_nil_r.
  - cbn in Hvalid. apply andb_true_iff in Hvalid as [Hr Hrs].
    destruct (transform_simple_record r Hr) as (items & Hi & Hrefs).
    destruct (IH Hrs) as (vs & Hvs & Hrefs').
    exists (VTuple items :: vs). split.
    + cbn [map transform_children]. rewrite Hi. cbn [rbind]. rewrite Hvs. reflexivity.
    + intros Hnb refs. cbn in Hnb. apply andb_true_iff in Hnb as [Hn Hns].
      cbn [explode_all flat_map].
      specialize (Hrefs Hn refs).
      destruct (explode_object (VTuple items) refs) as [b r1]. cbn in Hrefs. subst r1.
      specialize (Hrefs' Hns (refs ++ record_refs_outside_typed r)).
      destruct (explode_all vs _) as [bs r2]. cbn in *. now rewrite Hrefs', app_assoc.
Qed.

Lemma transform_record r :
  valid_record r = true ->
  exists items, transform (record_tree r) = Ok (VTuple items) /\
    forall e, i_record e = r -> instance_no_binary e = true ->
      forall refs, snd (explode_object (VTuple items) refs)
                   = refs ++ instance_refs_outside_typed e.
Proof.
  destruct r as [r|rs]; cbn [valid_record record_tree]; intros Hvalid.
  - destruct (transform_simple_record r Hvalid) as (items & Hi & Hrefs).
    exists items. split; [exact Hi|].
    intros e He Hnb refs. unfold instance_no_binary, instance_refs_outside_typed in *.
    rewrite He in *. auto.
  - destruct (transform_simple_records rs Hvalid) as (vs & Hvs & Hrefs).
    exists [VTuple vs]. split.
    + rewrite transform_tree. cbn [transform_children].
      rewrite transform_tree, Hvs. reflexivity.
    + intros e He Hnb refs. unfold instance_no_binary, instance_refs_outside_typed in *.
      rewrite He in *. specialize (Hrefs Hnb refs).
      rewrite explode_object_items. cbn [explode_all].
      rewrite (explode_object_items (VTuple vs)).
      destruct (explode_all vs refs) as [a r']. cbn in *. exact Hrefs.
Qed.

Lemma transform_entity_instance e :
  valid_record (i_record e) = true ->
  exists items,
    transform (entity_instance_tree e)
    = Ok (entity_value (instance_kind (i_record e)) (Token ANON (i_id e) (i_line e)) items) /\
    (instance_no_binary e = true ->
     forall refs, snd (explode_object (VTuple items) refs)
                  = refs ++ instance_refs_outside_typed e).
Proof.
  intros Hvalid. destruct (transform_record _ Hvalid) as (items & Hi & Hrefs).
  exists items. split.
  - unfold entity_instance_tree, entity_value.
    rewrite transform_tree. cbn [transform_children].
    rewrite transform_tree. cbn [transform_children].
    rewrite Hi. cbn [rbind].
    replace (transform (VTree "id" [VToken (Token ANON (i_id e) (i_line e))]))
      with (Ok (VToken (Token ANON (i_id e) (i_line e)))) by reflexivity.
    cbn [rbind].
    destruct (i_record e); reflexivity.
  - intros Hnb refs. now apply Hrefs.
Qed.

(** ** The indexer on canonical entity instances *)

Lemma dict_get_app_fresh {V} (d : pydict V) k v :
  dict_get d k = None -> dict_get (d ++ [(k, v)]) k = Some v.
Proof.
  induction d as [|[k' v'] d IH]; cbn; intros Hd.
  - now rewrite String.eqb_refl.
  - destruct (String.eqb k k'); [discriminate|auto].
Qed.

Lemma dict_set_app_fresh {V} (d : pydict V) k v w :
  dict_get d k = None -> dict_set (d ++ [(k, v)]) k w = d ++ [(k, w)].
Proof.
  induction d as [|[k' v'] d IH]; cbn; intros Hd.
  - now rewrite String.eqb_refl.
  - destruct (String.eqb k k'); [discriminate|]. now rewrite IH.
Qed.

Lemma explore_entity_new filecontent objects kind id items :
  dict_get objects (tok_value id) = None ->
  explore_entity filecontent objects (entity_value kind id items)
  = Ok (objects ++ [(tok_value id, [entry_of id items])]).
Proof.
  intros Hnew. unfold explore_entity, entity_value.
  cbn [children_of rbind]. rewrite py_index_0. cbn [rbind children_of].
  rewrite py_index_0. cbn [rbind py_str]. rewrite py_index_1. cbn [rbind].
  unfold entry_of.
  destruct (explode_object (VTuple items) []) as [body refs].
  cbn [traverse get_line_number flat_map app py_min py_max fold_left rbind].
  unfold dd_getitem. rewrite Hnew.
  now rewrite dict_set_app_fresh.
Qed.

Lemma explore_entity_again filecontent objects kind id items o os :
  dict_get objects (tok_value id) = Some (o :: os) ->
  explore_entity filecontent objects (entity_value kind id items)
  = Raise (DuplicateNameError filecontent (tok_value id) (tok_line id, tok_line id)).
Proof.
  intros Hold. unfold explore_entity, entity_value.
  cbn [children_of rbind]. rewrite py_index_0. cbn [rbind children_of].
  rewrite py_index_0. cbn [rbind py_str]. rewrite py_index_1. cbn [rbind].
  destruct (explode_object (VTuple items) []) as [body refs].
  cbn [traverse get_line_number flat_map app py_min py_max fold_left rbind].
  unfold dd_getitem. now rewrite Hold.
Qed.

Lemma dict_get_app {V} (d : pydict V) k v k' :
  dict_get (d ++ [(k, v)]) k' =
  match dict_get d k' with
  | Some x => Some x
  | None => if String.eqb k' k then Some v else None
  end.
Proof.
  induction d as [|[k0 v0] d IH]; cbn; [reflexivity|].
  destruct (String.eqb k' k0); [reflexivity|exact IH].
Qed.

Lemma explore_entities_app filecontent objects vs ws :
  explore_entities filecontent objects (vs ++ ws) =
  (objects' <- explore_entities filecontent objects vs ;;
   explore_entities filecontent objects' ws).
Proof.
  revert objects. induction vs as [|v vs IH]; intros objects; cbn; [reflexivity|].
  destruct (explore_entity filecontent objects v); cbn; [apply IH|reflexivity].
Qed.

Lemma transform_section es :
  forallb (fun e => valid_record (i_record e)) es = true ->
  exists vs, transform_children (map entity_instance_tree es) = Ok vs /\
             Forall2 canonical_instance es vs.
Proof.
  induction es as [|e es IH]; intros Hvalid.
  - exists []. split; [reflexivity|constructor].
  - cbn in Hvalid. apply andb_true_iff in Hvalid as [He Hes].
    destruct (transform_entity_instance e He) as (items & Hi & _).
    destruct (IH Hes) as (vs & Hvs & HF).
    eexists. split.
    + cbn [map transform_children]. rewrite Hi. cbn [rbind]. rewrite Hvs. reflexivity.
    + constructor; [now exists items|exact HF].
Qed.

Lemma explore_entities_distinct filecontent es vs :
  Forall2 canonical_instance es vs ->
  forall objects seen,
    NoDup (map i_id es) ->
    (forall k, In k (map i_id es) -> ~ In k seen) ->
    indexed objects seen ->
    exists objects',
      explore_entities filecontent objects vs = Ok objects' /\
      indexed objects' (seen ++ map i_id es).
Proof.
  induction 1 as [|e v es vs (items & ->) _ IH]; intros objects seen Hnd Hfresh Hidx.
  - exists objects. split; [reflexivity|]. cbn. now rewrite app_nil_r.
  - cbn [map] in Hnd, Hfresh. inversion Hnd as [|? ? Hnotin Hnd']; subst.
    assert (Hnew : dict_get objects (i_id e) = None).
    { apply Hidx, Hfresh. now left. }
    cbn [explore_entities].
    rewrite explore_entity_new by exact Hnew. cbn [rbind tok_value].
    set (o := entry_of _ _).
    destruct (IH (objects ++ [(i_id e, [o])]) (seen ++ [i_id e]) Hnd') as (objects' & Ho & Hi).
    + intros k Hk Hin. apply in_app_or in Hin as [Hin|[<-|[]]].
      * apply (Hfresh k); [now right|exact Hin].
      * contradiction.
    + intros k. rewrite dict_get_app. split.
      * intros Hin. apply in_app_or in Hin as [Hin|[<-|[]]].
        -- destruct (proj1 (Hidx k) Hin) as (o' & os & ->). eauto.
        -- rewrite Hnew, String.eqb_refl. eauto.
      * intros Hin. rewrite (proj2 (Hidx k)).
        -- destruct (String.eqb_spec k (i_id e)) as [->|]; [|reflexivity].
           exfalso. apply Hin, in_or_app. right. now left.
        -- intros Hs. apply Hin, in_or_app. now left.
    + exists objects'. split; [exact Ho|].
      cbn [map]. now rewrite <- app_assoc in Hi.
Qed.

Lemma index_section_eq filecontent es vs :
  transform_children (map entity_instance_tree es) = Ok vs ->
  index_section filecontent es = explore_entities filecontent [] vs.
Proof.
  intros Hvs. unfold index_section, data_section_tree.
  rewrite transform_tree, Hvs. reflexivity.
Qed.

Lemma py_index_in_range {A} (l : list A) (i : Z) :
  (0 <= i < Z.of_nat (List.length l))%Z -> exists a, py_index l i = Ok a.
Proof.
  intros Hi. unfold py_index.
  destruct (Z.ltb_spec i 0) as [Hn|_]; [lia|].
  destruct (Z.leb_spec 0 i) as [_|Hn]; [|lia].
  destruct (Z.ltb_spec i (Z.of_nat (List.length l))) as [_|Hn]; [|lia].
  cbn [andb].
  destruct (nth_error l (Z.to_nat i)) as [a|] eqn:E; [eauto|].
  apply nth_error_None in E. lia.
Qed.

(** C1 (as amended): for every successfully parsed entity instance whose
    body holds no binary literal, the refs sequence of its index entry is
    exactly the sequence of the references found in the body outside
    typed wrappers, across nested lists and the member records of a
    complex record, in order of appearance, duplicates kept, and holds
    nothing else.  A reference inside a typed wrapper is not collected:
    the canonicalizer keeps the keyword of the wrapper only. *)
Theorem refs_are_the_references_outside_typed_wrappers filecontent e :
  valid_record (i_record e) = true ->
  instance_no_binary e = true ->
  exists obj,
    index_instance filecontent e = Ok [(i_id e, [obj])] /\
    REFS_TAG obj = instance_refs_outside_typed e.
Proof.
  intros Hvalid Hnb.
  destruct (transform_entity_instance e Hvalid) as (items & Hi & Hrefs).
  exists (entry_of (Token ANON (i_id e) (i_line e)) items). split.
  - change (index_instance filecontent e) with (index_section filecontent [e]).
    rewrite (index_section_eq filecontent [e]
               [entity_value (instance_kind (i_record e))
                  (Token ANON (i_id e) (i_line e)) items]).
    + cbn [explore_entities]. rewrite explore_entity_new by reflexivity. reflexivity.
    + cbn [map transform_children]. now rewrite Hi.
  - unfold entry_of. cbn [REFS_TAG]. now rewrite (Hrefs Hnb []).
Qed.

(** C2: in a data section where an entity id occurs a second time, the
    indexer raises a Duplicate Name Error that carries this id and the
    line of the second occurrence, whatever follows it, and returns no
    index; the record of the error names the id and that line. *)
Theorem second_occurrence_raises_duplicate_name filecontent pre e post :
  forallb (fun x => valid_record (i_record x)) (pre ++ e :: post) = true ->
  NoDup (map i_id pre) ->
  In (i_id e) (map i_id pre) ->
  (1 <= i_line e <= Z.of_nat (List.length (split_lines filecontent)))%Z ->
  index_section filecontent (pre ++ e :: post)
    = Raise (DuplicateNameError filecontent (i_id e) (i_line e, i_line e)) /\
  exists d,
    asdict (DuplicateNameError filecontent (i_id e) (i_line e, i_line e)) = Ok d /\
    e_type d = "duplicate_name" /\
    e_name d = Some (i_id e) /\
    e_lineno d = i_line e.
Proof.
  intros Hvalid Hnd Hin Hline. split.
  - destruct (transform_section _ Hvalid) as (vs & Hvs & HF).
    rewrite (index_section_eq _ _ _ Hvs).
    apply Forall2_app_inv_l in HF as (vs1 & vs2 & Hpre & Hrest & ->).
    inversion Hrest as [|? v ? vs3 (items & ->) _]; subst.
    rewrite explore_entities_app.
    destruct (explore_entities_distinct filecontent pre vs1 Hpre [] [] Hnd)
      as (objects & -> & Hidx).
    + intros k _ [].
    + intros k. split; [intros []|reflexivity].
    + cbn [rbind app explore_entities].
      destruct (proj1 (Hidx (i_id e)) Hin) as (o & os & Hget).
      now rewrite (explore_entity_again filecontent objects _
                     (Token ANON (i_id e) (i_line e)) items o os Hget).
  - destruct (py_index_in_range (split_lines filecontent) (i_line e - 1)) as [ln Hln];
      [lia|].
    unfold asdict, DuplicateNameError_asdict, DuplicateNameError_str,
      DuplicateNameError_asdict_without_message.
    cbn [fst]. rewrite Hln. cbn [rbind].
    eexists. split; [reflexivity|]. cbn. auto.
Qed.

End CanonicalizerFacts.

Lemma second_occurrence_raises_duplicate_name_witness :
  @index_section literal_float duplicate_file duplicate_section
    = Raise (DuplicateNameError duplicate_file "#1" (7%Z, 7%Z)) /\
  exists d,
    asdict (DuplicateNameError duplicate_file "#1" (7%Z, 7%Z)) = Ok d /\
    e_type d = "duplicate_name" /\
    e_name d = Some "#1" /\
    e_lineno d = 7%Z.
Proof.
  apply (@second_occurrence_raises_duplicate_name literal_float duplicate_file
           [first_duplicate] second_duplicate []).
  - reflexivity.
  - repeat constructor. intros [].
  - now left.
  - vm_compute. split; discriminate.
Defined.

Lemma refs_are_the_references_outside_typed_wrappers_witness :
  exists obj,
    @index_instance literal_float EmptyString list_ref_instance
      = Ok [("#1", [obj])] /\
    REFS_TAG obj = ["#2"; "#3"; "#2"].
Proof.
  apply (@refs_are_the_references_outside_typed_wrappers literal_float
           EmptyString list_ref_instance); reflexivity.
Defined.

(** C1 (as stated) fails: the reference inside the typed wrapper of
    [#1=FOO(BAR(#2));] is a reference of the body and is not in refs. *)
Lemma typed_wrapper_reference_is_not_collected :
  ~ (forall (F : PyFloat) filecontent e obj,
       valid_record (i_record e) = true ->
       index_instance filecontent e = Ok [(i_id e, [obj])] ->
       REFS_TAG obj = spec_instance_refs e).
Proof.
  intros Hall.
  specialize (Hall literal_float EmptyString typed_ref_instance
                {| BODY_TAG := BList [BStr "FOO"; BList [BStr "BAR"]];
                   REFS_TAG := [];
                   LINES_TAG := (1%Z, 1%Z) |}
                eq_refl eq_refl).
  discriminate Hall.
Qed.


(* ================================================================== *)
(** * The preprocessor *)
(* ================================================================== *)

Lemma weight_append w a b : weight w (a ++ b) = weight w a + weight w b.
Proof. induction a as [|c a IH]; cbn; [reflexivity|rewrite IH; lia]. Qed.


Lemma span_append c s m rest : span c s = (m, rest) -> s = (m ++ rest)%string.
Proof.
  revert m rest. induction s as [|a s IH]; cbn; intros m rest E.
  - now inversion E.
  - destruct (c a).
    + destruct (span c s) as [m' rest'] eqn:E'. inversion E; subst.
      cbn. f_equal. now apply IH.
    + now inversion E.
Qed.

Lemma span_all c s m rest : span c s = (m, rest) -> all_chars c m = true.
Proof.
  revert m rest. induction s as [|a s IH]; cbn; intros m rest E.
  - now inversion E.
  - destruct (c a) eqn:Ca.
    + destruct (span c s) as [m' rest'] eqn:E'. inversion E; subst.
      cbn. rewrite Ca. cbn. now apply (IH m' rest).
    + now inversion E.
Qed.

Lemma span_exact c m rest :
  all_chars c m = true ->
  match rest with EmptyString => True | String a _ => c a = false end ->
  span c (m ++ rest) = (m, rest).
Proof.
  intros Hm Hrest. induction m as [|a m IH]; cbn.
  - destruct rest as [|a rest]; [reflexivity|]. cbn. now rewrite Hrest.
  - cbn in Hm. apply andb_true_iff in Hm as [Ha Hm]. now rewrite Ha, IH.
Qed.

Lemma find_close_append s m rest : find_close s = Some (m, rest) -> s = (m ++ rest)%string.
Proof.
  revert m rest. induction s as [|c s IH]; cbn; intros m rest E; [discriminate|].
  assert (G : match find_close s with
              | Some (m0, rest0) => Some (String c m0, rest0)
              | None => None
              end = Some (m, rest) -> String c s = (m ++ rest)%string).
  { destruct (find_close s) as [[m0 rest0]|]; [|discriminate].
    intros [= <- <-]. cbn. f_equal. now apply IH. }
  destruct (Ascii.eqb_spec c "*") as [->|Hc].
  - destruct s as [|d s]; [now apply G|].
    destruct (Ascii.eqb_spec d "/") as [->|Hd].
    + now inversion E.
    + apply G. destruct d as [[] [] [] [] [] [] [] []]; try exact E; congruence.
  - apply G. destruct c as [[] [] [] [] [] [] [] []]; try exact E; congruence.
Qed.

Lemma find_close_exact body rest :
  contains "*/" body = false ->
  find_close (body ++ "*/" ++ rest) = Some ((body ++ "*/")%string, rest).
Proof.
  induction body as [|c body IH]; intros Hb; [reflexivity|].
  cbn [contains] in Hb.
  destruct (String.prefix "*/" (String c body)) eqn:Hp; [discriminate|].
  specialize (IH Hb).
  cbn [append find_close]. cbn [append] in IH. rewrite IH.
  destruct (Ascii.eqb_spec c "*") as [->|Hc].
  - destruct body as [|d body]; [reflexivity|].
    destruct (Ascii.eqb_spec d "/") as [->|Hd].
    + cbn in Hp. destruct body; discriminate.
    + cbn [append]. destruct d as [[] [] [] [] [] [] [] []]; try reflexivity; congruence.
  - destruct c as [[] [] [] [] [] [] [] []]; try reflexivity; congruence.
Qed.

Section Substitution.

Variable match_at : string -> option (re_match * string).
Variable repl : re_match -> string.

Hypothesis match_is_prefix :
  forall s m rest, match_at s = Some (m, rest) -> s = (group0 m ++ rest)%string.

Lemma re_sub_fuel_enough fuel1 fuel2 s :
  String.length s <= fuel1 -> String.length s <= fuel2 ->
  re_sub_fuel fuel1 match_at repl s = re_sub_fuel fuel2 match_at repl s.
Proof.
  revert fuel2 s. induction fuel1 as [|fuel1 IH]; intros fuel2 s H1 H2.
  - destruct s; [|cbn in H1; lia]. destruct fuel2; reflexivity.
  - destruct s as [|c s]; [destruct fuel2; reflexivity|].
    destruct fuel2 as [|fuel2]; [cbn in H2; lia|].
    cbn [re_sub_fuel]. cbn in H1, H2.
    destruct (match_at (String c s)) as [[m rest]|] eqn:E.
    + destruct (group0 m) as [|a g] eqn:G.
      * f_equal. f_equal. apply IH; lia.
      * f_equal. apply match_is_prefix in E. rewrite G in E.
        assert (String.length (String c s) = String.length (String a g ++ rest)) as L
          by now rewrite E.
        rewrite length_append in L. cbn in L. apply IH; lia.
    + f_equal. apply IH; lia.
Qed.

Lemma re_sub_step c s :
  re_sub match_at repl (String c s) =
  match match_at (String c s) with
  | Some (m, rest) =>
      match group0 m with
      | EmptyString => (repl m ++ String c (re_sub match_at repl s))%string
      | String _ _ => (repl m ++ re_sub match_at repl rest)%string
      end
  | None => String c (re_sub match_at repl s)
  end.
Proof.
  unfold re_sub. cbn [String.length re_sub_fuel].
  destruct (match_at (String c s)) as [[m rest]|] eqn:E; [|reflexivity].
  destruct (group0 m) as [|a g] eqn:G; [reflexivity|].
  f_equal. apply match_is_prefix in E. rewrite G in E.
  assert (String.length (String c s) = String.length (String a g ++ rest)) as L
    by now rewrite E.
  rewrite length_append in L. cbn in L. apply re_sub_fuel_enough; lia.
Qed.

Lemma re_sub_empty :
  re_sub match_at repl EmptyString =
  match match_at EmptyString with
  | Some (m, _) => repl m
  | None => EmptyString
  end.
Proof. reflexivity. Qed.

(** A weight the replacement keeps (or does not raise) is kept (not
    raised) by the whole substitution. *)
Lemma re_sub_weight (w : ascii -> nat) (R : nat -> nat -> Prop) :
  R 0 0 ->
  (forall a b c d, R a b -> R c d -> R (a + c) (b + d)) ->
  (forall n, R n n) ->
  (forall s m rest, match_at s = Some (m, rest) ->
                    R (weight w (repl m)) (weight w (group0 m))) ->
  forall s, R (weight w (re_sub match_at repl s)) (weight w s).
Proof.
  intros R0 Radd Rrefl Hrepl s.
  remember (String.length s) as n eqn:Hn. revert s Hn.
  induction n as [n IH] using lt_wf_ind. intros s Hn.
  destruct s as [|c s].
  - rewrite re_sub_empty. destruct (match_at EmptyString) as [[m rest]|] eqn:E; [|exact R0].
    pose proof (Hrepl _ _ _ E) as Hw. apply match_is_prefix in E.
    destruct (group0 m); [exact Hw|discriminate].
  - rewrite re_sub_step.
    destruct (match_at (String c s)) as [[m rest]|] eqn:E.
    + pose proof (Hrepl _ _ _ E) as Hw. apply match_is_prefix in E.
      destruct (group0 m) as [|a g] eqn:G.
      * rewrite weight_append. cbn [weight].
        change (w c + weight w s) with (0 + (w c + weight w s)).
        apply Radd; [exact Hw|]. apply Radd; [apply Rrefl|].
        apply (IH (String.length s)); [subst n; cbn; lia|reflexivity].
      * rewrite E. rewrite !weight_append.
        apply Radd; [exact Hw|].
        assert (String.length (String c s) = String.length (String a g ++ rest)) as L
          by now rewrite E.
        rewrite length_append in L. cbn in L.
        apply (IH (String.length rest)); [subst n; cbn; lia|reflexivity].
    + cbn [weight]. apply Radd; [apply Rrefl|].
      apply (IH (String.length s)); [subst n; cbn; lia|reflexivity].
Qed.

End Substitution.

Lemma match_comment_prefix s m rest :
  match_comment s = Some (m, rest) -> s = (group0 m ++ rest)%string.
Proof.
  unfold match_comment. intros E.
  destruct s as [|c s]; [discriminate|].
  destruct (Ascii.eqb_spec c "/") as [->|Hc];
    [|destruct c as [[] [] [] [] [] [] [] []]; try discriminate; congruence].
  destruct s as [|d s]; [discriminate|].
  destruct (Ascii.eqb_spec d "*") as [->|Hd];
    [|destruct d as [[] [] [] [] [] [] [] []]; try discriminate; congruence].
  destruct (find_close s) as [[m0 rest0]|] eqn:F; [|discriminate].
  inversion E; subst. cbn. do 2 f_equal. now apply find_close_append.
Qed.

Lemma match_id_prefix s g rest :
  match_id s = Some (g, rest) -> s = (g ++ rest)%string.
Proof.
  unfold match_id. intros E.
  destruct s as [|c s]; [discriminate|].
  destruct (Ascii.eqb_spec c "#") as [->|Hc];
    [|destruct c as [[] [] [] [] [] [] [] []]; try discriminate; congruence].
  destruct (span is_digit s) as [ds r] eqn:Sp.
  apply span_append in Sp. destruct ds; [discriminate|].
  inversion E; subst. reflexivity.
Qed.

Lemma match_string_prefix s g rest :
  match_string s = Some (g, rest) -> s = (g ++ rest)%string.
Proof.
  unfold match_string. intros E.
  destruct s as [|c s]; [discriminate|].
  destruct (Ascii.eqb_spec c "'") as [->|Hc];
    [|destruct c as [[] [] [] [] [] [] [] []]; try discriminate; congruence].
  destruct (span not_apostrophe s) as [body r] eqn:Sp.
  apply span_append in Sp. destruct r as [|d r]; [discriminate|].
  destruct (Ascii.eqb_spec d "'") as [->|Hd];
    [|destruct d as [[] [] [] [] [] [] [] []]; try discriminate; congruence].
  inversion E; subst. cbn. f_equal. now rewrite append_assoc.
Qed.

Lemma match_literal_or_blanks_prefix s m rest :
  match_literal_or_blanks s = Some (m, rest) -> s = (group0 m ++ rest)%string.
Proof.
  unfold match_literal_or_blanks. intros E.
  destruct (match_id s) as [[g r]|] eqn:Eid.
  { inversion E; subst. now apply match_id_prefix. }
  destruct (match_string s) as [[g r]|] eqn:Estr.
  { inversion E; subst. now apply match_string_prefix. }
  destruct (span is_blank s) as [w r] eqn:Sp. inversion E; subst.
  exact (span_append _ _ _ _ Sp).
Qed.

Lemma blank_text_weight s :
  String.length (blank_text s) = String.length s /\
  count_newlines (blank_text s) = count_newlines s.
Proof.
  unfold count_newlines. induction s as [|c s [IH1 IH2]]; [split; reflexivity|].
  cbn. rewrite IH1, IH2. split; [reflexivity|].
  unfold newline_weight. destruct (Ascii.eqb_spec c newline) as [->|]; reflexivity.
Qed.

Lemma blanks_have_no_newline w :
  all_chars is_blank w = true -> count_newlines w = 0.
Proof.
  unfold count_newlines. induction w as [|c w IH]; [reflexivity|].
  cbn. intros Hw. apply andb_true_iff in Hw as [Hc Hw]. rewrite (IH Hw).
  unfold newline_weight. destruct (Ascii.eqb_spec c newline) as [->|]; [discriminate|reflexivity].
Qed.


Lemma remove_comments_newlines s :
  count_newlines (remove_comments s) = count_newlines s.
Proof.
  unfold remove_comments, count_newlines.
  apply (re_sub_weight _ _ match_comment_prefix newline_weight eq); try lia.
  intros s0 m rest _. apply blank_text_weight.
Qed.



Lemma remove_blanks_newlines s :
  count_newlines (remove_blanks s) = count_newlines s.
Proof.
  unfold remove_blanks, count_newlines.
  apply (re_sub_weight _ _ match_literal_or_blanks_prefix newline_weight eq); try lia.
  intros s0 m rest. unfold match_literal_or_blanks. intros E.
  destruct (match_id s0) as [[g r]|]; [inversion E; subst; reflexivity|].
  destruct (match_string s0) as [[g r]|]; [inversion E; subst; reflexivity|].
  destruct (span is_blank s0) as [b r] eqn:Sp. inversion E; subst. cbn.
  symmetry. apply (blanks_have_no_newline b), (span_all _ _ _ _ Sp).
Qed.

Lemma remove_comments_comment body rest :
  contains "*/" body = false ->
  remove_comments ("/*" ++ body ++ "*/" ++ rest)
  = (blank_text ("/*" ++ body ++ "*/") ++ remove_comments rest)%string.
Proof.
  intros Hb. unfold remove_comments.
  change ("/*" ++ body ++ "*/" ++ rest)%string
    with (String "/" (String "*" (body ++ "*/" ++ rest))).
  rewrite (re_sub_step _ _ match_comment_prefix).
  unfold match_comment. rewrite (find_close_exact body rest Hb). reflexivity.
Qed.

Lemma remove_blanks_string body rest :
  all_chars not_apostrophe body = true ->
  remove_blanks ("'" ++ body ++ "'" ++ rest)
  = ("'" ++ body ++ "'" ++ remove_blanks rest)%string.
Proof.
  intros Hb. unfold remove_blanks.
  change ("'" ++ body ++ "'" ++ rest)%string with (String "'" (body ++ String "'" rest)).
  rewrite (re_sub_step _ _ match_literal_or_blanks_prefix).
  unfold match_literal_or_blanks. cbn [match_id match_string].
  rewrite (span_exact not_apostrophe body (String "'" rest) Hb) by reflexivity.
  cbn [group0 expand_group1 group1 append]. now rewrite append_assoc.
Qed.


Lemma blank_is_no_literal c s :
  is_blank c = true ->
  match_id (String c s) = None /\ match_string (String c s) = None.
Proof.
  intros Hc.
  destruct c as [[] [] [] [] [] [] [] []]; try discriminate; split; reflexivity.
Qed.

Lemma remove_blanks_span s :
  remove_blanks s = remove_blanks (snd (span is_blank s)).
Proof.
  destruct s as [|c s]; [reflexivity|].
  cbn [span]. destruct (is_blank c) eqn:Hc; [|reflexivity].
  destruct (span is_blank s) as [w r] eqn:Sp. cbn [snd].
  unfold remove_blanks at 1.
  rewrite (re_sub_step _ _ match_literal_or_blanks_prefix).
  unfold match_literal_or_blanks.
  destruct (blank_is_no_literal c s Hc) as [-> ->].
  cbn [span]. rewrite Hc, Sp. reflexivity.
Qed.


Lemma contains_tail sub c s : contains sub (String c s) = false -> contains sub s = false.
Proof.
  cbn [contains]. destruct (String.prefix sub (String c s)); [discriminate|auto].
Qed.

Lemma find_close_none s : contains "*/" s = false -> find_close s = None.
Proof.
  induction s as [|c s IH]; intros Hs; [reflexivity|].
  pose proof (contains_tail _ _ _ Hs) as Hs'. specialize (IH Hs').
  cbn [find_close]. rewrite IH.
  destruct (Ascii.eqb_spec c "*") as [->|Hc].
  - destruct s as [|d s]; [reflexivity|].
    destruct (Ascii.eqb_spec d "/") as [->|Hd].
    + cbn in Hs. destruct s; discriminate.
    + destruct d as [[] [] [] [] [] [] [] []]; try reflexivity; congruence.
  - destruct c as [[] [] [] [] [] [] [] []]; try reflexivity; congruence.
Qed.

Lemma match_comment_unclosed s : contains "*/" s = false -> match_comment s = None.
Proof.
  intros Hs. unfold match_comment.
  destruct s as [|c s]; [reflexivity|].
  destruct (Ascii.eqb_spec c "/") as [->|Hc].
  - destruct s as [|d s]; [reflexivity|].
    destruct (Ascii.eqb_spec d "*") as [->|Hd].
    + rewrite find_close_none; [reflexivity|].
      now apply contains_tail, contains_tail in Hs.
    + destruct d as [[] [] [] [] [] [] [] []]; try reflexivity; congruence.
  - destruct c as [[] [] [] [] [] [] [] []]; try reflexivity; congruence.
Qed.

Lemma match_comment_unopened s : contains "/*" s = false -> match_comment s = None.
Proof.
  intros Hs. unfold match_comment.
  destruct s as [|c s]; [reflexivity|].
  destruct (Ascii.eqb_spec c "/") as [->|Hc].
  - destruct s as [|d s]; [reflexivity|].
    destruct (Ascii.eqb_spec d "*") as [->|Hd].
    + cbn in Hs. destruct s; discriminate.
    + destruct d as [[] [] [] [] [] [] [] []]; try reflexivity; congruence.
  - destruct c as [[] [] [] [] [] [] [] []]; try reflexivity; congruence.
Qed.

Lemma re_sub_no_match match_at repl (P : string -> Prop) :
  (forall c s, P (String c s) -> P s) ->
  (forall s, P s -> match_at s = None) ->
  forall s, P s -> re_sub match_at repl s = s.
Proof.
  intros Htail Hnone s. unfold re_sub.
  generalize (String.length s) as fuel. induction s as [|c s IH]; intros fuel Hs.
  - destruct fuel; cbn; now rewrite (Hnone _ Hs).
  - destruct fuel as [|fuel]; [reflexivity|].
    cbn [re_sub_fuel]. rewrite (Hnone _ Hs). f_equal. apply IH. now apply (Htail c).
Qed.

Lemma remove_comments_unchanged s :
  contains "*/" s = false \/ contains "/*" s = false -> remove_comments s = s.
Proof.
  intros Hs. unfold remove_comments. destruct Hs as [Hs|Hs].
  - apply (re_sub_no_match _ _ (fun s => contains "*/" s = false)); auto.
    + intros c t. apply contains_tail.
    + apply match_comment_unclosed.
  - apply (re_sub_no_match _ _ (fun s => contains "/*" s = false)); auto.
    + intros c t. apply contains_tail.
    + apply match_comment_unopened.
Qed.

Lemma no_literal_mark_match c s :
  no_literal_mark c = true ->
  match_id (String c s) = None /\ match_string (String c s) = None.
Proof.
  intros Hc.
  destruct c as [[] [] [] [] [] [] [] []]; try discriminate; split; reflexivity.
Qed.














(* ================================================================== *)
(** * Literals: decoding and rendering *)
(* ================================================================== *)





Section LiteralFacts.

Context `{PyFloat}.







Lemma decode_binary radix hex :
  decode (p_binary radix hex) = Ok (BList (map (fun h => BStr (fst h)) hex)).
Proof.
  unfold decode.
  replace (transform (parameter_tree (p_binary radix hex)))
    with (Ok (VTree "binary" (map hex_token hex))).
  - cbn [rbind]. rewrite explode_object_items. f_equal.
    assert (Hall : forall refs,
               fst (explode_all (map hex_token hex) refs)
               = map (fun h => BStr (fst h)) hex).
    { induction hex as [|h hex IH]; intros refs; [reflexivity|].
      cbn [map explode_all]. rewrite (explode_object_items (hex_token h)).
      cbn [hex_token tok_value]. specialize (IH (refs ++ [fst h])).
      destruct (explode_all (map hex_token hex) (refs ++ [fst h])) as [bs r].
      cbn [fst] in *. now rewrite IH. }
    specialize (Hall []). destruct (explode_all (map hex_token hex) []) as [bs r].
    cbn [fst] in *. now rewrite Hall.
  - symmetry. apply transform_untyped. rewrite transform_tree, hex_tokens_unchanged.
    reflexivity.
Qed.


(** [render] is what a title shows of a parameter. *)
Lemma to_str_one_parameter b :
  to_str (BList [b]) = ("(" ++ render b ++ ")")%string.
Proof. reflexivity. Qed.


End LiteralFacts.



(* ================================================================== *)
(** * Diagnostics *)
(* ================================================================== *)

Lemma insert_sorted_perm x l : Permutation (insert_sorted x l) (x :: l).
Proof.
  induction l as [|y l IH]; cbn; [reflexivity|].
  destruct (String.leb x y); [reflexivity|].
  rewrite IH. apply perm_swap.
Qed.

Lemma sorted_perm l : Permutation (sorted l) l.
Proof.
  induction l as [|x l IH]; cbn; [reflexivity|].
  rewrite insert_sorted_perm. now constructor.
Qed.

Lemma insert_sorted_Sorted x l :
  Sorted (fun a b => String.leb a b = true) l ->
  Sorted (fun a b => String.leb a b = true) (insert_sorted x l).
Proof.
  induction 1 as [|y l Hl IH Hy]; cbn; [repeat constructor|].
  destruct (String.leb x y) eqn:E.
  - repeat constructor; assumption.
  - constructor; [exact IH|].
    assert (Hyx : String.leb y x = true).
    { destruct (String.leb_total x y) as [C|C]; [congruence|exact C]. }
    destruct l as [|z l]; cbn; [now constructor|].
    destruct (String.leb x z); constructor; [exact Hyx|].
    now inversion Hy.
Qed.

Lemma sorted_Sorted l : Sorted (fun a b => String.leb a b = true) (sorted l).
Proof.
  induction l as [|x l IH]; cbn; [constructor|now apply insert_sorted_Sorted].
Qed.

(** The record of an unexpected token: line and column as lark gives
    them, the kind of the token in lower case, its text, and the sorted
    names of [accepts] without those that hold [__ANON]. *)
Lemma unexpected_token_record filecontent line column tok accepts :
  (1 <= line <= Z.of_nat (List.length (split_lines filecontent)))%Z ->
  exists d,
    asdict (SyntaxError filecontent (UnexpectedToken line column tok accepts)) = Ok d /\
    e_type d = "unexpected_token" /\
    e_lineno d = line /\
    e_column d = Some column /\
    e_found_type d = Some (lower (tok_type tok)) /\
    e_found_value d = Some (tok_value tok) /\
    exists expected,
      e_expected d = Some expected /\
      Sorted (fun a b => String.leb a b = true) expected /\
      (forall x, In x expected <-> In x accepts /\ contains "__ANON" x = false).
Proof.
  intros Hline.
  destruct (py_index_in_range (split_lines filecontent) (line - 1)) as [ln Hln]; [lia|].
  unfold asdict, SyntaxError_asdict, SyntaxError_str, SyntaxError_asdict_without_message.
  rewrite Hln. cbn [rbind].
  eexists. split; [reflexivity|]. cbn.
  repeat (split; [reflexivity|]).
  eexists. split; [reflexivity|]. split; [apply sorted_Sorted|].
  intros x. split.
  - intros Hx. apply (Permutation_in _ (sorted_perm _)) in Hx.
    apply filter_In in Hx as [Hx Hc]. split; [exact Hx|now apply negb_true_iff].
  - intros [Hx Hc]. apply (Permutation_in _ (Permutation_sym (sorted_perm _))).
    apply filter_In. split; [exact Hx|now apply negb_true_iff].
Qed.

(** C7 (the code at the failing input): when lark stops on a character
    that no terminal matches, [parse] raises the Syntax Error and returns
    no model, but the record of this error cannot be built: [asdict],
    and the message with it, reads the token and the accepted set of the
    lark exception, which an [UnexpectedCharacters] does not have, and
    raises [AttributeError]. *)
Theorem unexpected_character_has_no_record `{LarkParser}
    filecontent with_progress line column char allowed :
  parser_parse (preprocess filecontent)
    = inr (UnexpectedCharacters line column char allowed) ->
  parse filecontent with_progress
    = Raise (SyntaxError filecontent (UnexpectedCharacters line column char allowed)) /\
  asdict (SyntaxError filecontent (UnexpectedCharacters line column char allowed))
    = Raise AttributeError /\
  SyntaxError_str filecontent (UnexpectedCharacters line column char allowed)
    = Raise AttributeError.
Proof.
  intros Hparse. unfold parse. fold (preprocess filecontent). rewrite Hparse.
  repeat split.
Qed.

Lemma unexpected_character_has_no_record_witness :
  @parse literal_float rejecting_parser unexpected_character_file false
    = Raise (SyntaxError unexpected_character_file unexpected_character) /\
  asdict (SyntaxError unexpected_character_file unexpected_character)
    = Raise AttributeError /\
  SyntaxError_str unexpected_character_file unexpected_character
    = Raise AttributeError.
Proof.
  apply (@unexpected_character_has_no_record literal_float rejecting_parser
           unexpected_character_file false 3%Z 12%Z "233"%char
           ["APOSTROPHE"; "CONTROL_DIRECTIVE"; "DIGIT"; "LOWER"; "REVERSE_SOLIDUS";
            "SPECIAL"; "UPPER"; "WS"; "__ANON_8"]).
  reflexivity.
Defined.

(* ================================================================== *)
(** * The graph builder *)
(* ================================================================== *)

Section GraphFacts.

Context `{TextWrap} `{SetOrder}.

Lemma set_iter_nil : set_iter [] = [].
Proof. apply Permutation_nil, Permutation_sym, set_iter_perm. Qed.

Lemma set_iter_singleton x : set_iter [x] = [x].
Proof. apply Permutation_length_1_inv, Permutation_sym, set_iter_perm. Qed.

Lemma dict_contains_false {V} (d : pydict V) k :
  dict_contains d k = false -> dict_get d k = None.
Proof. unfold dict_contains. now destruct (dict_get d k). Qed.

Lemma traverse_refs_done fuel visited st :
  traverse_refs fuel visited [] st = Some (Ok visited, st).
Proof. now destruct fuel. Qed.

(** C6: in rooted-reachability mode a root id without an entry in the
    index gives a graph of exactly one node, colored failure, without
    edges, and no exception is raised. *)
Theorem unknown_root_gives_one_failure_node data0 root fuel :
  dict_contains data0 root = false ->
  exists st,
    make_graph_entity (S fuel) root {| net := empty_network; data := data0 |}
      = Some (Ok tt, st) /\
    nodes (net st)
      = [ {| n_id := root; n_title := Some EmptyString;
             n_color := Some (ColStr FAILURE_NODE_COLOR) |} ] /\
    edges (net st) = [].
Proof.
  intros Hroot. pose proof (dict_contains_false _ _ Hroot) as Hget.
  unfold make_graph_entity. cbn [traverse_refs].
  rewrite set_iter_singleton. cbn [visit_entities visit_entity dict_contains dict_get].
  cbn [data]. rewrite Hroot.
  unfold add_node. cbn [net data]. unfold dd_getitem at 1. rewrite Hget.
  cbn [node_title]. unfold net_add_node, net_update_node. cbn.
  rewrite String.eqb_refl, traverse_refs_done. cbn. rewrite set_iter_nil. cbn.
  eexists. split; [reflexivity|]. split; reflexivity.
Qed.

End GraphFacts.

Lemma unknown_root_gives_one_failure_node_witness :
  exists st,
    @make_graph_entity no_wrap insertion_order 1 "#9"
      {| net := empty_network; data := index_of dangling_section |}
      = Some (Ok tt, st) /\
    nodes (net st)
      = [ {| n_id := "#9"; n_title := Some EmptyString;
             n_color := Some (ColStr FAILURE_NODE_COLOR) |} ] /\
    edges (net st) = [].
Proof.
  apply (@unknown_root_gives_one_failure_node no_wrap insertion_order
           (index_of dangling_section) "#9" 0).
  reflexivity.
Defined.

Section GraphSamples.

Context `{TextWrap} `{SetOrder}.

(** C5 (the code at the failing input): on the data section
    [#1=FOO(#2);] the complete-graph mode adds the node [#2] colored
    failure and the edge from [#1] to [#2], and then raises
    [RuntimeError]: coloring [#2], [add_node] reads [data["#2"]], the
    index inserts the missing key, and the loop [for node in data] finds
    the dictionary changed in size.  No graph is returned. *)
Theorem dangling_reference_raises_in_complete_mode :
  let m := {| DATA_TAG := index_of dangling_section |} in
  exists st,
    make_graph_complete {| net := empty_network; data := DATA_TAG m |}
      = (Raise RuntimeError, st) /\
    map (fun g => (n_id g, n_color g)) (nodes (net st))
      = [("#1", Some (ColStr ENTRY_NODE_COLOR)); ("#2", Some (ColStr FAILURE_NODE_COLOR))] /\
    edges (net st) = [("#1", "#2")] /\
    data st = DATA_TAG m ++ [("#2", [])] /\
    make_graph 0 m EmptyString = Some (Raise RuntimeError, {| DATA_TAG := data st |}).
Proof.
  eexists. split; [vm_compute; reflexivity|].
  repeat split.
Qed.

(** C3 (the code at the failing input): building the graph rooted at
    [#1] for the data section [#1=FOO(#2);] changes the model, which
    gains the key [#2]; building the same graph again from the model
    colors the node [#2] differently (no color instead of failure). *)
Theorem rooted_graph_changes_the_model :
  let m := {| DATA_TAG := index_of dangling_section |} in
  exists net1 m1 net2 m2,
    make_graph 3 m "#1" = Some (Ok net1, m1) /\
    DATA_TAG m1 = DATA_TAG m ++ [("#2", [])] /\
    m1 <> m /\
    make_graph 3 m1 "#1" = Some (Ok net2, m2) /\
    map (fun g => (n_id g, n_color g)) (nodes net1)
      = [("#1", Some (ColStr ENTRY_NODE_COLOR)); ("#2", Some (ColStr FAILURE_NODE_COLOR))] /\
    map (fun g => (n_id g, n_color g)) (nodes net2)
      = [("#1", Some (ColStr ENTRY_NODE_COLOR)); ("#2", None)] /\
    net1 <> net2.
Proof.
  cbv zeta.
  assert (E1 : exists net1,
    make_graph 3 {| DATA_TAG := index_of dangling_section |} "#1"
      = Some (Ok net1, {| DATA_TAG := index_of dangling_section ++ [("#2", [])] |}) /\
    map (fun g => (n_id g, n_color g)) (nodes net1)
      = [("#1", Some (ColStr ENTRY_NODE_COLOR)); ("#2", Some (ColStr FAILURE_NODE_COLOR))]).
  { set (d := index_of dangling_section). vm_compute in d. subst d.
    unfold make_graph, make_graph_entity.
    repeat (cbn; rewrite ?set_iter_singleton, ?set_iter_nil).
    eexists. split; reflexivity. }
  assert (E2 : exists net2 m2,
    make_graph 3 {| DATA_TAG := index_of dangling_section ++ [("#2", [])] |} "#1"
      = Some (Ok net2, m2) /\
    map (fun g => (n_id g, n_color g)) (nodes net2)
      = [("#1", Some (ColStr ENTRY_NODE_COLOR)); ("#2", None)]).
  { set (d := index_of dangling_section). vm_compute in d. subst d.
    unfold make_graph, make_graph_entity.
    repeat (cbn; rewrite ?set_iter_singleton, ?set_iter_nil).
    eexists. eexists. split; reflexivity. }
  destruct E1 as (net1 & E1 & C1). destruct E2 as (net2 & m2 & E2 & C2).
  exists net1, {| DATA_TAG := index_of dangling_section ++ [("#2", [])] |}, net2, m2.
  split; [exact E1|]. split; [reflexivity|]. split; [discriminate|].
  split; [exact E2|]. split; [exact C1|]. split; [exact C2|].
  intros ->. rewrite C1 in C2. discriminate C2.
Qed.

End GraphSamples.

Section EntryNode.

Context `{TextWrap} `{SetOrder}.

Lemma simple_entity_keeps_color body color :
  simple_body body = true ->
  color_len color <> 0 ->
  exists name, simple_entity body color = Ok (name, color).
Proof.
  intros Hb Hc. destruct body as [s|[|[kw|items] rest]]; try discriminate.
  unfold simple_entity. cbn [body_len body_index nth_error].
  destruct (Nat.ltb_spec 1 (List.length (BStr kw :: rest))) as [Hl|Hl].
  - destruct rest as [|b1 rest]; [cbn in Hl; lia|]. cbn [nth_error rbind].
    destruct (Nat.eqb_spec (color_len color) 0) as [E|_]; [contradiction|]. eauto.
  - cbn [rbind].
    destruct (Nat.eqb_spec (color_len color) 0) as [E|_]; [contradiction|]. eauto.
Qed.

Lemma complex_entity_keeps_color members title color :
  forallb simple_body members = true ->
  color_len color <> 0 ->
  exists title', complex_entity members title color = Ok (title', color).
Proof.
  revert title. induction members as [|x members IH]; intros title Hm Hc.
  - cbn. eauto.
  - cbn in Hm. apply andb_true_iff in Hm as [Hx Hm].
    destruct (simple_entity_keeps_color x color Hx Hc) as [name Hn].
    cbn [complex_entity]. rewrite Hn. cbn [rbind]. now apply IH.
Qed.

Lemma node_title_keeps_color objects title color :
  forallb (fun o => record_body (BODY_TAG o)) objects = true ->
  color_len color <> 0 ->
  exists title', node_title objects title color = Ok (title', color).
Proof.
  revert title. induction objects as [|o objects IH]; intros title Ho Hc.
  - cbn. eauto.
  - cbn in Ho. apply andb_true_iff in Ho as [Hb Ho].
    cbn [node_title].
    destruct (BODY_TAG o) as [s|[|[kw|members] rest]] eqn:Eb; try discriminate.
    + cbn [body_index nth_error rbind].
      destruct (simple_entity_keeps_color (BList (BStr kw :: rest)) color eq_refl Hc)
        as [name ->].
      cbn [rbind]. now apply IH.
    + cbn [body_index nth_error rbind]. cbn in Hb.
      destruct (complex_entity_keeps_color members title color Hb Hc) as [t ->].
      cbn [rbind]. now apply IH.
Qed.

Lemma has_node_first first n :
  first_is_entry first n -> has_node n first = true.
Proof.
  intros (g & others & Hn & Hid & _). unfold has_node. rewrite Hn. cbn.
  now rewrite Hid, String.eqb_refl.
Qed.

Lemma net_add_node_first first n k :
  first_is_entry first n -> first_is_entry first (net_add_node n k).
Proof.
  intros (g & others & Hn & Hid & Hc). unfold net_add_node.
  destruct (has_node n k); [now exists g, others|].
  cbn. rewrite Hn. now exists g, (others ++ [{| n_id := k; n_title := None; n_color := None |}]).
Qed.

Lemma net_update_node_first first n k title color :
  k <> first ->
  first_is_entry first n -> first_is_entry first (net_update_node n k title color).
Proof.
  intros Hk (g & others & Hn & Hid & Hc). unfold net_update_node. cbn. rewrite Hn.
  cbn [map]. destruct (String.eqb_spec (n_id g) k) as [E|_]; [congruence|].
  eexists. eexists. split; [reflexivity|]. split; assumption.
Qed.

Lemma dd_getitem_contains {V} (default : V) (d : pydict V) k first :
  dict_contains d first = true ->
  dict_contains (snd (dd_getitem default d k)) first = true.
Proof.
  unfold dd_getitem, dict_contains. destruct (dict_get d k); [trivial|].
  cbn [snd]. rewrite dict_get_app. now destruct (dict_get d first).
Qed.

Lemma add_node_entry_kept first k force_color st :
  k <> first ->
  entry_kept first st -> entry_kept first (snd (add_node k force_color st)).
Proof.
  intros Hk [Hn Hd]. unfold add_node.
  pose proof (dd_getitem_contains [] (data st) k first Hd) as Hd'.
  destruct (dd_getitem [] (data st) k) as [objects data1]. cbn [snd] in Hd'.
  destruct (node_title objects _ _) as [[title color]|e]; cbn [snd]; split; cbn [net data];
    try exact Hd'.
  - apply net_update_node_first; [exact Hk|]. now apply net_add_node_first.
  - now apply net_add_node_first.
Qed.

Lemma add_edge_entry_kept first a b st :
  entry_kept first st -> entry_kept first (snd (add_edge a b st)).
Proof.
  intros [Hn Hd]. unfold add_edge, net_add_edge.
  destruct (negb (has_node (net st) a)); [now split|].
  destruct (negb (has_node (net st) b)); [now split|].
  split; [|exact Hd]. destruct Hn as (g & others & Hn & Hg). now exists g, others.
Qed.

Lemma for_each_invariant {A} (I : gstate -> Prop) (l : list A) (body : A -> M unit) :
  (forall x st, In x l -> I st -> I (snd (body x st))) ->
  forall st, I st -> I (snd (for_each l body st)).
Proof.
  induction l as [|x l IH]; intros Hbody st Hst; [exact Hst|].
  cbn [for_each].
  pose proof (Hbody x st (or_introl eq_refl) Hst) as Hx.
  destruct (body x st) as [[u|e] st']; cbn [snd] in *; [|exact Hx].
  apply IH; [|exact Hx]. intros y st0 Hy. apply Hbody. now right.
Qed.

Lemma for_dict_keys_invariant (I : gstate -> Prop) size keys (body : string -> M unit) :
  (forall k st, In k keys -> I st -> I (snd (body k st))) ->
  forall st, I st -> I (snd (for_dict_keys size keys body st)).
Proof.
  induction keys as [|k keys IH]; intros Hbody st Hst; cbn [for_dict_keys].
  - destruct (negb _); exact Hst.
  - destruct (negb _); [exact Hst|].
    pose proof (Hbody k st (or_introl eq_refl) Hst) as Hk.
    destruct (body k st) as [[u|e] st']; cbn [snd] in *; [|exact Hk].
    apply IH; [|exact Hk]. intros y st0 Hy. apply Hbody. now right.
Qed.

(** C10: in complete-graph mode the first node ever inserted is colored
    entry, whatever its leading keyword, an entry of the type-to-color
    table included: the color entry is given before the table is looked
    at, and the lookup is skipped for a color already given.  The first
    node keeps this color to the end of the build, whether the build
    returns or raises. *)
Theorem first_node_is_colored_entry first objects rest :
  NoDup (first :: dict_keys rest) ->
  forallb (fun o => record_body (BODY_TAG o)) objects = true ->
  first_is_entry first
    (net (snd (make_graph_complete
                 {| net := empty_network; data := (first, objects) :: rest |}))).
Proof.
  intros Hnd Hobjects.
  inversion Hnd as [|? ? Hfirst Hrest]; subst.
  assert (Hloop1 :
    entry_kept first
      (snd (for_dict (fun node => add_node node EmptyString)
              {| net := empty_network; data := (first, objects) :: rest |}))).
  { unfold for_dict. cbn [data dict_keys map fst for_dict_keys].
    rewrite Nat.eqb_refl. cbn [negb].
    destruct (node_title_keeps_color objects EmptyString (ColStr ENTRY_NODE_COLOR)
                Hobjects) as [title Ht]; [discriminate|].
    unfold add_node at 1. cbn [net data num_nodes empty_network nodes List.length].
    unfold dd_getitem. cbn [dict_get]. rewrite String.eqb_refl.
    cbn [String.length Nat.ltb Nat.leb Nat.eqb]. rewrite Ht.
    apply for_dict_keys_invariant.
    - intros k st Hk. apply add_node_entry_kept. intros ->. contradiction.
    - split; cbn [net data].
      + unfold net_update_node, net_add_node. cbn. rewrite String.eqb_refl.
        eexists. eexists. split; [reflexivity|]. split; reflexivity.
      + unfold dict_contains. cbn. now rewrite String.eqb_refl. }
  unfold make_graph_complete.
  destruct (for_dict _ {| net := empty_network; data := (first, objects) :: rest |})
    as [[u|e] st1];
    cbn [snd] in *; [|apply Hloop1].
  apply (for_dict_keys_invariant (entry_kept first)); [|exact Hloop1].
  intros node st _ Hst.
  pose proof (dd_getitem_contains [] (data st) node first (proj2 Hst)) as Hd.
  destruct (dd_getitem [] (data st) node) as [objs data1]. cbn [snd] in Hd.
  apply for_each_invariant; [|split; [apply Hst|exact Hd]].
  intros obj st2 _ Hst2. apply for_each_invariant; [|exact Hst2].
  intros ref st3 _ Hst3.
  destruct (dict_contains (data st3) ref) eqn:Href; cbn [negb].
  - now apply add_edge_entry_kept.
  - assert (Hne : ref <> first).
    { intros ->. destruct Hst3 as [_ Hc]. congruence. }
    pose proof (add_node_entry_kept first ref FAILURE_NODE_COLOR st3 Hne Hst3) as Ha.
    destruct (add_node ref FAILURE_NODE_COLOR st3) as [[u'|e] st4]; cbn [snd] in *.
    + now apply add_edge_entry_kept.
    + exact Ha.
Qed.

End EntryNode.

Lemma first_node_is_colored_entry_witness :
  first_is_entry "#1"
    (net (snd (@make_graph_complete no_wrap
                 {| net := empty_network;
                    data := [("#1", [{| BODY_TAG := BList [BStr "CARTESIAN_POINT";
                                                         BList [BStr "0.0"; BStr "1.0"]];
                                        REFS_TAG := [];
                                        LINES_TAG := (1%Z, 1%Z) |}])] |}))).
Proof.
  apply (@first_node_is_colored_entry no_wrap "#1"
           [{| BODY_TAG := BList [BStr "CARTESIAN_POINT"; BList [BStr "0.0"; BStr "1.0"]];
               REFS_TAG := [];
               LINES_TAG := (1%Z, 1%Z) |}] []).
  - repeat constructor. intros [].
  - reflexivity.
Defined.

Section Traversal.

Context `{TextWrap} `{SetOrder}.

Lemma dict_contains_keys {V} (d : pydict V) k :
  dict_contains d k = true <-> In k (dict_keys d).
Proof.
  unfold dict_contains, dict_keys. induction d as [|[k' v] d IH]; cbn.
  - split; [discriminate|intros []].
  - destruct (String.eqb_spec k k') as [->|Hk].
    + split; [now left|reflexivity].
    + rewrite IH. split; [now right|]. intros [E|Hin]; [congruence|exact Hin].
Qed.

Lemma dict_keys_set {V} (d : pydict V) k v :
  In k (dict_keys d) -> dict_keys (dict_set d k v) = dict_keys d.
Proof.
  unfold dict_keys. induction d as [|[k' v'] d IH]; cbn; [intros []|].
  destruct (String.eqb_spec k k') as [->|Hk]; [reflexivity|].
  intros [E|Hin]; [congruence|]. cbn. now rewrite IH.
Qed.

Lemma dict_keys_getitem {V} (default : V) (d : pydict V) k :
  dict_keys (snd (dd_getitem default d k)) =
  if dict_contains d k then dict_keys d else dict_keys d ++ [k].
Proof.
  unfold dd_getitem, dict_contains. destruct (dict_get d k); [reflexivity|].
  cbn [snd]. unfold dict_keys. now rewrite map_app.
Qed.

Lemma nodes_add_keys visited k ref :
  In k (dict_keys visited) -> dict_keys (nodes_add visited k ref) = dict_keys visited.
Proof.
  intros Hk. unfold nodes_add.
  pose proof (dict_keys_getitem (V:=pyset) [] visited k) as Hg.
  rewrite (proj2 (dict_contains_keys (V:=pyset) visited k) Hk) in Hg.
  unfold pyset in *.
  destruct (dd_getitem [] visited k) as [s visited1]. cbn [snd] in Hg.
  rewrite dict_keys_set; rewrite Hg; trivial.
Qed.

Lemma set_add_incl s x universe :
  incl s universe -> In x universe -> incl (set_add s x) universe.
Proof.
  intros Hs Hx. unfold set_add. destruct (existsb _ s); [exact Hs|].
  apply incl_app; [exact Hs|]. intros y [<-|[]]. exact Hx.
Qed.

Lemma refs_of_data_getitem d k :
  refs_of_data (snd (dd_getitem [] d k)) = refs_of_data d.
Proof.
  unfold dd_getitem. destruct (dict_get d k); [reflexivity|].
  cbn [snd]. unfold refs_of_data. rewrite flat_map_app. cbn. now rewrite app_nil_r.
Qed.

Lemma refs_of_data_get d k objects :
  dict_get d k = Some objects -> incl (flat_map REFS_TAG objects) (refs_of_data d).
Proof.
  induction d as [|[k' v] d IH]; cbn; [discriminate|].
  destruct (String.eqb k k').
  - intros [= ->]. apply incl_appl, incl_refl.
  - intros Hd. apply incl_appr. now apply IH.
Qed.

Lemma add_node_refs k force_color st :
  refs_of_data (data (snd (add_node k force_color st))) = refs_of_data (data st).
Proof.
  unfold add_node. pose proof (refs_of_data_getitem (data st) k) as Hr.
  destruct (dd_getitem [] (data st) k) as [objects data1]. cbn [snd] in Hr.
  now destruct (node_title objects _ _) as [[title color]|e].
Qed.

Lemma collect_refs_keeps curr objects (visited : pydict pyset) (waiting : pyset) universe :
  In curr (dict_keys visited) ->
  incl waiting universe ->
  incl (flat_map REFS_TAG objects) universe ->
  dict_keys (fst (collect_refs curr objects visited waiting)) = dict_keys visited /\
  incl (snd (collect_refs curr objects visited waiting)) universe.
Proof.
  unfold collect_refs. revert visited waiting.
  induction objects as [|o objects IH]; intros visited waiting Hc Hw Hr; cbn [fold_left].
  - now split.
  - cbn [flat_map] in Hr.
    assert (Hinner : forall refs (visited : pydict pyset) (waiting : pyset),
      In curr (dict_keys visited) -> incl waiting universe -> incl refs universe ->
      dict_keys (fst (fold_left
        (fun acc ref => (nodes_add (fst acc) curr ref, set_add (snd acc) ref))
        refs (visited, waiting))) = dict_keys visited /\
      incl (snd (fold_left
        (fun acc ref => (nodes_add (fst acc) curr ref, set_add (snd acc) ref))
        refs (visited, waiting))) universe).
    { clear. induction refs as [|r refs IHr]; intros visited waiting Hc Hw Hr; cbn [fold_left].
      - now split.
      - cbn [fst snd].
        destruct (IHr (nodes_add visited curr r) (set_add waiting r)) as [K W].
        + now rewrite nodes_add_keys.
        + apply set_add_incl; [exact Hw|]. apply Hr. now left.
        + intros x Hx. apply Hr. now right.
        + split; [|exact W].
          transitivity (dict_keys (nodes_add visited curr r));
            [exact K|now apply nodes_add_keys]. }
    destruct (Hinner (REFS_TAG o) visited waiting Hc Hw) as [K W].
    { intros x Hx. apply Hr, in_or_app. now left. }
    destruct (fold_left _ (REFS_TAG o) (visited, waiting)) as [visited1 waiting1].
    cbn [fst snd] in K, W.
    destruct (IH visited1 waiting1) as [K' W'].
    + now rewrite K.
    + exact W.
    + intros x Hx. apply Hr, in_or_app. now right.
    + split; [|exact W'].
      transitivity (dict_keys visited1); [exact K'|exact K].
Qed.

(** An id that was visited already is not expanded again. *)
Lemma visited_is_not_expanded curr visited waiting st :
  dict_contains visited curr = true ->
  visit_entity curr visited waiting st = (Ok (visited, waiting), st).
Proof. intros Hc. unfold visit_entity. now rewrite Hc. Qed.

Lemma visit_entity_ok universe curr visited waiting st visited' waiting' st' :
  In curr universe ->
  traversal_ok universe visited waiting st ->
  visit_entity curr visited waiting st = (Ok (visited', waiting'), st') ->
  traversal_ok universe visited' waiting' st' /\
  List.length (dict_keys visited) <= List.length (dict_keys visited') /\
  (waiting' = waiting \/
   List.length (dict_keys visited) < List.length (dict_keys visited')).
Proof.
  intros Hcurr (Hnd & Hv & Hw & Hr). unfold visit_entity, traversal_ok, pyset in *.
  destruct (dict_contains visited curr) eqn:Hc.
  { intros [= <- <- <-]. repeat split; auto. }
  set (visited1 := snd (dd_getitem [] visited curr)).
  assert (Hk : dict_keys visited1 = dict_keys visited ++ [curr]).
  { subst visited1. unfold pyset in *.
    rewrite (dict_keys_getitem (V:=list string) [] visited curr). now rewrite Hc. }
  assert (Hnotin : ~ In curr (dict_keys visited)).
  { intros Hin. apply dict_contains_keys in Hin. congruence. }
  assert (Hnd1 : NoDup (dict_keys visited1)).
  { rewrite Hk. apply NoDup_app; [exact Hnd|repeat constructor; intros []|].
    intros x Hx [<-|[]]. contradiction. }
  assert (Hv1 : incl (dict_keys visited1) universe).
  { rewrite Hk. apply incl_app; [exact Hv|]. intros x [<-|[]]. exact Hcurr. }
  assert (Hlen : List.length (dict_keys visited1) = S (List.length (dict_keys visited))).
  { rewrite Hk, length_app. cbn. lia. }
  assert (Hin1 : In curr (dict_keys visited1)).
  { rewrite Hk. apply in_or_app. right. now left. }
  destruct (dict_contains (data st) curr) eqn:Hd.
  - pose proof (add_node_refs curr EmptyString st) as Hrefs.
    destruct (add_node curr EmptyString st) as [[u|e] st1]; [|discriminate].
    cbn [snd] in Hrefs.
    pose proof (refs_of_data_getitem (data st1) curr) as Hrefs1.
    destruct (dd_getitem [] (data st1) curr) as [objects data1] eqn:Hget.
    cbn [snd] in Hrefs1.
    assert (Hobjects : incl (flat_map REFS_TAG objects) universe).
    { unfold dd_getitem in Hget. destruct (dict_get (data st1) curr) as [v|] eqn:Hg.
      - injection Hget as <- <-. intros x Hx. apply Hr. rewrite <- Hrefs.
        now apply (refs_of_data_get _ _ _ Hg).
      - injection Hget as <- <-. intros x []. }
    destruct (collect_refs_keeps curr objects visited1 waiting universe Hin1 Hw Hobjects)
      as [K W].
    destruct (collect_refs curr objects visited1 waiting) as [visited2 waiting2].
    cbn [fst snd] in K, W.
    assert (Hlen2 : List.length (dict_keys visited2) = S (List.length (dict_keys visited)))
      by (rewrite K; exact Hlen).
    intros [= <- <- <-]. unfold pyset in *.
    split; [|split; [lia|right; lia]].
    repeat split; cbn [data]; try rewrite K; auto.
    rewrite Hrefs1, Hrefs. exact Hr.
  - pose proof (add_node_refs curr FAILURE_NODE_COLOR st) as Hrefs.
    destruct (add_node curr FAILURE_NODE_COLOR st) as [[u|e] st1]; [|discriminate].
    cbn [snd] in Hrefs.
    intros [= <- <- <-].
    split; [|split; [lia|right; lia]].
    repeat split; auto. now rewrite Hrefs.
Qed.

Lemma visit_entities_ok universe entities :
  forall visited waiting st visited' waiting' st',
    incl entities universe ->
    traversal_ok universe visited waiting st ->
    visit_entities entities visited waiting st = (Ok (visited', waiting'), st') ->
    traversal_ok universe visited' waiting' st' /\
    List.length (dict_keys visited) <= List.length (dict_keys visited') /\
    (waiting' = waiting \/
     List.length (dict_keys visited) < List.length (dict_keys visited')).
Proof.
  induction entities as [|curr entities IH];
    intros visited waiting st visited' waiting' st' He Hok.
  - intros [= <- <- <-]. repeat split; auto; apply Hok.
  - cbn [visit_entities].
    destruct (visit_entity curr visited waiting st) as [[[visited1 waiting1]|e] st1] eqn:Hv;
      [|discriminate].
    intros Hrest.
    destruct (visit_entity_ok universe _ _ _ _ _ _ _ (He curr (or_introl eq_refl)) Hok Hv)
      as (Hok1 & Hle1 & Hgrow1).
    destruct (IH _ _ _ _ _ _ (fun x Hx => He x (or_intror Hx)) Hok1 Hrest)
      as (Hok2 & Hle2 & Hgrow2).
    split; [exact Hok2|]. split; [lia|].
    destruct Hgrow1 as [->|Hlt]; [|right; lia].
    destruct Hgrow2 as [->|Hlt]; [now left|right; lia].
Qed.

Lemma traverse_refs_terminates universe fuel :
  forall visited waiting st,
    traversal_ok universe visited waiting st ->
    List.length universe - List.length (dict_keys visited) < fuel ->
    exists r st', traverse_refs fuel visited waiting st = Some (r, st').
Proof.
  induction fuel as [|fuel IH]; intros visited waiting st Hok Hfuel; [lia|].
  destruct waiting as [|w waiting]; [cbn; eauto|].
  cbn [traverse_refs].
  destruct (visit_entities (set_iter (w :: waiting)) visited [] st)
    as [[[visited' waiting']|e] st'] eqn:Hv; [|eauto].
  destruct Hok as (Hnd & Hvis & Hw & Hr).
  destruct (visit_entities_ok universe _ _ _ _ _ _ _
              (fun x Hx => Hw x (Permutation_in x (set_iter_perm _) Hx))
              (conj Hnd (conj Hvis (conj (fun x (Hx : In x []) => match Hx with end) Hr)))
              Hv) as (Hok' & Hle & Hgrow).
  destruct Hgrow as [->|Hlt]; [rewrite traverse_refs_done; eauto|].
  apply IH; [exact Hok'|].
  destruct Hok' as (Hnd' & Hvis' & _).
  pose proof (NoDup_incl_length Hnd' Hvis'). lia.
Qed.

End Traversal.

Section TraversalTheorem.

Context `{TextWrap} `{SetOrder}.

(** C4: for every model the rooted-reachability traversal terminates,
    cyclic reference relation or not: with as many turns of the loop as
    the index has references, plus two, the build returns (a graph or an
    exception), because an id that was visited is not expanded again.
    For the data section where [#1] references [#2] and [#2] references
    [#1], the graph rooted at [#1] has exactly the two nodes [#1] and
    [#2]. *)
Theorem rooted_traversal_terminates :
  (forall data0 net0 root fuel,
     traversal_bound data0 <= fuel ->
     exists r st,
       make_graph_entity fuel root {| net := net0; data := data0 |} = Some (r, st)) /\
  (forall curr visited waiting st,
     dict_contains visited curr = true ->
     visit_entity curr visited waiting st = (Ok (visited, waiting), st)) /\
  (exists st,
     make_graph_entity (traversal_bound (index_of cyclic_section)) "#1"
       {| net := empty_network; data := index_of cyclic_section |} = Some (Ok tt, st) /\
     map n_id (nodes (net st)) = ["#1"; "#2"] /\
     List.length (nodes (net st)) = 2 /\
     edges (net st) = [("#1", "#2"); ("#2", "#1")]).
Proof.
  split; [|split].
  - intros data0 net0 root fuel Hfuel. unfold make_graph_entity.
    destruct (traverse_refs_terminates (root :: refs_of_data data0) fuel
                [] [root] {| net := net0; data := data0 |}) as (r & st & ->).
    + repeat split.
      * constructor.
      * intros x [].
      * intros x [<-|[]]. now left.
      * cbn [data]. apply incl_tl, incl_refl.
    + unfold traversal_bound in Hfuel. cbn. lia.
    + destruct r as [visited|e]; eauto.
      destruct (for_each visited _ st) as [r' st']. eauto.
  - exact visited_is_not_expanded.
  - set (d := index_of cyclic_section). vm_compute in d. subst d.
    unfold make_graph_entity, traversal_bound.
    repeat (cbn; rewrite ?set_iter_singleton, ?set_iter_nil).
    eexists. split; [reflexivity|]. repeat split.
Qed.

End TraversalTheorem.

Lemma rooted_traversal_terminates_witness :
  (exists r st,
     @make_graph_entity no_wrap insertion_order 4 "#1"
       {| net := empty_network; data := index_of cyclic_section |} = Some (r, st)) /\
  @visit_entity no_wrap "#1" [("#1", ["#2"])] ["#2"]
    {| net := empty_network; data := index_of cyclic_section |}
  = (Ok ([("#1", ["#2"])], ["#2"]),
     {| net := empty_network; data := index_of cyclic_section |}).
Proof.
  destruct (@rooted_traversal_terminates no_wrap insertion_order) as (Hterm & Hvisited & _).
  split.
  - apply (Hterm (index_of cyclic_section) empty_network "#1" 4). vm_compute. lia.
  - apply (Hvisited "#1" [("#1", ["#2"])] ["#2"]). reflexivity.
Defined.

(* ================================================================== *)
(** * The complete graph of an index without dangling references *)
(* ================================================================== *)

Section CompleteGraph.

Context `{TextWrap} `{SetOrder}.

Lemma simple_entity_returns body color :
  simple_body body = true ->
  exists name color', simple_entity body color = Ok (name, color').
Proof.
  intros Hb. destruct body as [s|[|[kw|items] rest]]; try discriminate.
  unfold simple_entity. cbn [body_len body_index nth_error].
  destruct (Nat.ltb_spec 1 (List.length (BStr kw :: rest))) as [Hl|Hl].
  - destruct rest as [|b1 rest]; [cbn in Hl; lia|]. cbn [nth_error rbind]. eauto.
  - cbn [rbind]. eauto.
Qed.

Lemma complex_entity_returns members title color :
  forallb simple_body members = true ->
  exists title' color', complex_entity members title color = Ok (title', color').
Proof.
  revert title color. induction members as [|x members IH]; intros title color Hm.
  - cbn. eauto.
  - cbn in Hm. apply andb_true_iff in Hm as [Hx Hm].
    destruct (simple_entity_returns x color Hx) as (name & color' & Hn).
    cbn [complex_entity]. rewrite Hn. cbn [rbind]. now apply IH.
Qed.

Lemma node_title_returns objects title color :
  forallb (fun o => record_body (BODY_TAG o)) objects = true ->
  exists title' color', node_title objects title color = Ok (title', color').
Proof.
  revert title color. induction objects as [|o objects IH]; intros title color Ho.
  - cbn. eauto.
  - cbn in Ho. apply andb_true_iff in Ho as [Hb Ho].
    cbn [node_title].
    destruct (BODY_TAG o) as [s|[|[kw|members] rest]] eqn:Eb; try discriminate.
    + cbn [body_index nth_error rbind].
      destruct (simple_entity_returns (BList (BStr kw :: rest)) color eq_refl)
        as (name & color' & ->).
      cbn [rbind]. now apply IH.
    + cbn [body_index nth_error rbind]. cbn in Hb.
      destruct (complex_entity_returns members title color Hb) as (t & color' & ->).
      cbn [rbind]. now apply IH.
Qed.

Lemma dict_get_In {V} (d : pydict V) k v : dict_get d k = Some v -> In (k, v) d.
Proof.
  induction d as [|[k' v'] d IH]; cbn; [discriminate|].
  destruct (String.eqb_spec k k') as [->|_]; [intros [= ->]; now left|].
  intros Hd. right. now apply IH.
Qed.

Lemma has_node_ids n k : has_node n k = true <-> In k (map n_id (nodes n)).
Proof.
  unfold has_node. rewrite existsb_exists. split.
  - intros (g & Hg & E). apply String.eqb_eq in E. subst k. now apply in_map.
  - intros Hin. apply in_map_iff in Hin as (g & <- & Hg).
    exists g. split; [exact Hg|apply String.eqb_refl].
Qed.

Lemma net_update_node_ids n k title color :
  map n_id (nodes (net_update_node n k title color)) = map n_id (nodes n).
Proof.
  unfold net_update_node. cbn [nodes]. rewrite map_map. apply map_ext.
  intros g. now destruct (n_id g =? k).
Qed.

(** [add_node] on an id of the index whose bodies are records: the
    index is left as it is, the id is a node afterwards. *)
Lemma add_node_indexed k force_color st objects :
  dict_get (data st) k = Some objects ->
  forallb (fun o => record_body (BODY_TAG o)) objects = true ->
  exists st',
    add_node k force_color st = (Ok tt, st') /\
    data st' = data st /\
    edges (net st') = edges (net st) /\
    map n_id (nodes (net st'))
    = if has_node (net st) k then map n_id (nodes (net st))
      else map n_id (nodes (net st)) ++ [k].
Proof.
  intros Hget Hobjects. unfold add_node, dd_getitem. rewrite Hget.
  destruct (node_title_returns objects EmptyString
              (ColStr (if (0 <? String.length force_color)%nat then force_color
                       else if (num_nodes (net st) =? 0)%nat then ENTRY_NODE_COLOR
                            else EmptyString)) Hobjects) as (title & color & ->).
  eexists. split; [reflexivity|]. cbn [data net]. split; [reflexivity|].
  split.
  - unfold net_update_node, net_add_node. cbn [edges]. now destruct (has_node (net st) k).
  - rewrite net_update_node_ids. unfold net_add_node.
    destruct (has_node (net st) k); [reflexivity|].
    cbn [nodes]. now rewrite map_app.
Qed.

Lemma first_loop_indexed d size keys st :
  records_only d ->
  data st = d ->
  List.length d = size ->
  incl keys (dict_keys d) ->
  NoDup keys ->
  (forall k, In k keys -> has_node (net st) k = false) ->
  exists st',
    for_dict_keys size keys (fun node => add_node node EmptyString) st = (Ok tt, st') /\
    data st' = d /\
    edges (net st') = edges (net st) /\
    map n_id (nodes (net st')) = map n_id (nodes (net st)) ++ keys.
Proof.
  intros Hrec. revert st. induction keys as [|k keys IH]; intros st Hd Hsize Hincl Hnd Hfresh.
  - cbn [for_dict_keys]. rewrite Hd, Hsize, Nat.eqb_refl. cbn [negb].
    exists st. now rewrite app_nil_r.
  - cbn [for_dict_keys]. rewrite Hd, Hsize, Nat.eqb_refl. cbn [negb].
    assert (Hk : In k (dict_keys d)) by (apply Hincl; now left).
    apply dict_contains_keys in Hk. unfold dict_contains in Hk.
    destruct (dict_get d k) as [objects|] eqn:Hget; [|discriminate].
    rewrite <- Hd in Hget.
    destruct (add_node_indexed k EmptyString st objects Hget) as (st1 & -> & Hd1 & He1 & Hn1).
    { apply (Hrec k). apply dict_get_In. now rewrite <- Hd. }
    rewrite (Hfresh k (or_introl eq_refl)) in Hn1.
    inversion Hnd as [|? ? Hnotin Hnd']; subst.
    destruct (IH st1) as (st' & -> & Hd' & He' & Hn').
    + now rewrite Hd1.
    + reflexivity.
    + intros x Hx. apply Hincl. now right.
    + exact Hnd'.
    + intros x Hx. destruct (has_node (net st1) x) eqn:Hh; [|reflexivity].
      apply has_node_ids in Hh. rewrite Hn1 in Hh.
      apply in_app_or in Hh as [Hh|[<-|[]]].
      * apply has_node_ids in Hh. rewrite (Hfresh x) in Hh; [discriminate|now right].
      * contradiction.
    + exists st'. repeat split; auto.
      * now rewrite He', He1.
      * rewrite Hn', Hn1, <- app_assoc. reflexivity.
Qed.

Lemma add_edges_indexed node refs st :
  has_node (net st) node = true ->
  (forall r, In r refs -> dict_contains (data st) r = true /\ has_node (net st) r = true) ->
  exists st',
    for_each refs
      (fun ref st =>
         match
           (if negb (dict_contains (data st) ref)
            then add_node ref FAILURE_NODE_COLOR st
            else (Ok tt, st))
         with
         | (Ok _, st') => add_edge node ref st'
         | (Raise e, st') => (Raise e, st')
         end) st = (Ok tt, st') /\
    data st' = data st /\
    nodes (net st') = nodes (net st) /\
    edges (net st') = edges (net st) ++ map (pair node) refs.
Proof.
  revert st. induction refs as [|r refs IH]; intros st Hnode Hrefs.
  - exists st. cbn. now rewrite app_nil_r.
  - cbn [for_each]. destruct (Hrefs r (or_introl eq_refl)) as [Hd Hn].
    rewrite Hd. cbn [negb]. unfold add_edge at 1, net_add_edge. rewrite Hnode, Hn.
    cbn [negb].
    destruct (IH {| net := {| nodes := nodes (net st);
                              edges := edges (net st) ++ [(node, r)] |};
                    data := data st |}) as (st' & -> & Hd' & Hn' & He').
    + unfold has_node in *. exact Hnode.
    + intros x Hx. destruct (Hrefs x (or_intror Hx)) as [Hxd Hxn]. split; assumption.
    + exists st'. repeat split; auto.
      rewrite He'. cbn [net edges map]. now rewrite <- app_assoc.
Qed.

Lemma dict_get_NoDup {V} (d : pydict V) k v :
  NoDup (dict_keys d) -> In (k, v) d -> dict_get d k = Some v.
Proof.
  unfold dict_keys. induction d as [|[k' v'] d IH]; cbn; [intros _ []|].
  intros Hnd Hin. inversion Hnd as [|? ? Hnotin Hnd']; subst.
  destruct Hin as [[= -> ->]|Hin]; [now rewrite String.eqb_refl|].
  destruct (String.eqb_spec k k') as [->|_]; [|now apply IH].
  exfalso. apply Hnotin. change k' with (fst (k', v)). now apply in_map.
Qed.

Lemma add_object_edges node objects st :
  has_node (net st) node = true ->
  (forall r, In r (flat_map REFS_TAG objects) ->
             dict_contains (data st) r = true /\ has_node (net st) r = true) ->
  exists st',
    for_each objects
      (fun obj =>
         for_each (REFS_TAG obj)
           (fun ref st =>
              match
                (if negb (dict_contains (data st) ref)
                 then add_node ref FAILURE_NODE_COLOR st
                 else (Ok tt, st))
              with
              | (Ok _, st') => add_edge node ref st'
              | (Raise e, st') => (Raise e, st')
              end)) st = (Ok tt, st') /\
    data st' = data st /\
    nodes (net st') = nodes (net st) /\
    edges (net st') = edges (net st) ++ map (pair node) (flat_map REFS_TAG objects).
Proof.
  revert st. induction objects as [|o objects IH]; intros st Hnode Hrefs.
  - exists st. cbn. now rewrite app_nil_r.
  - cbn [for_each flat_map].
    destruct (add_edges_indexed node (REFS_TAG o) st Hnode) as (st1 & -> & Hd1 & Hn1 & He1).
    { intros r Hr. apply Hrefs. cbn. apply in_or_app. now left. }
    destruct (IH st1) as (st' & -> & Hd' & Hn' & He').
    + unfold has_node in *. now rewrite Hn1.
    + intros r Hr. unfold has_node. rewrite Hd1, Hn1. apply Hrefs. cbn.
      apply in_or_app. now right.
    + exists st'. repeat split.
      * now rewrite Hd', Hd1.
      * now rewrite Hn', Hn1.
      * rewrite He', He1, map_app, <- app_assoc. reflexivity.
Qed.

Lemma second_loop_indexed d size entries st :
  NoDup (dict_keys d) ->
  data st = d ->
  List.length d = size ->
  incl entries d ->
  (forall k, In k (dict_keys d) -> has_node (net st) k = true) ->
  (forall r, In r (refs_of_data d) -> dict_contains d r = true) ->
  exists st',
    for_dict_keys size (dict_keys entries)
      (fun node st =>
         let (objects, data1) := dd_getitem [] (data st) node in
         for_each objects
           (fun obj =>
              for_each (REFS_TAG obj)
                (fun ref st =>
                   match
                     (if negb (dict_contains (data st) ref)
                      then add_node ref FAILURE_NODE_COLOR st
                      else (Ok tt, st))
                   with
                   | (Ok _, st') => add_edge node ref st'
                   | (Raise e, st') => (Raise e, st')
                   end))
           {| net := net st; data := data1 |}) st = (Ok tt, st') /\
    data st' = d /\
    nodes (net st') = nodes (net st) /\
    edges (net st') = edges (net st) ++ edges_of_data entries.
Proof.
  intros Hnd. revert st.
  induction entries as [|[k objects] entries IH]; intros st Hd Hsize Hincl Hnodes Hclosed.
  - cbn [dict_keys map for_dict_keys]. rewrite Hd, Hsize, Nat.eqb_refl. cbn [negb].
    exists st. cbn. now rewrite app_nil_r.
  - cbn [dict_keys map fst for_dict_keys]. rewrite Hd, Hsize, Nat.eqb_refl. cbn [negb].
    assert (Hin : In (k, objects) d) by (apply Hincl; now left).
    pose proof (dict_get_NoDup d k objects Hnd Hin) as Hget.
    unfold dd_getitem at 1. rewrite ?Hd, Hget.
    assert (Hk : In k (dict_keys d)).
    { change k with (fst (k, objects)). unfold dict_keys. now apply in_map. }
    destruct (add_object_edges k objects {| net := net st; data := d |})
      as (st1 & -> & Hd1 & Hn1 & He1).
    + cbn [net]. now apply Hnodes.
    + intros r Hr. cbn [net data].
      assert (Hrd : dict_contains d r = true).
      { apply Hclosed. unfold refs_of_data. apply in_flat_map.
        exists (k, objects). split; assumption. }
      split; [exact Hrd|]. apply Hnodes. now apply dict_contains_keys.
    + cbn [net data] in Hd1, Hn1, He1.
      destruct (IH st1) as (st' & E & Hd' & Hn' & He').
      * exact Hd1.
      * exact Hsize.
      * intros x Hx. apply Hincl. now right.
      * intros x Hx. unfold has_node. rewrite Hn1. now apply Hnodes.
      * exact Hclosed.
      * unfold dict_keys in E. rewrite E.
        exists st'. repeat split.
        -- exact Hd'.
        -- now rewrite Hn', Hn1.
        -- rewrite He', He1. unfold edges_of_data. cbn [flat_map fst snd].
           now rewrite <- app_assoc.
Qed.

(** X13: On an index whose references are all indexed and whose bodies are
    records, the complete-graph mode returns: the index is left as it
    is, the nodes are the ids of the index in file order, and there is
    one edge per reference occurrence, in file order. *)
Theorem complete_graph_of_closed_index d :
  NoDup (dict_keys d) ->
  records_only d ->
  (forall r, In r (refs_of_data d) -> dict_contains d r = true) ->
  exists st,
    make_graph_complete {| net := empty_network; data := d |} = (Ok tt, st) /\
    data st = d /\
    map n_id (nodes (net st)) = dict_keys d /\
    edges (net st) = edges_of_data d.
Proof.
  intros Hnd Hrec Hclosed. unfold make_graph_complete, for_dict. cbn [data].
  destruct (first_loop_indexed d (List.length d) (dict_keys d)
              {| net := empty_network; data := d |} Hrec eq_refl eq_refl
              (incl_refl _) Hnd) as (st1 & -> & Hd1 & He1 & Hn1).
  { intros k _. reflexivity. }
  cbn [net empty_network nodes edges map app] in He1, Hn1.
  rewrite Hd1.
  destruct (second_loop_indexed d (List.length d) d st1 Hnd Hd1 eq_refl (incl_refl _))
    as (st2 & -> & Hd2 & Hn2 & He2).
  - intros k Hk. apply has_node_ids. now rewrite Hn1.
  - exact Hclosed.
  - exists st2. repeat split.
    + exact Hd2.
    + now rewrite Hn2, Hn1.
    + now rewrite He2, He1.
Qed.

End CompleteGraph.

Lemma complete_graph_of_closed_index_witness :
  exists st,
    @make_graph_complete no_wrap
      {| net := empty_network; data := index_of cyclic_section |} = (Ok tt, st) /\
    data st = index_of cyclic_section /\
    map n_id (nodes (net st)) = ["#1"; "#2"] /\
    edges (net st) = [("#1", "#2"); ("#2", "#1")].
Proof.
  apply (@complete_graph_of_closed_index no_wrap (index_of cyclic_section)).
  - vm_compute. repeat constructor; cbn; intuition discriminate.
  - intros k objects Hin. vm_compute in Hin.
    destruct Hin as [[= <- <-]|[[= <- <-]|[]]]; reflexivity.
  - intros r Hr. vm_compute in Hr.
    destruct Hr as [<-|[<-|[]]]; reflexivity.
Defined.


(* ================================================================== *)
(** * The rooted graph of an index without dangling references *)
(* ================================================================== *)

Section RootedGraph.

Context `{TextWrap} `{SetOrder}.

Lemma set_add_In (s : pyset) x r : In r (set_add s x) <-> In r s \/ r = x.
Proof.
  unfold set_add. destruct (existsb (String.eqb x) s) eqn:E.
  - split; [now left|]. intros [Hr| ->]; [exact Hr|].
    apply existsb_exists in E as (y & Hy & Exy). apply String.eqb_eq in Exy. now subst y.
  - rewrite in_app_iff. cbn. intuition.
Qed.

Lemma dict_set_In {V} (d : pydict V) k v k' v' :
  In (k', v') (dict_set d k v) -> (k' = k /\ v' = v) \/ In (k', v') d.
Proof.
  induction d as [|[k0 v0] d IH]; cbn.
  - intros [[= <- <-]|[]]. now left.
  - destruct (String.eqb_spec k k0) as [->|Hk].
    + intros [[= <- <-]|Hin]; [now left|right; now right].
    + intros [E|Hin]; [right; now left|].
      destruct (IH Hin) as [L|R]; [now left|right; now right].
Qed.

Lemma nodes_add_In (visited : pydict pyset) curr ref k s r :
  In (k, s) (nodes_add visited curr ref) -> In r s ->
  r = ref \/ exists s0, In (k, s0) visited /\ In r s0.
Proof.
  unfold nodes_add, dd_getitem, pyset in *.
  destruct (dict_get visited curr) as [s1|] eqn:Hget.
  - intros Hin Hr. apply dict_set_In in Hin as [[-> ->]|Hin].
    + apply set_add_In in Hr as [Hr| ->]; [|now left].
      right. exists s1. split; [now apply dict_get_In|exact Hr].
    + right. now exists s.
  - intros Hin Hr. apply dict_set_In in Hin as [[-> ->]|Hin].
    + apply set_add_In in Hr as [[]| ->]. now left.
    + apply in_app_or in Hin as [Hin|[[= <- <-]|[]]]; [|destruct Hr].
      right. now exists s.
Qed.

Lemma collect_refs_In curr objects (visited : pydict pyset) (waiting : pyset) :
  (forall r, In r (snd (collect_refs curr objects visited waiting)) <->
             In r waiting \/ In r (flat_map REFS_TAG objects)) /\
  (forall k s r, In (k, s) (fst (collect_refs curr objects visited waiting)) -> In r s ->
                 In r (flat_map REFS_TAG objects) \/
                 exists s0, In (k, s0) visited /\ In r s0).
Proof.
  unfold collect_refs. revert visited waiting.
  assert (Hinner : forall refs (visited : pydict pyset) (waiting : pyset),
    (forall r, In r (snd (fold_left
        (fun acc ref => (nodes_add (fst acc) curr ref, set_add (snd acc) ref))
        refs (visited, waiting))) <-> In r waiting \/ In r refs) /\
    (forall k s r, In (k, s) (fst (fold_left
        (fun acc ref => (nodes_add (fst acc) curr ref, set_add (snd acc) ref))
        refs (visited, waiting))) -> In r s ->
        In r refs \/ exists s0, In (k, s0) visited /\ In r s0)).
  { induction refs as [|x refs IHr]; intros visited waiting; cbn [fold_left fst snd].
    - split; [intros r; cbn; intuition|]. intros k s r Hin Hr. right. now exists s.
    - destruct (IHr (nodes_add visited curr x) (set_add waiting x)) as [W S]. split.
      + intros r. rewrite W, set_add_In. cbn. intuition.
      + intros k s r Hin Hr. destruct (S k s r Hin Hr) as [Hrefs|(s0 & Hs0 & Hr0)].
        * left. now right.
        * destruct (nodes_add_In visited curr x k s0 r Hs0 Hr0) as [->|Hold].
          -- left. now left.
          -- now right. }
  induction objects as [|o objects IH]; intros visited waiting; cbn [fold_left].
  - split; [intros r; cbn; intuition|]. intros k s r Hin Hr. right. now exists s.
  - destruct (Hinner (REFS_TAG o) visited waiting) as [W1 S1].
    destruct (fold_left _ (REFS_TAG o) (visited, waiting)) as [visited1 waiting1].
    cbn [fst snd] in W1, S1.
    destruct (IH visited1 waiting1) as [W2 S2]. split.
    + intros r. rewrite W2, W1. cbn [flat_map]. rewrite in_app_iff. intuition.
    + intros k s r Hin Hr. cbn [flat_map]. rewrite in_app_iff.
      destruct (S2 k s r Hin Hr) as [Hrefs|(s0 & Hs0 & Hr0)]; [left; now right|].
      destruct (S1 k s0 r Hs0 Hr0) as [Hrefs|Hold]; [left; now left|now right].
Qed.

Section ClosedIndex.

Variable d : pydict (list object).
Hypothesis d_records : records_only d.
Hypothesis d_closed : forall r, In r (refs_of_data d) -> dict_contains d r = true.

Lemma visit_entity_closed curr visited pending waiting st :
  closed_state d visited (curr :: pending) waiting st ->
  exists visited' waiting' st',
    visit_entity curr visited waiting st = (Ok (visited', waiting'), st') /\
    closed_state d visited' pending waiting' st'.
Proof.
  intros (Hd & Hnodes & Hidx & Hsets). unfold visit_entity.
  destruct (dict_contains visited curr) eqn:Hc.
  { exists visited, waiting, st. split; [reflexivity|]. repeat split; auto.
    - intros k [Hk|Hk]; apply Hidx; [left; now right|now right].
    - intros k s r Hin Hr. destruct (Hsets k s r Hin Hr) as [Hv|[[<-|Hp]|Hw]]; auto.
      left. now apply dict_contains_keys. }
  assert (Hcd : dict_contains (data st) curr = true).
  { rewrite Hd. apply Hidx. left. now left. }
  rewrite Hcd.
  pose proof Hcd as Hget. unfold dict_contains in Hget.
  destruct (dict_get (data st) curr) as [objects|] eqn:Hobjects; [clear Hget|discriminate].
  destruct (add_node_indexed curr EmptyString st objects Hobjects) as (st1 & -> & Hd1 & _ & Hn1).
  { apply (d_records curr). apply dict_get_In. now rewrite <- Hd. }
  unfold dd_getitem at 1. rewrite Hd1, Hobjects.
  pose proof (dict_contains_false _ _ Hc) as Hvget.
  unfold dd_getitem, pyset in *. rewrite Hvget. cbn [snd].
  assert (Hin1 : In curr (dict_keys (visited ++ [(curr, [])]))).
  { unfold dict_keys. rewrite map_app. apply in_or_app. right. now left. }
  destruct (collect_refs_keeps curr objects (visited ++ [(curr, [])]) waiting
              (flat_map REFS_TAG objects ++ waiting) Hin1
              (incl_appr _ (incl_refl _)) (incl_appl _ (incl_refl _))) as [K _].
  destruct (collect_refs_In curr objects (visited ++ [(curr, [])]) waiting) as [W S].
  destruct (collect_refs curr objects (visited ++ [(curr, [])]) waiting)
    as [visited2 waiting2].
  cbn [fst snd] in K, W, S.
  exists visited2, waiting2, {| net := net st1; data := data st |}.
  split; [reflexivity|].
  assert (Hkeys : forall k, In k (dict_keys visited2) <-> In k (dict_keys visited) \/ k = curr).
  { intros k. rewrite K. unfold dict_keys. rewrite map_app, in_app_iff. cbn. intuition. }
  repeat split; cbn [data net].
  - exact Hd.
  - intros k Hk. apply has_node_ids. apply Hkeys in Hk.
    destruct (has_node (net st) curr) eqn:Hh; rewrite Hn1.
    + destruct Hk as [Hk| ->]; apply has_node_ids; auto.
    + apply in_or_app. destruct Hk as [Hk| ->]; [left|right; now left].
      apply has_node_ids. auto.
  - intros k [Hk|Hk]; [apply Hidx; left; now right|].
    apply W in Hk as [Hk|Hk]; [apply Hidx; now right|].
    apply d_closed. rewrite <- Hd. now apply (refs_of_data_get _ _ _ Hobjects).
  - intros k s r Hin Hr.
    destruct (S k s r Hin Hr) as [Hrefs|(s0 & Hs0 & Hr0)].
    + right. right. apply W. now right.
    + apply in_app_or in Hs0 as [Hs0|[[= <- <-]|[]]]; [|destruct Hr0].
      destruct (Hsets k s0 r Hs0 Hr0) as [Hv|[[<-|Hp]|Hw]].
      * left. apply Hkeys. now left.
      * left. apply Hkeys. now right.
      * right. now left.
      * right. right. apply W. now left.
Qed.

Lemma visit_entities_closed pending :
  forall visited waiting st,
    closed_state d visited pending waiting st ->
    exists visited' waiting' st',
      visit_entities pending visited waiting st = (Ok (visited', waiting'), st') /\
      closed_state d visited' [] waiting' st'.
Proof.
  induction pending as [|curr pending IH]; intros visited waiting st Hst.
  - exists visited, waiting, st. now split.
  - destruct (visit_entity_closed curr visited pending waiting st Hst)
      as (visited1 & waiting1 & st1 & Hv & Hst1).
    destruct (IH visited1 waiting1 st1 Hst1) as (visited' & waiting' & st' & Hvs & Hst').
    exists visited', waiting', st'. split; [|exact Hst'].
    cbn [visit_entities]. now rewrite Hv.
Qed.

Lemma traverse_refs_closed universe fuel :
  forall visited waiting st,
    traversal_ok universe visited waiting st ->
    closed_state d visited [] waiting st ->
    List.length universe - List.length (dict_keys visited) < fuel ->
    exists visited' st',
      traverse_refs fuel visited waiting st = Some (Ok visited', st') /\
      closed_state d visited' [] [] st'.
Proof.
  induction fuel as [|fuel IH]; intros visited waiting st Hok Hst Hfuel; [lia|].
  destruct waiting as [|w waiting]; [cbn; eauto|].
  cbn [traverse_refs].
  destruct (visit_entities_closed (set_iter (w :: waiting)) visited [] st)
    as (visited' & waiting' & st' & Hv & Hst').
  { destruct Hst as (Hd & Hnodes & Hidx & Hsets). repeat split; auto.
    - intros k [Hk|[]]. apply Hidx. right.
      exact (Permutation_in k (set_iter_perm _) Hk).
    - intros k s r Hin Hr. destruct (Hsets k s r Hin Hr) as [Hvis|[[]|Hw]]; auto.
      right. left. exact (Permutation_in r (Permutation_sym (set_iter_perm _)) Hw). }
  rewrite Hv.
  destruct Hok as (Hnd & Hvis & Hw & Hr).
  destruct (visit_entities_ok universe _ _ _ _ _ _ _
              (fun x Hx => Hw x (Permutation_in x (set_iter_perm _) Hx))
              (conj Hnd (conj Hvis (conj (fun x (Hx : In x []) => match Hx with end) Hr)))
              Hv) as (Hok' & Hle & Hgrow).
  destruct Hgrow as [->|Hlt]; [rewrite traverse_refs_done; eauto|].
  apply IH; [exact Hok'|exact Hst'|].
  destruct Hok' as (Hnd' & Hvis' & _).
  pose proof (NoDup_incl_length Hnd' Hvis'). unfold pyset in *. lia.
Qed.

Lemma add_edges_closed node refs st :
  has_node (net st) node = true ->
  (forall r, In r refs -> has_node (net st) r = true) ->
  exists st',
    for_each refs (fun ref => add_edge node ref) st = (Ok tt, st') /\
    data st' = data st /\
    nodes (net st') = nodes (net st).
Proof.
  revert st. induction refs as [|r refs IH]; intros st Hnode Hrefs.
  - now exists st.
  - cbn [for_each]. unfold add_edge at 1, net_add_edge.
    rewrite Hnode, (Hrefs r (or_introl eq_refl)). cbn [negb].
    destruct (IH {| net := {| nodes := nodes (net st);
                              edges := edges (net st) ++ [(node, r)] |};
                    data := data st |}) as (st' & -> & Hd' & Hn').
    + exact Hnode.
    + intros x Hx. exact (Hrefs x (or_intror Hx)).
    + now exists st'.
Qed.

Lemma all_edges_closed (entries : pydict pyset) st :
  (forall k s, In (k, s) entries ->
     has_node (net st) k = true /\ forall r, In r s -> has_node (net st) r = true) ->
  exists st',
    for_each entries
      (fun kv => for_each (set_iter (snd kv)) (fun ref => add_edge (fst kv) ref)) st
    = (Ok tt, st') /\
    data st' = data st.
Proof.
  revert st. induction entries as [|[k s] entries IH]; intros st Hentries.
  - now exists st.
  - cbn [for_each fst snd].
    destruct (Hentries k s (or_introl eq_refl)) as [Hk Hs].
    destruct (add_edges_closed k (set_iter s) st Hk) as (st1 & -> & Hd1 & Hn1).
    { intros r Hr. apply Hs. exact (Permutation_in r (set_iter_perm _) Hr). }
    destruct (IH st1) as (st' & -> & Hd').
    + intros k' s' Hin. unfold has_node. rewrite Hn1.
      exact (Hentries k' s' (or_intror Hin)).
    + exists st'. split; [reflexivity|]. now rewrite Hd', Hd1.
Qed.

(** On an index whose references are all indexed and whose bodies are
    records, the rooted-reachability mode, started at an indexed id with
    enough turns of the loop, returns a graph and leaves the index as it
    is. *)
Theorem rooted_graph_of_closed_index root fuel net0 :
  dict_contains d root = true ->
  traversal_bound d <= fuel ->
  exists st,
    make_graph_entity fuel root {| net := net0; data := d |} = Some (Ok tt, st) /\
    data st = d.
Proof.
  intros Hroot Hfuel. unfold make_graph_entity.
  destruct (traverse_refs_closed (root :: refs_of_data d) fuel [] [root]
              {| net := net0; data := d |}) as (visited & st1 & -> & Hst1).
  - repeat split.
    + constructor.
    + intros x [].
    + intros x [<-|[]]. now left.
    + cbn [data]. apply incl_tl, incl_refl.
  - split; [reflexivity|]. split; [intros k []|]. split.
    + intros k [[]|[<-|[]]]. exact Hroot.
    + intros k s r [].
  - unfold traversal_bound in Hfuel. cbn. lia.
  - destruct Hst1 as (Hd1 & Hnodes & _ & Hsets).
    destruct (all_edges_closed visited st1) as (st & -> & Hd).
    + intros k s Hin. split.
      * apply Hnodes. change k with (fst (k, s)). unfold dict_keys. now apply in_map.
      * intros r Hr. destruct (Hsets k s r Hin Hr) as [Hv|[[]|[]]]. now apply Hnodes.
    + exists st. split; [reflexivity|]. now rewrite Hd.
Qed.

End ClosedIndex.

End RootedGraph.

Lemma rooted_graph_of_closed_index_witness :
  exists st,
    @make_graph_entity no_wrap insertion_order 4 "#1"
      {| net := empty_network; data := index_of cyclic_section |} = Some (Ok tt, st) /\
    data st = index_of cyclic_section.
Proof.
  apply (@rooted_graph_of_closed_index no_wrap insertion_order (index_of cyclic_section)).
  - intros k objects Hin. vm_compute in Hin.
    destruct Hin as [[= <- <-]|[[= <- <-]|[]]]; reflexivity.
  - intros r Hr. vm_compute in Hr.
    destruct Hr as [<-|[<-|[]]]; reflexivity.
  - reflexivity.
  - vm_compute. lia.
Defined.

(* ================================================================== *)
(** * More on the canonicalizer and the indexer *)
(* ================================================================== *)

Section TokenFacts.

Context `{PyFloat}.

(** An induction principle that reaches the children of a tree, a tuple
    and a list. *)
Lemma pyval_nested_ind (P : pyval -> Prop) :
  (forall data xs, Forall P xs -> P (VTree data xs)) ->
  (forall tk, P (VToken tk)) ->
  (forall s, P (VStr s)) ->
  (forall z, P (VInt z)) ->
  (forall f, P (VFloat f)) ->
  (forall xs, Forall P xs -> P (VTuple xs)) ->
  (forall xs, Forall P xs -> P (VList xs)) ->
  forall v, P v.
Proof.
  intros Htree Htok Hstr Hint Hfloat Htuple Hlist.
  fix IH 1. intros [data xs|tk|s|z|f|xs|xs].
  - apply Htree. induction xs as [|x xs IHxs]; constructor; [apply IH|exact IHxs].
  - apply Htok.
  - apply Hstr.
  - apply Hint.
  - apply Hfloat.
  - apply Htuple. induction xs as [|x xs IHxs]; constructor; [apply IH|exact IHxs].
  - apply Hlist. induction xs as [|x xs IHxs]; constructor; [apply IH|exact IHxs].
Qed.

Lemma explode_all_tokens xs :
  Forall (fun v => forall refs,
            snd (explode_object v refs) = refs ++ tokens_of v /\
            fst (explode_object v refs) = fst (explode_object v [])) xs ->
  forall refs,
    snd (explode_all xs refs) = refs ++ flat_map tokens_of xs /\
    fst (explode_all xs refs) = fst (explode_all xs []).
Proof.
  induction 1 as [|v xs Hv _ IH]; intros refs; cbn [explode_all flat_map].
  - now rewrite app_nil_r.
  - destruct (Hv refs) as [Hs Hf]. destruct (Hv []) as [Hs0 _].
    destruct (explode_object v refs) as [b r1].
    destruct (explode_object v []) as [b0 r0]. cbn [fst snd] in *. subst b r1 r0.
    destruct (IH (refs ++ tokens_of v)) as [Hs1 Hf1].
    destruct (IH ([] ++ tokens_of v)) as [Hs2 Hf2].
    destruct (explode_all xs (refs ++ tokens_of v)) as [bs r2].
    destruct (explode_all xs ([] ++ tokens_of v)) as [bs' r2'].
    cbn [fst snd] in *. split.
    + now rewrite Hs1, app_assoc.
    + now rewrite Hf1, Hf2.
Qed.

Lemma explode_object_tokens v refs :
  snd (explode_object v refs) = refs ++ tokens_of v /\
  fst (explode_object v refs) = fst (explode_object v []).
Proof.
  revert refs.
  induction v as [data xs IH|tk|s|z|f|xs IH|xs IH] using pyval_nested_ind; intros refs;
    try (cbn; rewrite ?app_nil_r; split; reflexivity).
  - rewrite !explode_object_items. cbn [tokens_of].
    destruct (explode_all_tokens xs IH refs) as [Hs Hf].
    destruct (explode_all xs refs) as [a r]. destruct (explode_all xs []) as [a0 r0].
    cbn [fst snd] in *. now subst.
  - rewrite !explode_object_items. cbn [tokens_of].
    destruct (explode_all_tokens xs IH refs) as [Hs Hf].
    destruct (explode_all xs refs) as [a r]. destruct (explode_all xs []) as [a0 r0].
    cbn [fst snd] in *. now subst.
  - rewrite !explode_object_items. cbn [tokens_of].
    destruct (explode_all_tokens xs IH refs) as [Hs Hf].
    destruct (explode_all xs refs) as [a r]. destruct (explode_all xs []) as [a0 r0].
    cbn [fst snd] in *. now subst.
Qed.

Lemma explode_all_bodies xs refs :
  fst (explode_all xs refs) = map (fun v => fst (explode_object v [])) xs.
Proof.
  revert refs. induction xs as [|v xs IH]; intros refs; cbn [explode_all map]; [reflexivity|].
  destruct (explode_object_tokens v refs) as [_ Hf].
  destruct (explode_object v refs) as [b r1]. cbn [fst] in Hf. subst b.
  specialize (IH r1). destruct (explode_all xs r1) as [bs r2]. cbn [fst] in *.
  now rewrite IH.
Qed.

(** X1: [explode_object] appends to [refs] the text of every token of the
    value, in order, through trees, tuples and lists alike, and nothing
    else; what was in [refs] stays in front, and the body it returns
    does not depend on [refs]. *)
Theorem explode_object_collects_tokens v refs :
  snd (explode_object v refs) = refs ++ tokens_of v /\
  fst (explode_object v refs) = fst (explode_object v []).
Proof. apply explode_object_tokens. Qed.

End TokenFacts.

Section IndexFacts.

Context `{PyFloat}.

Lemma hex_tokens_text hex : flat_map tokens_of (map hex_token hex) = map fst hex.
Proof. induction hex as [|h hex IH]; cbn; [reflexivity|now rewrite IH]. Qed.

Lemma flat_map_Forall2 {A B C} (f : A -> list C) (g : B -> list C) xs ys :
  Forall2 (fun x y => g y = f x) xs ys -> flat_map g ys = flat_map f xs.
Proof. induction 1 as [|x y xs ys E _ IH]; cbn; [reflexivity|now rewrite E, IH]. Qed.

Lemma transform_parameter_tokens p :
  valid_parameter p = true ->
  exists v, transform (parameter_tree p) = Ok v /\
            tokens_of v = tokens_outside_typed p.
Proof.
  induction p as [chunks|line|text line|text line|kw line|text line|radix hex|items IH
                 |kw line inner IH| |line] using parameter_rect'; intros Hvalid.
  - exists (VStr (kept_content chunks)).
    split; [|reflexivity].
    apply transform_untyped. rewrite transform_tree, chunk_tokens_unchanged.
    cbn [rbind]. unfold call_userfunc. cbn [String.eqb Ascii.eqb Bool.eqb].
    unfold T_string. now rewrite join_chunk_tokens.
  - exists (VStr "$"). split; reflexivity.
  - cbn [valid_parameter] in Hvalid. apply andb_true_iff in Hvalid as [Hint Hlim].
    destruct (py_int_INT text Hint Hlim) as [z Hz].
    exists (VInt z). split; [|reflexivity].
    apply transform_untyped. cbn. unfold T_INT. cbn. now rewrite Hz.
  - exists (VFloat (py_float text)). split; reflexivity.
  - exists (VStr kw). split; [|reflexivity].
    apply transform_untyped. rewrite transform_tree. cbn [transform_children].
    rewrite transform_keyword. reflexivity.
  - exists (VToken (Token ANON text line)). split; reflexivity.
  - exists (VTree "binary" (map hex_token hex)). split.
    + apply transform_untyped. rewrite transform_tree, hex_tokens_unchanged. reflexivity.
    + cbn [tokens_of tokens_outside_typed]. apply hex_tokens_text.
  - cbn [valid_parameter] in Hvalid. rewrite forallb_forall in Hvalid.
    assert (F : Forall (fun p => exists v, transform (parameter_tree p) = Ok v /\
                          tokens_of v = tokens_outside_typed p) items).
    { rewrite Forall_forall in *. intros q Hq. apply IH; auto. }
    destruct (transform_children_Forall2 _ _ F) as (vs & Hvs & HF).
    exists (VList vs). split.
    + apply transform_untyped. rewrite transform_tree. cbn [parameter_tree].
      fold parameter_tree. rewrite Hvs. reflexivity.
    + cbn [tokens_of tokens_outside_typed]. now apply flat_map_Forall2.
  - cbn [valid_parameter] in Hvalid. destruct (IH Hvalid) as (v & Hv & _).
    exists (VStr kw). split; [|reflexivity].
    cbn [parameter_tree]. rewrite transform_tree. cbn [transform_children].
    rewrite transform_tree. cbn [transform_children].
    rewrite transform_keyword. cbn [rbind]. rewrite Hv. reflexivity.
  - exists (VStr EmptyString). split; reflexivity.
  - exists (VStr "*"). split; reflexivity.
Qed.

Lemma transform_simple_record_value r :
  valid_simple_record r = true ->
  exists v, transform (simple_record_tree r) = Ok v /\ simple_record_value r v.
Proof.
  unfold valid_simple_record, simple_record_value, record_tokens, simple_record_tree.
  destruct (r_parameters r) as [ps|]; intros Hvalid.
  - rewrite forallb_forall in Hvalid.
    assert (F : Forall (fun p => exists v, transform (parameter_tree p) = Ok v /\
                          tokens_of v = tokens_outside_typed p) ps).
    { rewrite Forall_forall. intros q Hq. apply transform_parameter_tokens; auto. }
    destruct (transform_children_Forall2 _ _ F) as (vs & Hvs & HF).
    exists (VTuple [VStr (r_keyword r); VTuple vs]). split.
    + rewrite transform_tree. cbn [transform_children].
      rewrite transform_keyword. cbn [rbind].
      rewrite transform_tree, Hvs. reflexivity.
    + exists [VTuple vs]. split; [reflexivity|].
      cbn [flat_map tokens_of]. rewrite app_nil_r. now apply flat_map_Forall2.
  - exists (VTuple [VStr (r_keyword r)]). split.
    + rewrite transform_tree. cbn [transform_children].
      rewrite transform_keyword. reflexivity.
    + exists []. split; reflexivity.
Qed.

Lemma transform_simple_records_value rs :
  forallb valid_simple_record rs = true ->
  exists vs, transform_children (map simple_record_tree rs) = Ok vs /\
             Forall2 simple_record_value rs vs.
Proof.
  induction rs as [|r rs IH]; intros Hvalid.
  - exists []. split; [reflexivity|constructor].
  - cbn in Hvalid. apply andb_true_iff in Hvalid as [Hr Hrs].
    destruct (transform_simple_record_value r Hr) as (v & Hv & Hsv).
    destruct (IH Hrs) as (vs & Hvs & HF).
    exists (v :: vs). split; [|now constructor].
    cbn [map transform_children]. rewrite Hv. cbn [rbind]. now rewrite Hvs.
Qed.

Lemma transform_record_value r :
  valid_record r = true ->
  exists items, transform (record_tree r) = Ok (VTuple items) /\ record_value r items.
Proof.
  destruct r as [r|rs]; cbn [valid_record record_tree record_value]; intros Hvalid.
  - destruct (transform_simple_record_value r Hvalid) as (v & Hv & Hsv).
    pose proof Hsv as (rest & -> & Hrest).
    exists (VStr (r_keyword r) :: rest). split; assumption.
  - destruct (transform_simple_records_value rs Hvalid) as (vs & Hvs & HF).
    exists [VTuple vs]. split.
    + rewrite transform_tree. cbn [transform_children].
      rewrite transform_tree, Hvs. reflexivity.
    + now exists vs.
Qed.

Lemma simple_record_value_body r v refs :
  simple_record_value r v ->
  simple_body (fst (explode_object v refs)) = true /\ tokens_of v = record_tokens r.
Proof.
  intros (rest & -> & Hrest). split.
  - rewrite explode_object_items. cbn [explode_all].
    rewrite (explode_object_items (VStr _)).
    destruct (explode_all rest refs) as [bs r']. reflexivity.
  - cbn [tokens_of flat_map app]. exact Hrest.
Qed.

Lemma record_value_body r items :
  record_value r items ->
  record_body (fst (explode_object (VTuple items) [])) = true /\
  flat_map tokens_of items = flat_map record_tokens
                               match r with simple r => [r] | subsuper rs => rs end.
Proof.
  destruct r as [r|rs]; cbn [record_value].
  - intros Hsv. destruct (simple_record_value_body r _ [] Hsv) as [Hb Ht].
    split.
    + destruct (fst (explode_object (VTuple items) [])) as [s|[|[kw|ms] bs]];
        try discriminate; reflexivity.
    + cbn [flat_map]. rewrite app_nil_r. exact Ht.
  - intros (vs & -> & HF). split.
    + rewrite explode_object_items. cbn [explode_all].
      rewrite (explode_object_items (VTuple vs)).
      assert (Hall : forall refs, forallb simple_body (fst (explode_all vs refs)) = true).
      { clear - HF. induction HF as [|r v rs vs Hv _ IH]; intros refs; [reflexivity|].
        cbn [explode_all].
        destruct (simple_record_value_body r v refs Hv) as [Hb _].
        destruct (explode_object v refs) as [b r1]. specialize (IH r1).
        destruct (explode_all vs r1) as [bs r2]. cbn [fst] in *. cbn. now rewrite Hb. }
      specialize (Hall []). destruct (explode_all vs []) as [bs r']. exact Hall.
    + cbn [flat_map tokens_of]. rewrite app_nil_r.
      apply flat_map_Forall2.
      clear - HF. induction HF as [|r v rs vs Hv _ IH]; constructor; [|exact IH].
      now destruct (simple_record_value_body r v [] Hv).
Qed.

Lemma transform_entity_instance_value e :
  valid_record (i_record e) = true ->
  exists items,
    transform (entity_instance_tree e)
    = Ok (entity_value (instance_kind (i_record e)) (Token ANON (i_id e) (i_line e)) items) /\
    entry_for e (i_id e, [entry_of (Token ANON (i_id e) (i_line e)) items]).
Proof.
  intros Hvalid. destruct (transform_record_value _ Hvalid) as (items & Hi & Hrv).
  exists items. split.
  - unfold entity_instance_tree, entity_value.
    rewrite transform_tree. cbn [transform_children].
    rewrite transform_tree. cbn [transform_children].
    rewrite Hi. cbn [rbind].
    replace (transform (VTree "id" [VToken (Token ANON (i_id e) (i_line e))]))
      with (Ok (VToken (Token ANON (i_id e) (i_line e)))) by reflexivity.
    cbn [rbind]. destruct (i_record e); reflexivity.
  - destruct (record_value_body _ _ Hrv) as [Hbody Htok].
    eexists. split; [reflexivity|]. unfold entry_of. cbn [LINES_TAG REFS_TAG BODY_TAG tok_line].
    repeat split; [|exact Hbody].
    destruct (explode_object_tokens (VTuple items) []) as [-> _].
    cbn [app tokens_of]. rewrite Htok. unfold instance_tokens.
    destruct (i_record e); cbn [flat_map]; [now rewrite app_nil_r|reflexivity].
Qed.

(** X2: The refs of the index entry of a parsed entity instance are the
    tokens [T] leaves in its body, in order: the ids outside typed
    wrappers, and the hex digits of every binary literal outside typed
    wrappers as well. *)
Theorem refs_are_the_tokens_of_the_body filecontent e :
  valid_record (i_record e) = true ->
  exists obj,
    index_instance filecontent e = Ok [(i_id e, [obj])] /\
    REFS_TAG obj = instance_tokens e.
Proof.
  intros Hvalid.
  destruct (transform_entity_instance_value e Hvalid) as (items & Hi & (obj & E & _ & Hrefs & _)).
  injection E as <-.
  exists (entry_of (Token ANON (i_id e) (i_line e)) items). split; [|exact Hrefs].
  change (index_instance filecontent e) with (index_section filecontent [e]).
  rewrite (index_section_eq filecontent [e]
             [entity_value (instance_kind (i_record e))
                (Token ANON (i_id e) (i_line e)) items]).
  - cbn [explore_entities]. rewrite explore_entity_new by reflexivity. reflexivity.
  - cbn [map transform_children]. now rewrite Hi.
Qed.

Lemma transform_section_entries es :
  forallb (fun e => valid_record (i_record e)) es = true ->
  exists vs entries,
    transform_children (map entity_instance_tree es) = Ok vs /\
    Forall2 entry_for es entries /\
    forall objects,
      NoDup (map i_id es) ->
      (forall k, In k (map i_id es) -> dict_get objects k = None) ->
      forall filecontent,
        explore_entities filecontent objects vs = Ok (objects ++ entries).
Proof.
  induction es as [|e es IH]; intros Hvalid.
  - exists [], []. split; [reflexivity|]. split; [constructor|].
    intros objects _ _ filecontent. cbn. now rewrite app_nil_r.
  - cbn in Hvalid. apply andb_true_iff in Hvalid as [He Hes].
    destruct (transform_entity_instance_value e He) as (items & Hi & Hentry).
    destruct (IH Hes) as (vs & entries & Hvs & HF & Hexplore).
    eexists. eexists. split; [|split].
    + cbn [map transform_children]. rewrite Hi. cbn [rbind]. rewrite Hvs. reflexivity.
    + constructor; [exact Hentry|exact HF].
    + intros objects Hnd Hfresh filecontent. cbn [map] in Hnd, Hfresh.
      inversion Hnd as [|? ? Hnotin Hnd']; subst.
      cbn [explore_entities].
      rewrite explore_entity_new by (apply Hfresh; now left).
      cbn [rbind tok_value]. rewrite Hexplore.
      * now rewrite <- app_assoc.
      * exact Hnd'.
      * intros k Hk. rewrite dict_get_app, (Hfresh k (or_intror Hk)).
        destruct (String.eqb_spec k (i_id e)) as [->|]; [contradiction|reflexivity].
Qed.

(** X3: The index of a parsed data section with distinct ids: one entry per
    entity instance, in file order; each holds exactly one object, whose
    line range is the line of the id of the instance, twice, and whose
    body is the body of a record. *)
Theorem index_of_distinct_ids filecontent es :
  forallb (fun e => valid_record (i_record e)) es = true ->
  NoDup (map i_id es) ->
  exists d,
    index_section filecontent es = Ok d /\
    dict_keys d = map i_id es /\
    Forall2 entry_for es d.
Proof.
  intros Hvalid Hnd.
  destruct (transform_section_entries es Hvalid) as (vs & entries & Hvs & HF & Hexplore).
  exists entries. split; [|split].
  - rewrite (index_section_eq _ _ _ Hvs). apply (Hexplore [] Hnd). reflexivity.
  - clear - HF. unfold dict_keys.
    induction HF as [|e kv es entries (obj & -> & _) _ IH]; cbn; [reflexivity|now rewrite IH].
  - exact HF.
Qed.

End IndexFacts.

Lemma refs_are_the_tokens_of_the_body_witness :
  exists obj,
    @index_instance literal_float EmptyString binary_instance = Ok [("#1", [obj])] /\
    REFS_TAG obj = ["#2"; "A"; "F"].
Proof.
  apply (@refs_are_the_tokens_of_the_body literal_float EmptyString binary_instance).
  reflexivity.
Defined.

Lemma index_of_distinct_ids_witness :
  exists d,
    @index_section literal_float EmptyString cyclic_section = Ok d /\
    dict_keys d = ["#1"; "#2"] /\
    Forall2 entry_for cyclic_section d.
Proof.
  apply (@index_of_distinct_ids literal_float EmptyString cyclic_section).
  - reflexivity.
  - repeat constructor; cbn; intuition discriminate.
Defined.

(* ================================================================== *)
(** * Titles of parameters, and the model of a whole file *)
(* ================================================================== *)

Section Rendering.

Context `{PyFloat}.

Lemma transform_valid_parameter p :
  valid_parameter p = true -> exists v, transform (parameter_tree p) = Ok v.
Proof.
  intros Hvalid. destruct (transform_parameter_tokens p Hvalid) as (v & Hv & _). eauto.
Qed.

(** X4: A typed parameter [KEYWORD(value)] is decoded to its keyword alone:
    the title shows the keyword and nothing of the value inside. *)
Theorem typed_parameter_renders_its_keyword kw line inner :
  valid_parameter inner = true ->
  decode (p_typed kw line inner) = Ok (BStr kw) /\
  decode_render (p_typed kw line inner)
  = Ok (if kw =? EmptyString then "''" else kw)%string.
Proof.
  intros Hvalid. destruct (transform_valid_parameter inner Hvalid) as (v & Hv).
  assert (Ht : transform (parameter_tree (p_typed kw line inner)) = Ok (VStr kw)).
  { cbn [parameter_tree]. rewrite transform_tree. cbn [transform_children].
    rewrite transform_tree. cbn [transform_children].
    rewrite transform_keyword. cbn [rbind]. rewrite Hv. reflexivity. }
  unfold decode_render, decode. rewrite Ht. split; reflexivity.
Qed.

Lemma decode_some p b :
  decode p = Ok b ->
  exists v, transform (parameter_tree p) = Ok v /\ b = fst (explode_object v []).
Proof.
  unfold decode. destruct (transform (parameter_tree p)) as [v|e]; cbn; [|discriminate].
  intros [= <-]. eauto.
Qed.

(** X5: A list parameter is decoded to the list of what its items are
    decoded to, in order, whatever tokens the items hold; its title is
    the titles of the items between parentheses, with a comma and a
    blank between two of them. *)
Theorem list_parameter_renders_its_items items bodies :
  Forall2 (fun p b => decode p = Ok b) items bodies ->
  decode (p_list items) = Ok (BList bodies) /\
  decode_render (p_list items)
  = Ok ("(" ++ join ", " (map render bodies) ++ ")")%string.
Proof.
  intros HF.
  assert (Hvs : exists vs,
             transform_children (map parameter_tree items) = Ok vs /\
             map (fun v => fst (explode_object v [])) vs = bodies).
  { induction HF as [|p b items bodies Hp _ (vs & Hvs & Hb)].
    - exists []. split; reflexivity.
    - destruct (decode_some p b Hp) as (v & Hv & ->).
      exists (v :: vs). cbn [map transform_children]. rewrite Hv. cbn [rbind].
      rewrite Hvs. subst bodies. split; reflexivity. }
  destruct Hvs as (vs & Hvs & Hb).
  assert (Hd : decode (p_list items) = Ok (BList bodies)).
  { unfold decode.
    replace (transform (parameter_tree (p_list items))) with (Ok (VList vs)).
    - cbn [rbind]. rewrite explode_object_items.
      pose proof (explode_all_bodies vs []) as Hall.
      destruct (explode_all vs []) as [bs r]. cbn [fst] in *. now rewrite Hall, Hb.
    - symmetry. apply transform_untyped. rewrite transform_tree. cbn [parameter_tree].
      fold parameter_tree. rewrite Hvs. reflexivity. }
  split; [exact Hd|].
  unfold decode_render. rewrite Hd. cbn [rbind]. unfold render at 1.
  cbn [to_str]. reflexivity.
Qed.

End Rendering.

Lemma typed_parameter_renders_its_keyword_witness :
  @decode literal_float (p_typed "BAR" 1 (p_id "#2" 1)) = Ok (BStr "BAR") /\
  @decode_render literal_float (p_typed "BAR" 1 (p_id "#2" 1)) = Ok "BAR".
Proof.
  apply (@typed_parameter_renders_its_keyword literal_float "BAR" 1%Z (p_id "#2" 1)).
  reflexivity.
Defined.

Lemma list_parameter_renders_its_items_witness :
  @decode literal_float (p_list [p_id "#3" 1; p_string []; p_none 1])
  = Ok (BList [BStr "#3"; BStr EmptyString; BStr "$"]) /\
  @decode_render literal_float (p_list [p_id "#3" 1; p_string []; p_none 1])
  = Ok "(#3, '', $)".
Proof.
  apply (@list_parameter_renders_its_items literal_float
           [p_id "#3" 1; p_string []; p_none 1]
           [BStr "#3"; BStr EmptyString; BStr "$"]).
  repeat constructor.
Defined.

Section WholeFile.

Context `{PyFloat}.

Lemma transform_header_entity h :
  valid_header_entity h = true ->
  exists v, transform (header_entity_tree h) = Ok v.
Proof.
  unfold valid_header_entity. intros Hvalid. rewrite forallb_forall in Hvalid.
  assert (F : Forall (fun p => exists v, transform (parameter_tree p) = Ok v /\ True)
                (h_parameters h)).
  { rewrite Forall_forall. intros p Hp.
    destruct (transform_valid_parameter p (Hvalid p Hp)) as (v & Hv). eauto. }
  destruct (transform_children_Forall2 _ _ F) as (vs & Hvs & _).
  eexists. unfold header_entity_tree.
  rewrite transform_tree. cbn [transform_children].
  rewrite transform_keyword. cbn [rbind].
  rewrite transform_tree, Hvs. reflexivity.
Qed.

Lemma transform_header hs :
  forallb valid_header_entity hs = true ->
  exists v, transform (header_tree hs) = Ok v.
Proof.
  intros Hvalid.
  assert (Hvs : exists vs, transform_children (map header_entity_tree hs) = Ok vs).
  { induction hs as [|h hs IH]; [exists []; reflexivity|].
    cbn in Hvalid. apply andb_true_iff in Hvalid as [Hh Hhs].
    destruct (transform_header_entity h Hh) as (v & Hv).
    destruct (IH Hhs) as (vs & Hvs).
    exists (v :: vs). cbn [map transform_children]. now rewrite Hv, Hvs. }
  destruct Hvs as (vs & Hvs). eexists. unfold header_tree.
  rewrite transform_tree. cbn [transform_children].
  rewrite transform_tree, Hvs. reflexivity.
Qed.

Lemma explore_model_file filecontent iso hs es last_line :
  forallb valid_header_entity hs = true ->
  explore_model filecontent (file_tree iso hs es last_line)
  = (d <- index_section filecontent es ;; Ok {| DATA_TAG := d |}).
Proof.
  intros Hvalid. destruct (transform_header hs Hvalid) as (hv & Hhv).
  unfold explore_model, index_section, file_tree.
  rewrite transform_tree. cbn [transform_children].
  replace (transform (iso_token iso 1)) with (Ok (iso_token iso 1)) by reflexivity.
  replace (transform (iso_token iso last_line)) with (Ok (iso_token iso last_line))
    by reflexivity.
  rewrite Hhv. cbn [rbind].
  destruct (transform (data_section_tree es)) as [t|e]; reflexivity.
Qed.

(** X6: The model of a file is the index of its data section and nothing
    else: when lark returns the tree of a file, [parse] gives what
    [explore_data] gives on the transformed data section, raising what
    it raises; the header is transformed and then left out, the
    [with_progress] flag is not looked at. *)
Theorem model_is_the_index_of_the_data_section `{!LarkParser}
    filecontent with_progress iso hs es last_line :
  forallb valid_header_entity hs = true ->
  parser_parse (preprocess filecontent) = inl (file_tree iso hs es last_line) ->
  parse filecontent with_progress
  = (d <- index_section filecontent es ;; Ok {| DATA_TAG := d |}).
Proof.
  intros Hvalid Hparse. unfold parse. fold (preprocess filecontent).
  rewrite Hparse. unfold process_tree. now apply explore_model_file.
Qed.

End WholeFile.

Lemma model_is_the_index_of_the_data_section_witness :
  @parse literal_float accepting_parser sample_file false
  = (d <- @index_section literal_float sample_file sample_section ;;
     Ok {| DATA_TAG := d |}).
Proof.
  apply (@model_is_the_index_of_the_data_section literal_float accepting_parser
           sample_file false "ISO-10303-21" sample_header sample_section 9%Z);
    reflexivity.
Defined.

(* ================================================================== *)
(** * More on the preprocessor and on the record of a syntax error *)
(* ================================================================== *)

(** X7: A text without the closing mark of a comment, and a text without
    the opening mark, are left as they are by the first substitution:
    a comment that is not closed stays in the text the parser reads. *)
Theorem unclosed_comment_is_kept s :
  contains "*/" s = false \/ contains "/*" s = false ->
  remove_comments s = s /\ preprocess s = remove_blanks s.
Proof.
  intros Hs. pose proof (remove_comments_unchanged s Hs) as E.
  split; [exact E|]. unfold preprocess. now rewrite E.
Qed.

Lemma unclosed_comment_is_kept_witness :
  remove_comments "#1=A(); /* open" = "#1=A(); /* open" /\
  preprocess "#1=A(); /* open" = remove_blanks "#1=A(); /* open".
Proof.
  apply (unclosed_comment_is_kept "#1=A(); /* open"). left. reflexivity.
Defined.

Lemma strip_blanks_span s :
  strip_blanks s = strip_blanks (snd (span is_blank s)).
Proof.
  induction s as [|c s IH]; [reflexivity|].
  cbn [span strip_blanks]. destruct (is_blank c) eqn:Hc; [|cbn; now rewrite Hc].
  destruct (span is_blank s) as [w r]. exact IH.
Qed.

Lemma span_rest_all c p s : all_chars p s = true -> all_chars p (snd (span c s)) = true.
Proof.
  induction s as [|a s IH]; intros Hs; [reflexivity|].
  cbn [span]. destruct (c a); [|exact Hs].
  cbn in Hs. apply andb_true_iff in Hs as [_ Hs]. specialize (IH Hs).
  now destruct (span c s).
Qed.

Lemma span_rest_length c s : String.length (snd (span c s)) <= String.length s.
Proof.
  induction s as [|a s IH]; [reflexivity|].
  cbn [span]. destruct (c a); [|reflexivity].
  destruct (span c s). cbn in *. lia.
Qed.

(** X8: Outside id literals and string literals the second substitution
    deletes every blank and nothing else: on a text with no hash sign
    and no apostrophe it returns the text without its blanks. *)
Theorem blanks_outside_literals_are_deleted s :
  all_chars no_literal_mark s = true ->
  remove_blanks s = strip_blanks s.
Proof.
  remember (String.length s) as n eqn:Hn. revert s Hn.
  induction n as [n IH] using lt_wf_ind. intros s Hn Hs.
  destruct s as [|c s]; [reflexivity|].
  pose proof Hs as Hcs. cbn in Hcs. apply andb_true_iff in Hcs as [Hc Hs'].
  destruct (is_blank c) eqn:Hb.
  - rewrite remove_blanks_span, strip_blanks_span.
    apply (IH (String.length (snd (span is_blank (String c s))))).
    + subst n. cbn [span]. rewrite Hb.
      pose proof (span_rest_length is_blank s). destruct (span is_blank s). cbn in *. lia.
    + reflexivity.
    + now apply span_rest_all.
  - unfold remove_blanks. rewrite (re_sub_step _ _ match_literal_or_blanks_prefix).
    unfold match_literal_or_blanks.
    destruct (no_literal_mark_match c s Hc) as [-> ->].
    cbn [span]. rewrite Hb. cbn [group0 expand_group1 group1 append strip_blanks].
    rewrite Hb. f_equal. apply (IH (String.length s)); [subst n; cbn; lia|reflexivity|exact Hs'].
Qed.

Lemma blanks_outside_literals_are_deleted_witness :
  remove_blanks "A ( 1 , 2 ) ;" = "A(1,2);".
Proof.
  apply (blanks_outside_literals_are_deleted "A ( 1 , 2 ) ;"). reflexivity.
Defined.

Lemma match_literal_or_blanks_copy s m rest :
  match_literal_or_blanks s = Some (m, rest) ->
  expand_group1 m = group0 m \/ exists c t, s = String c t /\ is_blank c = true.
Proof.
  unfold match_literal_or_blanks.
  destruct (match_id s) as [[g r]|]; [intros [= <- _]; left; reflexivity|].
  destruct (match_string s) as [[g r]|]; [intros [= <- _]; left; reflexivity|].
  destruct s as [|c t]; [intros [= <- _]; now left|].
  cbn [span]. destruct (is_blank c) eqn:Hb.
  - intros _. right. eauto.
  - intros [= <- _]. now left.
Qed.

Lemma all_chars_append p a b :
  all_chars p (a ++ b) = true -> all_chars p b = true.
Proof.
  induction a as [|c a IH]; [auto|].
  cbn. intros Hs. apply andb_true_iff in Hs as [_ Hs]. auto.
Qed.

(** X9: A text without blanks and without the opening mark of a comment is
    what the parser reads: the preprocessor returns it as it is. *)
Theorem text_without_blanks_and_comments_is_unchanged s :
  all_chars no_blank s = true ->
  contains "/*" s = false ->
  preprocess s = s.
Proof.
  intros Hblank Hopen.
  unfold preprocess. rewrite (remove_comments_unchanged s (or_intror Hopen)).
  clear Hopen.
  remember (String.length s) as n eqn:Hn. revert s Hn Hblank.
  induction n as [n IH] using lt_wf_ind. intros s Hn Hs.
  destruct s as [|c s]; [reflexivity|].
  assert (Htail : remove_blanks s = s).
  { cbn in Hs. apply andb_true_iff in Hs as [_ Hs].
    apply (IH (String.length s)); [subst n; cbn; lia|reflexivity|exact Hs]. }
  unfold remove_blanks. rewrite (re_sub_step _ _ match_literal_or_blanks_prefix).
  fold (remove_blanks s). rewrite Htail.
  destruct (match_literal_or_blanks (String c s)) as [[m rest]|] eqn:E; [|reflexivity].
  pose proof (match_literal_or_blanks_prefix _ _ _ E) as Hp.
  destruct (match_literal_or_blanks_copy _ _ _ E) as [G|(c' & t & [= <- <-] & Hb)].
  - rewrite G. destruct (group0 m) as [|a g] eqn:G0; [reflexivity|].
    fold (remove_blanks rest). rewrite Hp. f_equal.
    apply (IH (String.length rest)).
    + subst n. rewrite Hp, length_append. cbn. lia.
    + reflexivity.
    + rewrite Hp in Hs. now apply all_chars_append in Hs.
  - cbn in Hs. unfold no_blank in Hs at 1. rewrite Hb in Hs. discriminate.
Qed.

Lemma text_without_blanks_and_comments_is_unchanged_witness :
  preprocess "#1=FOO('a',#2,/1);" = "#1=FOO('a',#2,/1);".
Proof.
  apply (text_without_blanks_and_comments_is_unchanged "#1=FOO('a',#2,/1);");
    reflexivity.
Defined.

(** ** Lines *)

Lemma split_lines_aux_length cur s :
  List.length (split_lines_aux cur s) = S (count_newlines s).
Proof.
  revert cur. induction s as [|c s IH]; intros cur; [reflexivity|].
  cbn [split_lines_aux count_newlines weight]. unfold count_newlines in IH.
  unfold newline_weight at 1.
  destruct (Ascii.eqb c newline); cbn [List.length]; now rewrite IH.
Qed.

(** [split] on the newline gives one line more than there are newlines,
    so the text the parser reads has as many lines as the file. *)
Lemma split_lines_length s : List.length (split_lines s) = S (count_newlines s).
Proof. apply split_lines_aux_length. Qed.

Lemma preprocess_lines s :
  List.length (split_lines (preprocess s)) = List.length (split_lines s).
Proof.
  rewrite !split_lines_length. unfold preprocess.
  now rewrite remove_blanks_newlines, remove_comments_newlines.
Qed.

(** X10: When lark stops on a token it did not expect, at a line of the text
    it was given, [parse] raises the Syntax Error and the record of this
    error is built: the preprocessor keeps the line count, so the line
    number of lark is a line number of the file, and the record quotes
    that line of the file as it was before the preprocessor, together
    with lark's line and column, the kind of the token in lower case,
    its text, and the sorted names of the accepted terminals that do not
    hold [__ANON]. *)
Theorem unexpected_token_quotes_the_line_of_the_file `{LarkParser}
    filecontent with_progress line column tok accepts :
  parser_parse (preprocess filecontent) = inr (UnexpectedToken line column tok accepts) ->
  (1 <= line <= Z.of_nat (List.length (split_lines (preprocess filecontent))))%Z ->
  exists d,
    parse filecontent with_progress
    = Raise (SyntaxError filecontent (UnexpectedToken line column tok accepts)) /\
    asdict (SyntaxError filecontent (UnexpectedToken line column tok accepts)) = Ok d /\
    e_type d = "unexpected_token" /\
    e_lineno d = line /\
    e_column d = Some column /\
    e_found_type d = Some (lower (tok_type tok)) /\
    e_found_value d = Some (tok_value tok) /\
    nth_error (split_lines filecontent) (Z.to_nat (line - 1)) = Some (e_line d) /\
    exists expected,
      e_expected d = Some expected /\
      Sorted (fun a b => String.leb a b = true) expected /\
      (forall x, In x expected <-> In x accepts /\ contains "__ANON" x = false).
Proof.
  intros Hparse Hline. rewrite preprocess_lines in Hline.
  destruct (unexpected_token_record filecontent line column tok accepts Hline)
    as (d & Hd & Ht & Hl & Hc & Hft & Hfv & Hexp).
  exists d. split.
  { unfold parse. fold (preprocess filecontent). now rewrite Hparse. }
  split; [exact Hd|]. repeat (split; [assumption|]).
  split; [|exact Hexp].
  unfold asdict, SyntaxError_asdict, SyntaxError_str, SyntaxError_asdict_without_message in Hd.
  unfold py_index in Hd.
  destruct (Z.ltb_spec (line - 1) 0) as [Hn|_]; [lia|].
  destruct ((0 <=? line - 1)%Z && (line - 1 <? Z.of_nat (List.length (split_lines filecontent)))%Z)%bool;
    [|discriminate].
  destruct (nth_error (split_lines filecontent) (Z.to_nat (line - 1))) as [ln|];
    [|discriminate].
  cbn in Hd. injection Hd as <-. reflexivity.
Qed.

Lemma unexpected_token_quotes_the_line_of_the_file_witness :
  exists d,
    @parse literal_float token_rejecting_parser unexpected_token_file false
    = Raise (SyntaxError unexpected_token_file unexpected_token) /\
    asdict (SyntaxError unexpected_token_file unexpected_token) = Ok d /\
    e_type d = "unexpected_token" /\
    e_lineno d = 4%Z /\
    e_column d = Some 1%Z /\
    e_found_type d = Some "endsec" /\
    e_found_value d = Some "ENDSEC" /\
    nth_error (split_lines unexpected_token_file) 3 = Some (e_line d) /\
    exists expected,
      e_expected d = Some expected /\
      Sorted (fun a b => String.leb a b = true) expected /\
      (forall x, In x expected <-> In x ["SEMICOLON"] /\ contains "__ANON" x = false).
Proof.
  apply (@unexpected_token_quotes_the_line_of_the_file literal_float token_rejecting_parser
           unexpected_token_file false 4%Z 1%Z (Token "ENDSEC" "ENDSEC" 4) ["SEMICOLON"]).
  - reflexivity.
  - vm_compute. split; discriminate.
Defined.

(* ================================================================== *)
(** * The color of a node *)
(* ================================================================== *)

Section NodeColor.

Context `{TextWrap} `{SetOrder}.

Lemma table_color_is_not_empty kw c :
  dict_get NODE_COLOR kw = Some c -> (0 <? String.length c)%nat = true.
Proof.
  unfold NODE_COLOR. cbn [dict_get].
  repeat (destruct (kw =? _)%string; [intros [= <-]; reflexivity|]).
  discriminate.
Qed.

Lemma simple_entity_table_color kw rest color :
  color_len color = 0 ->
  exists name,
    simple_entity (BList (BStr kw :: rest)) color = Ok (name, table_color [kw] color).
Proof.
  intros Hc. unfold simple_entity. cbn [body_len body_index nth_error].
  unfold table_color. cbn [first_table_color].
  destruct (Nat.ltb_spec 1 (List.length (BStr kw :: rest))) as [Hl|Hl].
  - destruct rest as [|b1 rest]; [cbn in Hl; lia|]. cbn [nth_error rbind].
    rewrite Hc. cbn [Nat.eqb]. destruct (dict_get NODE_COLOR kw); eauto.
  - cbn [rbind]. rewrite Hc. cbn [Nat.eqb]. destruct (dict_get NODE_COLOR kw); eauto.
Qed.

Lemma complex_entity_table_color members title color :
  forallb simple_body members = true ->
  color_len color = 0 ->
  exists title',
    complex_entity members title color
    = Ok (title', table_color (flat_map keyword_of members) color).
Proof.
  revert title color. induction members as [|x members IH]; intros title color Hm Hc.
  - cbn. eauto.
  - cbn in Hm. apply andb_true_iff in Hm as [Hx Hm].
    destruct x as [s|[|[kw|items] rest]]; try discriminate.
    destruct (simple_entity_table_color kw rest color Hc) as (name & Hn).
    cbn [complex_entity]. rewrite Hn. cbn [rbind].
    cbn [flat_map keyword_of app].
    unfold table_color at 2. cbn [first_table_color].
    unfold table_color in Hn |- *. cbn [first_table_color] in *.
    destruct (dict_get NODE_COLOR kw) as [c|] eqn:Ec.
    + pose proof (table_color_is_not_empty kw c Ec) as Hlen.
      apply Nat.ltb_lt in Hlen.
      destruct (complex_entity_keeps_color members
                  (title ++ (if (0 <? String.length title)%nat then "<br>" else EmptyString)
                     ++ name) (ColStr c) Hm) as (t & Ht).
      * cbn. lia.
      * eauto.
    + destruct (IH (title ++ (if (0 <? String.length title)%nat then "<br>" else EmptyString)
                      ++ name)%string ColEmptyDict Hm eq_refl) as (t & Ht).
      exists t. rewrite Ht. unfold table_color.
      destruct (first_table_color (flat_map keyword_of members)); [reflexivity|].
      now destruct (flat_map keyword_of members).
Qed.

Lemma update_fresh_node n k f :
  has_node n k = false ->
  map (fun g => if (n_id g =? k)%string then f g else g) (nodes n) = nodes n.
Proof.
  unfold has_node. induction (nodes n) as [|g gs IH]; cbn; [reflexivity|].
  intros Hk. apply orb_false_iff in Hk as [Hg Hgs]. now rewrite Hg, IH.
Qed.

(** X11: A node that is not the first of the network, added without a forced
    color for an id of the index, takes the color [NODE_COLOR] gives to
    its keyword; a complex record takes the color of the first of its
    members that has one in the table.  When the table knows none of the
    keywords, no color is set.  The index and the edges stay as they
    are, and the node is appended after the others. *)
Theorem node_takes_the_first_color_of_the_table st node obj :
  num_nodes (net st) <> 0 ->
  has_node (net st) node = false ->
  dict_get (data st) node = Some [obj] ->
  record_body (BODY_TAG obj) = true ->
  exists st' title,
    add_node node EmptyString st = (Ok tt, st') /\
    data st' = data st /\
    edges (net st') = edges (net st) /\
    nodes (net st')
    = nodes (net st)
      ++ [ {| n_id := node; n_title := Some title;
              n_color := option_map ColStr (first_table_color (keywords_of (BODY_TAG obj))) |} ].
Proof.
  intros Hnum Hfresh Hget Hbody. unfold add_node, dd_getitem. rewrite Hget.
  cbn [String.length Nat.ltb Nat.leb].
  destruct (Nat.eqb_spec (num_nodes (net st)) 0) as [E|_]; [contradiction|].
  assert (Ht : exists title,
             node_title [obj] EmptyString (ColStr EmptyString)
             = Ok (title, table_color (keywords_of (BODY_TAG obj)) (ColStr EmptyString))).
  { cbn [node_title].
    destruct (BODY_TAG obj) as [s|[|[kw|members] rest]]; try discriminate.
    - cbn [body_index nth_error rbind keywords_of].
      destruct (simple_entity_table_color kw rest (ColStr EmptyString) eq_refl) as (name & ->).
      cbn [rbind]. eauto.
    - cbn [body_index nth_error rbind keywords_of]. cbn in Hbody.
      destruct (complex_entity_table_color members EmptyString (ColStr EmptyString)
                  Hbody eq_refl) as (t & ->).
      cbn [rbind]. eauto. }
  destruct Ht as (title & ->).
  exists {| net := net_update_node (net_add_node (net st) node) node title
                     (table_color (keywords_of (BODY_TAG obj)) (ColStr EmptyString));
            data := data st |}, title.
  split; [reflexivity|]. cbn [net data]. split; [reflexivity|].
  unfold net_add_node. rewrite Hfresh. unfold net_update_node. cbn [nodes edges].
  split; [reflexivity|].
  rewrite map_app, (update_fresh_node _ _ _ Hfresh). cbn [map n_id].
  rewrite String.eqb_refl. f_equal. f_equal. unfold set_options. cbn [n_id n_color].
  f_equal. unfold table_color.
  destruct (first_table_color (keywords_of (BODY_TAG obj))) as [c|] eqn:Ec.
  - cbn [option_map color_len].
    assert (Hlen : (0 <? String.length c)%nat = true).
    { clear - Ec. induction (keywords_of (BODY_TAG obj)) as [|kw kws IH]; [discriminate|].
      cbn [first_table_color] in Ec. destruct (dict_get NODE_COLOR kw) as [c'|] eqn:Ek; [|auto].
      injection Ec as ->. now apply (table_color_is_not_empty kw). }
    now rewrite Hlen.
  - cbn [option_map]. now destruct (keywords_of (BODY_TAG obj)).
Qed.

End NodeColor.

Lemma node_takes_the_first_color_of_the_table_witness :
  exists st' title,
    @add_node no_wrap "#2" EmptyString point_state = (Ok tt, st') /\
    data st' = data point_state /\
    edges (net st') = edges (net point_state) /\
    nodes (net st')
    = nodes (net point_state)
      ++ [ {| n_id := "#2"; n_title := Some title;
              n_color := Some (ColStr "lightgrey") |} ].
Proof.
  apply (@node_takes_the_first_color_of_the_table no_wrap point_state "#2" point_object).
  - discriminate.
  - reflexivity.
  - reflexivity.
  - reflexivity.
Defined.

(* ================================================================== *)
(** * The complete graph of an index with a dangling reference *)
(* ================================================================== *)

Section DanglingReference.

Context `{TextWrap}.

Lemma make_graph_complete_steps st :
  make_graph_complete st
  = match for_dict (fun node => add_node node EmptyString) st with
    | (Raise e, st1) => (Raise e, st1)
    | (Ok _, st1) => for_dict node_step st1
    end.
Proof. reflexivity. Qed.

Lemma has_node_add_node n k x :
  has_node (net_add_node n k) x = (has_node n x || (x =? k)%string)%bool.
Proof.
  unfold net_add_node. destruct (has_node n k) eqn:Hk.
  - destruct (String.eqb_spec x k) as [->|_]; [now rewrite Hk|now rewrite orb_false_r].
  - unfold has_node. cbn [nodes]. rewrite existsb_app. cbn.
    now rewrite orb_false_r, (String.eqb_sym k x).
Qed.

Lemma has_node_update n k title color x :
  has_node (net_update_node n k title color) x = has_node n x.
Proof.
  unfold has_node, net_update_node. cbn [nodes].
  induction (nodes n) as [|g gs IH]; [reflexivity|].
  cbn [map existsb]. rewrite IH. f_equal. now destruct (n_id g =? k)%string.
Qed.

(** [add_node] with the failure color on an id that is no key: the key
    is inserted with an empty list, the node is there afterwards. *)
Lemma add_failure_node ref st :
  dict_contains (data st) ref = false ->
  exists st',
    add_node ref FAILURE_NODE_COLOR st = (Ok tt, st') /\
    data st' = data st ++ [(ref, [])] /\
    forall x, has_node (net st') x = (has_node (net st) x || (x =? ref)%string)%bool.
Proof.
  intros Hd. apply dict_contains_false in Hd.
  unfold add_node, dd_getitem. rewrite Hd. cbn [node_title].
  eexists. split; [reflexivity|]. cbn [net data]. split; [reflexivity|].
  intros x. now rewrite has_node_update, has_node_add_node.
Qed.

Lemma dict_contains_app {V} (d : pydict V) k v x :
  dict_contains (d ++ [(k, v)]) x = (dict_contains d x || (x =? k)%string)%bool.
Proof.
  unfold dict_contains. rewrite dict_get_app.
  destruct (dict_get d x); [reflexivity|]. now destruct (x =? k)%string.
Qed.

Lemma edge_step_ok node ref st :
  keys_are_nodes st ->
  has_node (net st) node = true ->
  exists st',
    edge_step node ref st = (Ok tt, st') /\
    keys_are_nodes st' /\
    has_node (net st') node = true /\
    data st' = (if dict_contains (data st) ref then data st
                else data st ++ [(ref, [])]).
Proof.
  intros Hkeys Hnode. unfold edge_step.
  destruct (dict_contains (data st) ref) eqn:Hd; cbn [negb].
  - unfold add_edge, net_add_edge. rewrite Hnode, (Hkeys ref Hd). cbn [negb].
    eexists. split; [reflexivity|]. cbn [net data]. repeat split; auto.
  - destruct (add_failure_node ref st Hd) as (st1 & -> & Hd1 & Hn1).
    unfold add_edge, net_add_edge.
    rewrite (Hn1 node), (Hn1 ref), Hnode, String.eqb_refl, orb_true_r.
    cbn [negb orb].
    eexists. split; [reflexivity|]. cbn [net data]. repeat split.
    + intros k Hk. cbn [net data] in *. change (has_node (net st1) k = true).
      rewrite Hn1. rewrite Hd1, dict_contains_app in Hk.
      apply orb_true_iff in Hk as [Hk|Hk]; [|now rewrite Hk, orb_true_r].
      now rewrite (Hkeys k Hk).
    + change (has_node (net st1) node = true). now rewrite Hn1, Hnode.
    + exact Hd1.
Qed.

(** The loops over the objects of a node and over their refs return;
    the index grows by one key per id that was no key, and not at all
    when every ref is a key. *)
Lemma refs_loop_ok node refs st :
  keys_are_nodes st ->
  has_node (net st) node = true ->
  exists st',
    for_each refs (edge_step node) st = (Ok tt, st') /\
    keys_are_nodes st' /\
    has_node (net st') node = true /\
    List.length (data st) <= List.length (data st') /\
    (forallb (dict_contains (data st)) refs = true -> data st' = data st) /\
    (forallb (dict_contains (data st)) refs = false ->
     List.length (data st) < List.length (data st')).
Proof.
  revert st. induction refs as [|r refs IH]; intros st Hkeys Hnode.
  - exists st. cbn. repeat split; auto; discriminate.
  - cbn [for_each].
    destruct (edge_step_ok node r st Hkeys Hnode) as (st1 & -> & Hk1 & Hn1 & Hd1).
    destruct (IH st1 Hk1 Hn1) as (st' & -> & Hk' & Hn' & Hle & Hsame & Hgrow).
    exists st'. split; [reflexivity|]. split; [exact Hk'|]. split; [exact Hn'|].
    cbn [forallb].
    destruct (dict_contains (data st) r) eqn:Hr.
    + rewrite Hd1 in *. cbn [andb]. repeat split; auto.
    + rewrite Hd1, length_app in *. cbn [List.length andb] in *.
      repeat split; try discriminate; lia.
Qed.

Lemma objects_loop_ok node objects st :
  keys_are_nodes st ->
  has_node (net st) node = true ->
  exists st',
    for_each objects (fun obj => for_each (REFS_TAG obj) (edge_step node)) st
    = (Ok tt, st') /\
    keys_are_nodes st' /\
    has_node (net st') node = true /\
    List.length (data st) <= List.length (data st') /\
    (forallb (dict_contains (data st)) (flat_map REFS_TAG objects) = true ->
     data st' = data st) /\
    (forallb (dict_contains (data st)) (flat_map REFS_TAG objects) = false ->
     List.length (data st) < List.length (data st')).
Proof.
  revert st. induction objects as [|o objects IH]; intros st Hkeys Hnode.
  - exists st. cbn. repeat split; auto; discriminate.
  - cbn [for_each flat_map].
    destruct (refs_loop_ok node (REFS_TAG o) st Hkeys Hnode)
      as (st1 & -> & Hk1 & Hn1 & Hle1 & Hsame1 & Hgrow1).
    destruct (IH st1 Hk1 Hn1) as (st' & -> & Hk' & Hn' & Hle & Hsame & Hgrow).
    exists st'. split; [reflexivity|]. split; [exact Hk'|]. split; [exact Hn'|].
    split; [lia|]. rewrite forallb_app.
    destruct (forallb (dict_contains (data st)) (REFS_TAG o)) eqn:Ho; cbn [andb].
    + specialize (Hsame1 eq_refl). rewrite Hsame1 in *. split; auto.
    + specialize (Hgrow1 eq_refl). split; [discriminate|]. intros _. lia.
Qed.

Lemma for_dict_keys_grown size keys body st :
  size < List.length (data st) ->
  for_dict_keys size keys body st = (Raise RuntimeError, st).
Proof.
  intros Hlen.
  assert (E : (List.length (data st) =? size)%nat = false) by (apply Nat.eqb_neq; lia).
  destruct keys; cbn [for_dict_keys]; now rewrite E.
Qed.

Lemma second_loop_dangling d keys st :
  data st = d ->
  incl keys (dict_keys d) ->
  keys_are_nodes st ->
  (exists k objects,
     In k keys /\ dict_get d k = Some objects /\
     forallb (dict_contains d) (flat_map REFS_TAG objects) = false) ->
  exists st',
    for_dict_keys (List.length d) keys node_step st = (Raise RuntimeError, st') /\
    List.length d < List.length (data st').
Proof.
  revert st. induction keys as [|k keys IH]; intros st Hd Hincl Hkeys Hdangling.
  - destruct Hdangling as (k & objects & [] & _).
  - cbn [for_dict_keys]. rewrite Hd, Nat.eqb_refl. cbn [negb].
    assert (Hk : dict_contains d k = true).
    { apply dict_contains_keys, Hincl. now left. }
    pose proof Hk as Hget. unfold dict_contains in Hget.
    destruct (dict_get d k) as [objects|] eqn:Eget; [clear Hget|discriminate].
    unfold node_step at 1, dd_getitem. rewrite Hd, Eget.
    destruct (objects_loop_ok k objects {| net := net st; data := d |})
      as (st1 & -> & Hk1 & Hn1 & Hle & Hsame & Hgrow).
    { intros x Hx. cbn [net data] in *. apply Hkeys. now rewrite Hd. }
    { cbn [net]. apply Hkeys. now rewrite Hd. }
    cbn [data] in Hle, Hsame, Hgrow.
    destruct (forallb (dict_contains d) (flat_map REFS_TAG objects)) eqn:Hall.
    + apply IH; auto.
      * intros x Hx. apply Hincl. now right.
      * destruct Hdangling as (k' & objects' & [<-|Hin] & Hget' & Hall'); [|eauto 6].
        rewrite Eget in Hget'. injection Hget' as <-. congruence.
    + specialize (Hgrow eq_refl). exists st1. split; [|exact Hgrow].
      now apply for_dict_keys_grown.
Qed.

Lemma dangling_entry d r :
  NoDup (dict_keys d) ->
  dangling d r ->
  exists k objects,
    In k (dict_keys d) /\ dict_get d k = Some objects /\
    forallb (dict_contains d) (flat_map REFS_TAG objects) = false.
Proof.
  intros Hnd [Hin Hr]. unfold refs_of_data in Hin.
  apply in_flat_map in Hin as ([k objects] & Hentry & Hrefs). cbn [snd] in Hrefs.
  exists k, objects. split; [|split].
  - change k with (fst (k, objects)). unfold dict_keys. now apply in_map.
  - now apply dict_get_NoDup.
  - destruct (forallb (dict_contains d) (flat_map REFS_TAG objects)) eqn:Hall; [|reflexivity].
    rewrite forallb_forall in Hall. rewrite (Hall r Hrefs) in Hr. discriminate.
Qed.

Lemma complete_build_dangling d r :
  NoDup (dict_keys d) ->
  records_only d ->
  dangling d r ->
  exists st,
    make_graph_complete {| net := empty_network; data := d |} = (Raise RuntimeError, st) /\
    List.length d < List.length (data st).
Proof.
  intros Hnd Hrec Hdang. rewrite make_graph_complete_steps. unfold for_dict. cbn [data].
  destruct (first_loop_indexed d (List.length d) (dict_keys d)
              {| net := empty_network; data := d |} Hrec eq_refl eq_refl
              (incl_refl _) Hnd) as (st1 & -> & Hd1 & He1 & Hn1).
  { intros k _. reflexivity. }
  cbn [net empty_network nodes map app] in Hn1. rewrite Hd1.
  apply second_loop_dangling.
  - exact Hd1.
  - apply incl_refl.
  - intros k Hk. rewrite Hd1 in Hk. apply has_node_ids. rewrite Hn1.
    now apply dict_contains_keys.
  - now apply (dangling_entry d r).
Qed.

(** X14: On an index whose bodies are records and in which some reference
    dangles, the complete-graph mode never returns a graph: the failure
    node of a dangling id adds a key to the index while the loop over
    the index is running, and the loop raises [RuntimeError] when it
    asks for the next key; the index is left with more keys than it
    had. *)
Theorem complete_graph_raises_on_a_dangling_reference d r :
  NoDup (dict_keys d) ->
  records_only d ->
  dangling d r ->
  exists st,
    make_graph_complete {| net := empty_network; data := d |} = (Raise RuntimeError, st) /\
    List.length d < List.length (data st).
Proof. exact (complete_build_dangling d r). Qed.

End DanglingReference.

Lemma complete_graph_raises_on_a_dangling_reference_witness :
  exists st,
    @make_graph_complete no_wrap
      {| net := empty_network; data := index_of dangling_section |}
    = (Raise RuntimeError, st) /\
    List.length (index_of dangling_section) < List.length (data st).
Proof.
  apply (@complete_graph_raises_on_a_dangling_reference no_wrap
           (index_of dangling_section) "#2").
  - vm_compute. repeat constructor; cbn; intuition discriminate.
  - intros k objects Hin. vm_compute in Hin.
    destruct Hin as [[= <- <-]|[]]; reflexivity.
  - split; [vm_compute; now left|reflexivity].
Defined.

(* ================================================================== *)
(** * The rooted graph is the part of the index the root reaches *)
(* ================================================================== *)

Section ReachablePart.

Context `{TextWrap} `{SetOrder}.

Lemma set_add_NoDup (s : pyset) x : NoDup s -> NoDup (set_add s x).
Proof.
  intros Hs. unfold set_add. destruct (existsb (String.eqb x) s) eqn:E; [exact Hs|].
  apply NoDup_app; [exact Hs|repeat constructor; intros []|].
  intros y Hy [<-|[]].
  assert (Hex : existsb (String.eqb x) s = true).
  { apply existsb_exists. exists x. split; [exact Hy|apply String.eqb_refl]. }
  congruence.
Qed.

Lemma nodes_add_last (visited : pydict pyset) curr (s : pyset) ref :
  dict_get visited curr = None ->
  nodes_add (visited ++ [(curr, s)]) curr ref = visited ++ [(curr, set_add s ref)].
Proof.
  intros Hget. unfold nodes_add, dd_getitem, pyset in *.
  rewrite (dict_get_app_fresh visited curr s Hget).
  now apply dict_set_app_fresh.
Qed.

(** The refs of a fresh entry of [nodes] after the two loops over the
    objects of [curr_entity]: a set of exactly the refs of the objects. *)
Lemma collect_refs_last curr objects (visited : pydict pyset) (s0 waiting : pyset) :
  dict_get visited curr = None ->
  NoDup s0 ->
  exists s : pyset,
    fst (collect_refs curr objects (visited ++ [(curr, s0)]) waiting)
    = visited ++ [(curr, s)] /\
    NoDup s /\
    forall r, In r s <-> In r s0 \/ In r (flat_map REFS_TAG objects).
Proof.
  intros Hget. unfold collect_refs. revert s0 waiting.
  assert (Hinner : forall refs (s0 waiting : pyset),
    NoDup s0 ->
    exists s : pyset,
      fst (fold_left
             (fun acc ref => (nodes_add (fst acc) curr ref, set_add (snd acc) ref))
             refs (visited ++ [(curr, s0)], waiting))
      = visited ++ [(curr, s)] /\
      NoDup s /\
      forall r, In r s <-> In r s0 \/ In r refs).
  { induction refs as [|x refs IHr]; intros s0 waiting Hs0; cbn [fold_left fst snd].
    - exists s0. split; [reflexivity|]. split; [exact Hs0|]. cbn. intuition.
    - rewrite (nodes_add_last visited curr s0 x Hget).
      destruct (IHr (set_add s0 x) (set_add waiting x) (set_add_NoDup s0 x Hs0))
        as (s & E & Hs & Hin).
      exists s. split; [exact E|]. split; [exact Hs|].
      intros r. rewrite Hin, set_add_In. cbn. intuition. }
  induction objects as [|o objects IH]; intros s0 waiting Hs0; cbn [fold_left].
  - exists s0. split; [reflexivity|]. split; [exact Hs0|]. cbn. intuition.
  - destruct (Hinner (REFS_TAG o) s0 waiting Hs0) as (s1 & E & Hs1 & Hin1).
    destruct (fold_left _ (REFS_TAG o) (_, waiting)) as [visited1 waiting1].
    cbn [fst] in E. subst visited1.
    destruct (IH s1 waiting1 Hs1) as (s & E2 & Hs & Hin).
    exists s. split; [exact E2|]. split; [exact Hs|].
    intros r. rewrite Hin, Hin1. cbn [flat_map]. rewrite in_app_iff. intuition.
Qed.

Lemma add_fresh_node k force_color st objects :
  has_node (net st) k = false ->
  dict_get (data st) k = Some objects ->
  forallb (fun o => record_body (BODY_TAG o)) objects = true ->
  exists st' g,
    add_node k force_color st = (Ok tt, st') /\
    data st' = data st /\
    edges (net st') = edges (net st) /\
    nodes (net st') = nodes (net st) ++ [g] /\
    n_id g = k.
Proof.
  intros Hfresh Hget Hobjects. unfold add_node, dd_getitem. rewrite Hget.
  destruct (node_title_returns objects EmptyString
              (ColStr (if (0 <? String.length force_color)%nat then force_color
                       else if (num_nodes (net st) =? 0)%nat then ENTRY_NODE_COLOR
                            else EmptyString)) Hobjects) as (title & color & ->).
  eexists. eexists. split; [reflexivity|]. cbn [data net].
  unfold net_add_node. rewrite Hfresh. unfold net_update_node. cbn [nodes edges].
  split; [reflexivity|]. split; [reflexivity|].
  rewrite map_app, (update_fresh_node _ _ _ Hfresh). cbn [map n_id].
  rewrite String.eqb_refl. split; reflexivity.
Qed.

Lemma add_fresh_failure_node k st :
  has_node (net st) k = false ->
  dict_get (data st) k = None ->
  exists st',
    add_node k FAILURE_NODE_COLOR st = (Ok tt, st') /\
    data st' = data st ++ [(k, [])] /\
    edges (net st') = edges (net st) /\
    nodes (net st')
    = nodes (net st)
      ++ [ {| n_id := k; n_title := Some EmptyString;
              n_color := Some (ColStr FAILURE_NODE_COLOR) |} ].
Proof.
  intros Hfresh Hget. unfold add_node, dd_getitem. rewrite Hget. cbn [node_title].
  eexists. split; [reflexivity|]. cbn [data net].
  unfold net_add_node. rewrite Hfresh. unfold net_update_node. cbn [nodes edges].
  split; [reflexivity|]. split; [reflexivity|].
  rewrite map_app, (update_fresh_node _ _ _ Hfresh). cbn [map n_id].
  now rewrite String.eqb_refl.
Qed.

Lemma add_first_node k st objects :
  nodes (net st) = [] ->
  dict_get (data st) k = Some objects ->
  forallb (fun o => record_body (BODY_TAG o)) objects = true ->
  exists st' title,
    add_node k EmptyString st = (Ok tt, st') /\
    data st' = data st /\
    edges (net st') = edges (net st) /\
    nodes (net st')
    = [ {| n_id := k; n_title := Some title;
           n_color := Some (ColStr ENTRY_NODE_COLOR) |} ].
Proof.
  intros Hempty Hget Hobjects. unfold add_node, dd_getitem, num_nodes.
  rewrite Hget, Hempty. cbn [String.length Nat.ltb Nat.leb List.length Nat.eqb].
  destruct (node_title_keeps_color objects EmptyString (ColStr ENTRY_NODE_COLOR) Hobjects)
    as (title & ->); [discriminate|].
  eexists. exists title. split; [reflexivity|]. cbn [data net].
  unfold net_add_node, has_node. rewrite Hempty. cbn [existsb].
  unfold net_update_node. cbn [nodes edges map app n_id].
  rewrite String.eqb_refl. repeat split.
Qed.

Lemma dict_keys_last {V} (d : pydict V) k v :
  dict_keys (d ++ [(k, v)]) = dict_keys d ++ [k].
Proof. unfold dict_keys. now rewrite map_app. Qed.

Section Index.

Variable d : pydict (list object).
Variable root : string.
Hypothesis d_records : records_only d.

Lemma refers_get a objects r :
  dict_get d a = Some objects -> (refers d a r <-> In r (flat_map REFS_TAG objects)).
Proof.
  intros Hget. split.
  - intros (objects' & Hget' & Hr). congruence.
  - intros Hr. now exists objects.
Qed.

Lemma refers_none a r : dict_get d a = None -> ~ refers d a r.
Proof. intros Hget (objects & Hget' & _). congruence. Qed.

Lemma visit_entity_bfs curr (visited : pydict pyset) pending (waiting : pyset) st :
  bfs_state d root visited (curr :: pending) waiting st ->
  exists (visited' : pydict pyset) (waiting' : pyset) st',
    visit_entity curr visited waiting st = (Ok (visited', waiting'), st') /\
    bfs_state d root visited' pending waiting' st'.
Proof.
  intros Hst. unfold visit_entity.
  destruct (dict_contains visited curr) eqn:Hc.
  { exists visited, waiting, st. split; [reflexivity|].
    apply dict_contains_keys in Hc.
    destruct Hst as [Hindex Hfailed Habsent Hnodes Hedges Hcolors Hdistinct Hsets
                    Hreached Hclosed Hroot Hstart Hfirst]. constructor; auto.
    - intros k [Hk|[Hk|Hk]]; apply Hreached; auto. right. left. now right.
    - intros k r Hk Hr. destruct (Hclosed k r Hk Hr) as [Hv|[[<-|Hp]|Hw]]; auto.
    - destruct Hroot as [Hv|[[<-|Hp]|Hw]]; auto.
    - intros E. subst visited. destruct Hc. }
  pose proof (dict_contains_false _ _ Hc) as Hvget.
  assert (Hnotin : ~ In curr (dict_keys visited)).
  { intros Hin. apply dict_contains_keys in Hin. congruence. }
  assert (Hfresh : has_node (net st) curr = false).
  { destruct (has_node (net st) curr) eqn:Hh; [|reflexivity].
    apply has_node_ids in Hh. rewrite (bfs_nodes _ _ _ _ _ _ Hst) in Hh. contradiction. }
  assert (Hreach : reachable d root curr).
  { apply (bfs_reached _ _ _ _ _ _ Hst). right. left. now left. }
  unfold pyset in *.
  assert (Hnew : snd (dd_getitem (V:=list string) [] visited curr) = visited ++ [(curr, [])])
    by (unfold dd_getitem; now rewrite Hvget).
  rewrite !Hnew.
  destruct (dict_get d curr) as [objects|] eqn:Hd.
  - pose proof (bfs_index _ _ _ _ _ _ Hst curr objects Hd) as Hget.
    unfold dict_contains. rewrite Hget.
    destruct (add_fresh_node curr EmptyString st objects Hfresh Hget)
      as (st1 & g & Hadd & Hd1 & He1 & Hn1 & Hg).
    { apply (d_records curr). now apply dict_get_In. }
    rewrite Hadd.
    unfold dd_getitem. rewrite Hd1, Hget.
    destruct (collect_refs_last curr objects visited [] waiting Hvget (NoDup_nil _))
      as (s & Es & Hs & Hins).
    destruct (collect_refs_In curr objects (visited ++ [(curr, [])]) waiting) as [W _].
    unfold pyset in *.
    destruct (collect_refs curr objects (visited ++ [(curr, [])]) waiting)
      as [visited2 waiting2].
    cbn [fst snd] in Es, W. subst visited2.
    exists (visited ++ [(curr, s)]), waiting2, {| net := net st1; data := data st |}.
    split; [reflexivity|].
    destruct Hst as [Hindex Hfailed Habsent Hnodes Hedges Hcolors Hdistinct Hsets
                    Hreached Hclosed Hroot Hstart Hfirst]. constructor; cbn [net data]; rewrite ?dict_keys_last.
    + exact Hindex.
    + intros k Hk Hin. apply in_app_or in Hin as [Hin|[<-|[]]]; [auto|congruence].
    + intros k Hk Hin. apply Habsent; [exact Hk|]. intros Hv. apply Hin.
      apply in_or_app. now left.
    + rewrite Hn1, map_app, Hnodes. cbn. now rewrite Hg.
    + now rewrite He1.
    + intros g' Hg' Hcol. rewrite Hn1 in Hg'.
      apply in_app_or in Hg' as [Hg'|[<-|[]]]; [auto|].
      rewrite Hg in Hcol. unfold dict_contains in Hcol. rewrite Hd in Hcol. discriminate.
    + apply NoDup_app; [exact Hdistinct|repeat constructor; intros []|].
      intros x Hx [<-|[]]. contradiction.
    + intros k s' Hin. apply in_app_or in Hin as [Hin|[[= <- <-]|[]]]; [auto|].
      split; [exact Hs|]. intros r. rewrite Hins, (refers_get curr objects r Hd).
      cbn. intuition.
    + intros k [Hk|[Hk|Hk]].
      * apply in_app_or in Hk as [Hk|[<-|[]]]; auto.
      * apply Hreached. right. left. now right.
      * apply W in Hk as [Hk|Hk]; [auto|].
        apply (reach_step d root curr k Hreach). now exists objects.
    + intros k r Hk Hr. apply in_app_or in Hk as [Hk|[<-|[]]].
      * destruct (Hclosed k r Hk Hr) as [Hv|[[<-|Hp]|Hw]].
        -- left. apply in_or_app. now left.
        -- left. apply in_or_app. right. now left.
        -- right. now left.
        -- right. right. apply W. now left.
      * right. right. apply W. right. now apply (refers_get curr objects r Hd).
    + destruct Hroot as [Hv|[[<-|Hp]|Hw]].
      * left. apply in_or_app. now left.
      * left. apply in_or_app. right. now left.
      * right. now left.
      * right. right. apply W. now left.
    + intros E. now destruct visited.
    + intros k s' rest Hv. destruct visited as [|[k0 s0] rest0].
      * cbn [app] in Hv. injection Hv as <- _ _.
        assert (Hcurr : curr = root) by (apply Hstart; [reflexivity|left; now left]).
        split; [exact Hcurr|]. intros _. clear Hg. subst curr.
        destruct (add_first_node root st objects) as (st2 & title & Ha & _ & _ & Hn2).
        { apply (f_equal (@List.length _)) in Hnodes. rewrite length_map in Hnodes.
          now destruct (nodes (net st)). }
        { exact Hget. }
        { apply (d_records root). now apply dict_get_In. }
        rewrite Ha in Hadd. injection Hadd as Est. subst st2.
        unfold first_is_entry. rewrite Hn2.
        eexists. eexists. split; [reflexivity|]. split; reflexivity.
      * cbn [app] in Hv. injection Hv as <- _ _.
        destruct (Hfirst k0 s0 rest0 eq_refl) as [Hk0 Hentry].
        split; [exact Hk0|]. intros Hroot'.
        destruct (Hentry Hroot') as (g0 & others & Hn0 & Hid & Hcol).
        unfold first_is_entry. rewrite Hn1, Hn0. exists g0, (others ++ [g]). now split.
  - pose proof (bfs_absent _ _ _ _ _ _ Hst curr Hd Hnotin) as Hget.
    unfold dict_contains. rewrite Hget.
    destruct (add_fresh_failure_node curr st Hfresh Hget) as (st1 & -> & Hd1 & He1 & Hn1).
    exists (visited ++ [(curr, [])]), waiting, st1.
    split; [reflexivity|].
    destruct Hst as [Hindex Hfailed Habsent Hnodes Hedges Hcolors Hdistinct Hsets
                    Hreached Hclosed Hroot Hstart Hfirst]. constructor; rewrite ?dict_keys_last.
    + intros k v Hk. rewrite Hd1, dict_get_app. now rewrite (Hindex k v Hk).
    + intros k Hk Hin. rewrite Hd1, dict_get_app.
      apply in_app_or in Hin as [Hin|[<-|[]]].
      * now rewrite (Hfailed k Hk Hin).
      * now rewrite Hget, String.eqb_refl.
    + intros k Hk Hin. rewrite Hd1, dict_get_app.
      rewrite Habsent; [|exact Hk|intros Hv; apply Hin, in_or_app; now left].
      destruct (String.eqb_spec k curr) as [->|_]; [|reflexivity].
      exfalso. apply Hin, in_or_app. right. now left.
    + rewrite Hn1, map_app, Hnodes. reflexivity.
    + now rewrite He1.
    + intros g' Hg' Hcol. rewrite Hn1 in Hg'.
      apply in_app_or in Hg' as [Hg'|[<-|[]]]; [auto|reflexivity].
    + apply NoDup_app; [exact Hdistinct|repeat constructor; intros []|].
      intros x Hx [<-|[]]. contradiction.
    + intros k s' Hin. apply in_app_or in Hin as [Hin|[[= <- <-]|[]]]; [auto|].
      split; [constructor|]. intros r. split; [intros []|].
      intros Hr. now apply (refers_none curr r Hd).
    + intros k [Hk|[Hk|Hk]]; auto.
      * apply in_app_or in Hk as [Hk|[<-|[]]]; auto.
      * apply Hreached. right. left. now right.
    + intros k r Hk Hr. apply in_app_or in Hk as [Hk|[<-|[]]].
      * destruct (Hclosed k r Hk Hr) as [Hv|[[<-|Hp]|Hw]]; auto.
        -- left. apply in_or_app. now left.
        -- left. apply in_or_app. right. now left.
      * now apply (refers_none curr r Hd) in Hr.
    + destruct Hroot as [Hv|[[<-|Hp]|Hw]]; auto.
      * left. apply in_or_app. now left.
      * left. apply in_or_app. right. now left.
    + intros E. now destruct visited.
    + intros k s' rest Hv. destruct visited as [|[k0 s0] rest0].
      * cbn [app] in Hv. injection Hv as <- _ _.
        assert (Hcurr : curr = root) by (apply Hstart; [reflexivity|left; now left]).
        split; [exact Hcurr|]. subst curr. unfold dict_contains. now rewrite Hd.
      * cbn [app] in Hv. injection Hv as <- _ _.
        destruct (Hfirst k0 s0 rest0 eq_refl) as [Hk0 Hentry].
        split; [exact Hk0|]. intros Hroot'.
        destruct (Hentry Hroot') as (g0 & others & Hn0 & Hid & Hcol).
        unfold first_is_entry. rewrite Hn1, Hn0.
        eexists. eexists. split; [reflexivity|]. now split.
Qed.

Lemma visit_entities_bfs pending :
  forall (visited : pydict pyset) (waiting : pyset) st,
    bfs_state d root visited pending waiting st ->
    exists (visited' : pydict pyset) (waiting' : pyset) st',
      visit_entities pending visited waiting st = (Ok (visited', waiting'), st') /\
      bfs_state d root visited' [] waiting' st'.
Proof.
  induction pending as [|curr pending IH]; intros visited waiting st Hst.
  - exists visited, waiting, st. now split.
  - destruct (visit_entity_bfs curr visited pending waiting st Hst)
      as (visited1 & waiting1 & st1 & Hv & Hst1).
    destruct (IH visited1 waiting1 st1 Hst1) as (visited' & waiting' & st' & Hvs & Hst').
    exists visited', waiting', st'. split; [|exact Hst'].
    cbn [visit_entities]. now rewrite Hv.
Qed.

(** The set of the ids to visit next becomes the list of the next turn
    of the loop, in the order the set is iterated in. *)
Lemma bfs_next_turn (visited : pydict pyset) (waiting : pyset) st :
  bfs_state d root visited [] waiting st ->
  bfs_state d root visited (set_iter waiting) [] st.
Proof.
  intros [Hindex Hfailed Habsent Hnodes Hedges Hcolors Hdistinct Hsets
          Hreached Hclosed Hroot Hstart Hfirst].
  assert (Hperm : forall x, In x (set_iter waiting) <-> In x waiting).
  { intros x. split; apply Permutation_in;
      [apply set_iter_perm|apply Permutation_sym, set_iter_perm]. }
  constructor; auto.
  - intros k [Hk|[Hk|[]]]; apply Hreached; auto. right. right. now apply Hperm.
  - intros k r Hk Hr. destruct (Hclosed k r Hk Hr) as [Hv|[[]|Hw]]; auto.
    right. left. now apply Hperm.
  - destruct Hroot as [Hv|[[]|Hw]]; auto. right. left. now apply Hperm.
  - intros E k [Hk|[]]. apply (Hstart E). right. now apply Hperm.
Qed.

Lemma traverse_refs_bfs universe fuel :
  forall (visited : pydict pyset) (waiting : pyset) st,
    traversal_ok universe visited waiting st ->
    bfs_state d root visited [] waiting st ->
    List.length universe - List.length (dict_keys visited) < fuel ->
    exists (visited' : pydict pyset) st',
      traverse_refs fuel visited waiting st = Some (Ok visited', st') /\
      bfs_state d root visited' [] [] st'.
Proof.
  induction fuel as [|fuel IH]; intros visited waiting st Hok Hst Hfuel; [lia|].
  destruct waiting as [|w waiting]; [cbn; eauto|].
  cbn [traverse_refs].
  destruct (visit_entities_bfs (set_iter (w :: waiting)) visited [] st
              (bfs_next_turn _ _ _ Hst))
    as (visited' & waiting' & st' & Hv & Hst').
  rewrite Hv.
  destruct Hok as (Hnd & Hvis & Hw & Hr).
  destruct (visit_entities_ok universe _ _ _ _ _ _ _
              (fun x Hx => Hw x (Permutation_in x (set_iter_perm _) Hx))
              (conj Hnd (conj Hvis (conj (fun x (Hx : In x []) => match Hx with end) Hr)))
              Hv) as (Hok' & Hle & Hgrow).
  destruct Hgrow as [->|Hlt]; [rewrite traverse_refs_done; eauto|].
  apply IH; [exact Hok'|exact Hst'|].
  destruct Hok' as (Hnd' & Hvis' & _).
  pose proof (NoDup_incl_length Hnd' Hvis'). unfold pyset in *. lia.
Qed.

End Index.

Lemma add_edges_of_node node refs st :
  has_node (net st) node = true ->
  (forall r, In r refs -> has_node (net st) r = true) ->
  exists st',
    for_each refs (fun ref => add_edge node ref) st = (Ok tt, st') /\
    data st' = data st /\
    nodes (net st') = nodes (net st) /\
    edges (net st') = edges (net st) ++ map (pair node) refs.
Proof.
  revert st. induction refs as [|r refs IH]; intros st Hnode Hrefs.
  - exists st. cbn. now rewrite app_nil_r.
  - cbn [for_each]. unfold add_edge at 1, net_add_edge.
    rewrite Hnode, (Hrefs r (or_introl eq_refl)). cbn [negb].
    destruct (IH {| net := {| nodes := nodes (net st);
                              edges := edges (net st) ++ [(node, r)] |};
                    data := data st |}) as (st' & -> & Hd' & Hn' & He').
    + exact Hnode.
    + intros x Hx. exact (Hrefs x (or_intror Hx)).
    + exists st'. repeat split; auto.
      rewrite He'. cbn [net edges map]. now rewrite <- app_assoc.
Qed.

Lemma add_edges_of_nodes (entries : pydict pyset) st :
  (forall k s, In (k, s) entries ->
     has_node (net st) k = true /\ forall r, In r s -> has_node (net st) r = true) ->
  exists st',
    for_each entries
      (fun kv => for_each (set_iter (snd kv)) (fun ref => add_edge (fst kv) ref)) st
    = (Ok tt, st') /\
    data st' = data st /\
    nodes (net st') = nodes (net st) /\
    edges (net st') = edges (net st) ++ edges_of_nodes entries.
Proof.
  revert st. induction entries as [|[k s] entries IH]; intros st Hentries.
  - exists st. cbn. now rewrite app_nil_r.
  - cbn [for_each fst snd].
    destruct (Hentries k s (or_introl eq_refl)) as [Hk Hs].
    destruct (add_edges_of_node k (set_iter s) st Hk) as (st1 & -> & Hd1 & Hn1 & He1).
    { intros r Hr. apply Hs. exact (Permutation_in r (set_iter_perm _) Hr). }
    destruct (IH st1) as (st' & -> & Hd' & Hn' & He').
    + intros k' s' Hin. unfold has_node. rewrite Hn1.
      exact (Hentries k' s' (or_intror Hin)).
    + exists st'. split; [reflexivity|]. split; [now rewrite Hd', Hd1|].
      split; [now rewrite Hn', Hn1|].
      rewrite He', He1. unfold edges_of_nodes. cbn [flat_map fst snd].
      now rewrite <- app_assoc.
Qed.

Lemma edges_of_nodes_In (visited : pydict pyset) a b :
  In (a, b) (edges_of_nodes visited) <-> exists s, In (a, s) visited /\ In b s.
Proof.
  unfold edges_of_nodes. rewrite in_flat_map. split.
  - intros ([k s] & Hin & Hb). cbn [fst snd] in Hb.
    apply in_map_iff in Hb as (r & [= <- <-] & Hr).
    exists s. split; [exact Hin|]. exact (Permutation_in r (set_iter_perm _) Hr).
  - intros (s & Hin & Hb). exists (a, s). split; [exact Hin|]. cbn [fst snd].
    apply in_map. exact (Permutation_in b (Permutation_sym (set_iter_perm _)) Hb).
Qed.

Lemma pair_NoDup (k : string) (l : list string) : NoDup l -> NoDup (map (pair k) l).
Proof.
  induction 1 as [|x l Hx _ IH]; cbn; constructor; [|exact IH].
  intros Hin. apply in_map_iff in Hin as (y & [= ->] & Hy). contradiction.
Qed.

Lemma edges_of_nodes_NoDup (visited : pydict pyset) :
  NoDup (dict_keys visited) ->
  (forall k s, In (k, s) visited -> NoDup s) ->
  NoDup (edges_of_nodes visited).
Proof.
  induction visited as [|[k s] visited IH]; intros Hnd Hsets; [constructor|].
  cbn [dict_keys map fst] in Hnd. inversion Hnd as [|? ? Hnotin Hnd']; subst.
  change (edges_of_nodes ((k, s) :: visited))
    with (map (pair k) (set_iter s) ++ edges_of_nodes visited).
  apply NoDup_app.
  - apply pair_NoDup.
    apply (Permutation_NoDup (Permutation_sym (set_iter_perm s))).
    apply (Hsets k s). now left.
  - apply IH; [exact Hnd'|]. intros k' s' Hin. apply (Hsets k' s'). now right.
  - intros [a b] Ha Hb. apply in_map_iff in Ha as (r & [= <- <-] & _).
    apply edges_of_nodes_In in Hb as (s' & Hin & _).
    apply Hnotin. change k with (fst (k, s')). now apply in_map.
Qed.

(** The build as a whole: the traversal returns the dictionary [nodes]
    in a state of the invariant, and the last loop adds its edges. *)
Lemma rooted_build d root fuel :
  records_only d ->
  traversal_bound d <= fuel ->
  exists (visited : pydict pyset) st1 st,
    bfs_state d root visited [] [] st1 /\
    make_graph_entity fuel root {| net := empty_network; data := d |} = Some (Ok tt, st) /\
    data st = data st1 /\
    nodes (net st) = nodes (net st1) /\
    edges (net st) = edges_of_nodes visited.
Proof.
  intros Hrec Hfuel. unfold make_graph_entity.
  destruct (traverse_refs_bfs d root Hrec (root :: refs_of_data d) fuel [] [root]
              {| net := empty_network; data := d |}) as (visited & st1 & -> & Hst1).
  - repeat split.
    + constructor.
    + intros x [].
    + intros x [<-|[]]. now left.
    + cbn [data]. apply incl_tl, incl_refl.
  - constructor; cbn [net data empty_network nodes edges dict_keys map].
    + auto.
    + intros k _ [].
    + auto.
    + reflexivity.
    + reflexivity.
    + intros g [].
    + constructor.
    + intros k s [].
    + intros k [[]|[[]|[<-|[]]]]. constructor.
    + intros k r [].
    + right. right. now left.
    + intros _ k [[]|[<-|[]]]. reflexivity.
    + intros k s rest [=].
  - unfold traversal_bound in Hfuel. cbn. lia.
  - pose proof Hst1 as [_ _ _ Hnodes Hedges _ _ Hsets _ Hclosed _ _ _].
    destruct (add_edges_of_nodes visited st1) as (st & -> & Hd & Hn & He).
    { intros k s Hin.
      assert (Hk : In k (dict_keys visited)).
      { change k with (fst (k, s)). unfold dict_keys. now apply in_map. }
      split.
      - apply has_node_ids. now rewrite Hnodes.
      - intros r Hr. apply has_node_ids. rewrite Hnodes.
        destruct (Hclosed k r Hk) as [Hv|[[]|[]]]; [|exact Hv].
        now apply (Hsets k s Hin). }
    exists visited, st1, st. rewrite He, Hedges.
    split; [exact Hst1|]. split; [reflexivity|]. split; [exact Hd|].
    split; [exact Hn|reflexivity].
Qed.

(** X15: The graph rooted at [root], for any index whose bodies are bodies
    of records and any order of iteration over a set: with enough turns
    of the loop the build returns; the nodes are the ids [root] reaches
    along references, each one once; the edges are the pairs of a
    reached id and an id it refers to, each one once, however often the
    reference occurs; a reached id that is no key of the index is a node
    colored failure, and is a key with an empty list afterwards; the
    other entries of the index are as they were. *)
Theorem rooted_graph_is_what_the_root_reaches d root fuel :
  records_only d ->
  traversal_bound d <= fuel ->
  exists st,
    make_graph_entity fuel root {| net := empty_network; data := d |} = Some (Ok tt, st) /\
    NoDup (map n_id (nodes (net st))) /\
    (forall k, In k (map n_id (nodes (net st))) <-> reachable d root k) /\
    NoDup (edges (net st)) /\
    (forall a b, In (a, b) (edges (net st)) <-> reachable d root a /\ refers d a b) /\
    (forall g, In g (nodes (net st)) -> dict_contains d (n_id g) = false ->
               n_color g = Some (ColStr FAILURE_NODE_COLOR)) /\
    (forall k v, dict_get d k = Some v -> dict_get (data st) k = Some v) /\
    (forall k, dict_get d k = None ->
               (reachable d root k -> dict_get (data st) k = Some []) /\
               (~ reachable d root k -> dict_get (data st) k = None)).
Proof.
  intros Hrec Hfuel.
  destruct (rooted_build d root fuel Hrec Hfuel)
    as (visited & st1 & st & Hst1 & Hbuild & Hd & Hn & He).
  destruct Hst1 as [Hindex Hfailed Habsent Hnodes Hedges Hcolors Hdistinct Hsets
                    Hreached Hclosed Hroot Hstart Hfirst].
  assert (Hvisited : forall k, In k (dict_keys visited) <-> reachable d root k).
  { intros k. split; [intros Hk; apply Hreached; now left|].
    induction 1 as [|a b _ IHa Hab].
    - destruct Hroot as [Hv|[[]|[]]]. exact Hv.
    - destruct (Hclosed a b IHa Hab) as [Hv|[[]|[]]]. exact Hv. }
  exists st. split; [exact Hbuild|]. rewrite Hn, He, Hd, Hnodes.
  split; [exact Hdistinct|]. split; [exact Hvisited|].
  split; [apply edges_of_nodes_NoDup; [exact Hdistinct|]; intros k s Hin;
          now apply (Hsets k s)|].
  split; [|split; [exact Hcolors|split; [exact Hindex|]]].
  - intros a b. rewrite edges_of_nodes_In. split.
    + intros (s & Hin & Hb). split.
      * apply Hvisited. change a with (fst (a, s)). unfold dict_keys. now apply in_map.
      * now apply (Hsets a s Hin).
    + intros [Ha Hab]. apply Hvisited in Ha.
      unfold dict_keys in Ha. apply in_map_iff in Ha as ([a' s] & E & Hin).
      cbn [fst] in E. subst a'. exists s. split; [exact Hin|].
      now apply (Hsets a s Hin).
  - intros k Hk. split.
    + intros Hreach. apply Hfailed; [exact Hk|]. now apply Hvisited.
    + intros Hn'. apply Habsent; [exact Hk|]. intros Hv. now apply Hn', Hvisited.
Qed.

(** X16: The first node of the graph rooted at [root] is [root] itself,
    whatever the order of iteration over a set; it is colored entry
    when [root] is a key of the index, whatever its keyword, and
    failure when it is not. *)
Theorem rooted_graph_begins_with_the_root d root fuel :
  records_only d ->
  traversal_bound d <= fuel ->
  exists st g others,
    make_graph_entity fuel root {| net := empty_network; data := d |} = Some (Ok tt, st) /\
    nodes (net st) = g :: others /\
    n_id g = root /\
    n_color g = Some (ColStr (if dict_contains d root then ENTRY_NODE_COLOR
                              else FAILURE_NODE_COLOR)).
Proof.
  intros Hrec Hfuel.
  destruct (rooted_build d root fuel Hrec Hfuel)
    as (visited & st1 & st & Hst1 & Hbuild & Hd & Hn & He).
  destruct Hst1 as [Hindex Hfailed Habsent Hnodes Hedges Hcolors Hdistinct Hsets
                    Hreached Hclosed Hroot Hstart Hfirst].
  destruct Hroot as [Hv|[[]|[]]].
  destruct visited as [|[k s] rest]; [destruct Hv|].
  destruct (Hfirst k s rest eq_refl) as [-> Hentry].
  cbn [dict_keys map fst] in Hnodes.
  destruct (nodes (net st1)) as [|g others] eqn:Hnodes1; [discriminate|].
  cbn [map] in Hnodes. injection Hnodes as Hg _.
  exists st, g, others. split; [exact Hbuild|]. split; [now rewrite Hn|].
  split; [exact Hg|].
  destruct (dict_contains d root) eqn:Hd0.
  - destruct (Hentry eq_refl) as (g0 & others0 & Hn0 & _ & Hcol).
    rewrite Hnodes1 in Hn0. injection Hn0 as <- _. exact Hcol.
  - apply Hcolors; [now left|]. now rewrite Hg.
Qed.

End ReachablePart.

Lemma rooted_graph_is_what_the_root_reaches_witness :
  exists st,
    @make_graph_entity no_wrap insertion_order 3 "#1"
      {| net := empty_network; data := index_of dangling_section |} = Some (Ok tt, st) /\
    NoDup (map n_id (nodes (net st))) /\
    (forall k, In k (map n_id (nodes (net st)))
               <-> reachable (index_of dangling_section) "#1" k) /\
    NoDup (edges (net st)) /\
    (forall a b, In (a, b) (edges (net st))
                 <-> reachable (index_of dangling_section) "#1" a /\
                     refers (index_of dangling_section) a b) /\
    (forall g, In g (nodes (net st)) ->
               dict_contains (index_of dangling_section) (n_id g) = false ->
               n_color g = Some (ColStr FAILURE_NODE_COLOR)) /\
    (forall k v, dict_get (index_of dangling_section) k = Some v ->
                 dict_get (data st) k = Some v) /\
    (forall k, dict_get (index_of dangling_section) k = None ->
               (reachable (index_of dangling_section) "#1" k ->
                dict_get (data st) k = Some []) /\
               (~ reachable (index_of dangling_section) "#1" k ->
                dict_get (data st) k = None)).
Proof.
  apply (@rooted_graph_is_what_the_root_reaches no_wrap insertion_order
           (index_of dangling_section) "#1" 3).
  - intros k objects Hin. vm_compute in Hin.
    destruct Hin as [[= <- <-]|[]]; reflexivity.
  - vm_compute. lia.
Defined.

Lemma rooted_graph_begins_with_the_root_witness :
  exists st g others,
    @make_graph_entity no_wrap insertion_order 4 "#2"
      {| net := empty_network; data := index_of cyclic_section |} = Some (Ok tt, st) /\
    nodes (net st) = g :: others /\
    n_id g = "#2" /\
    n_color g = Some (ColStr "indigo").
Proof.
  apply (@rooted_graph_begins_with_the_root no_wrap insertion_order
           (index_of cyclic_section) "#2" 4).
  - intros k objects Hin. vm_compute in Hin.
    destruct Hin as [[= <- <-]|[[= <- <-]|[]]]; reflexivity.
  - vm_compute. lia.
Defined.

(* ================================================================== *)
(** * The title of a simple record *)
(* ================================================================== *)

Section Titles.

Context `{PyFloat} `{TextWrap}.

Lemma transform_decoded ps bodies :
  Forall2 (fun p b => decode p = Ok b) ps bodies ->
  exists vs,
    transform_children (map parameter_tree ps) = Ok vs /\
    map (fun v => fst (explode_object v [])) vs = bodies.
Proof.
  induction 1 as [|p b ps bodies Hp _ (vs & Hvs & Hb)].
  - exists []. split; reflexivity.
  - destruct (decode_some p b Hp) as (v & Hv & ->).
    exists (v :: vs). cbn [map transform_children]. rewrite Hv. cbn [rbind].
    rewrite Hvs. subst bodies. split; reflexivity.
Qed.

(** X12: The title of a simple record is its keyword followed by the titles
    of its parameters between parentheses, with a comma and a blank
    between two of them, wrapped at [SPLIT_STRING_SIZE] and joined again
    with line breaks; a record without parameters shows [()].  A color
    that is set already is kept. *)
Theorem title_of_a_simple_record r bodies color :
  Forall2 (fun p b => decode p = Ok b) (parameters_of r) bodies ->
  exists v color',
    transform (simple_record_tree r) = Ok v /\
    simple_entity (fst (explode_object v [])) color
    = Ok (record_title (r_keyword r) bodies, color') /\
    (color_len color <> 0 -> color' = color).
Proof.
  intros HF. destruct (transform_decoded _ _ HF) as (vs & Hvs & Hb).
  unfold parameters_of, simple_record_tree in *.
  destruct (r_parameters r) as [ps|].
  - exists (VTuple [VStr (r_keyword r); VTuple vs]).
    assert (Hbody : fst (explode_object (VTuple [VStr (r_keyword r); VTuple vs]) [])
                    = BList [BStr (r_keyword r); BList bodies]).
    { rewrite explode_object_items. pose proof (explode_all_bodies
        [VStr (r_keyword r); VTuple vs] []) as Hall.
      destruct (explode_all [VStr (r_keyword r); VTuple vs] []) as [bs refs].
      cbn [fst] in *. rewrite Hall. cbn [map]. f_equal. f_equal. f_equal.
      rewrite explode_object_items. pose proof (explode_all_bodies vs []) as Hvs'.
      destruct (explode_all vs []) as [bs' refs']. cbn [fst] in *. now rewrite Hvs', Hb. }
    rewrite Hbody. unfold simple_entity. cbn [body_len List.length Nat.ltb Nat.leb
      body_index nth_error rbind to_str].
    eexists. split; [|split].
    + rewrite transform_tree. cbn [transform_children].
      rewrite transform_keyword. cbn [rbind]. rewrite transform_tree, Hvs. reflexivity.
    + reflexivity.
    + intros Hc. now destruct (Nat.eqb_spec (color_len color) 0).
  - exists (VTuple [VStr (r_keyword r)]).
    inversion HF; subst.
    unfold simple_entity. cbn [explode_object fst body_len List.length Nat.ltb Nat.leb
      body_index nth_error rbind].
    eexists. split; [|split].
    + rewrite transform_tree. cbn [transform_children].
      rewrite transform_keyword. reflexivity.
    + reflexivity.
    + intros Hc. now destruct (Nat.eqb_spec (color_len color) 0).
Qed.

End Titles.

Lemma title_of_a_simple_record_witness :
  exists v color',
    @transform literal_float
      (simple_record_tree
         {| r_keyword := "FOO"; r_line := 1;
            r_parameters := Some [p_id "#2" 1; p_string []; p_typed "BAR" 1 (p_id "#4" 1)] |})
    = Ok v /\
    @simple_entity no_wrap (fst (explode_object v [])) (ColStr "indigo")
    = Ok ("FOO(#2, '', BAR)", color') /\
    (color_len (ColStr "indigo") <> 0 -> color' = ColStr "indigo").
Proof.
  apply (@title_of_a_simple_record literal_float no_wrap
           {| r_keyword := "FOO"; r_line := 1;
              r_parameters := Some [p_id "#2" 1; p_string []; p_typed "BAR" 1 (p_id "#4" 1)] |}
           [BStr "#2"; BStr EmptyString; BStr "BAR"] (ColStr "indigo")).
  repeat constructor.
Defined.

(* ================================================================== *)
(** * From a parsed data section to its graph *)
(* ================================================================== *)

Section ParsedIndex.

Context `{PyFloat}.

(** Either the ids of a data section are distinct, or some entity
    instance repeats an id of those before it; the first such one. *)
Lemma first_repeat_split (es : list entity_instance) :
  NoDup (map i_id es) \/
  exists pre e post,
    es = pre ++ e :: post /\ NoDup (map i_id pre) /\ In (i_id e) (map i_id pre).
Proof.
  induction es as [|x es IH] using rev_ind.
  - left. constructor.
  - destruct IH as [Hnd|(pre & e & post & -> & Hpre & Hin)].
    + destruct (in_dec string_dec (i_id x) (map i_id es)) as [Hin|Hnotin].
      * right. exists es, x, []. auto.
      * left. rewrite map_app. apply NoDup_app; [exact Hnd|repeat constructor; intros []|].
        intros y Hy [<-|[]]. contradiction.
    + right. exists pre, e, (post ++ [x]). rewrite <- app_assoc. auto.
Qed.

Lemma repeated_id_raises filecontent pre e post :
  forallb (fun x => valid_record (i_record x)) (pre ++ e :: post) = true ->
  NoDup (map i_id pre) ->
  In (i_id e) (map i_id pre) ->
  index_section filecontent (pre ++ e :: post)
  = Raise (DuplicateNameError filecontent (i_id e) (i_line e, i_line e)).
Proof.
  intros Hvalid Hnd Hin.
  destruct (transform_section _ Hvalid) as (vs & Hvs & HF).
  rewrite (index_section_eq _ _ _ Hvs).
  apply Forall2_app_inv_l in HF as (vs1 & vs2 & Hpre & Hrest & ->).
  inversion Hrest as [|? v ? vs3 (items & ->) _]; subst.
  rewrite explore_entities_app.
  destruct (explore_entities_distinct filecontent pre vs1 Hpre [] [] Hnd)
    as (objects & -> & Hidx).
  - intros k _ [].
  - intros k. split; [intros []|reflexivity].
  - cbn [rbind app explore_entities].
    destruct (proj1 (Hidx (i_id e)) Hin) as (o & os & Hget).
    now rewrite (explore_entity_again filecontent objects _
                   (Token ANON (i_id e) (i_line e)) items o os Hget).
Qed.

Lemma entries_are_records es (d : pydict (list object)) :
  Forall2 entry_for es d -> records_only d /\ dict_keys d = map i_id es.
Proof.
  induction 1 as [|e kv es d (obj & -> & _ & _ & Hbody) _ [IHrec IHkeys]].
  - split; [intros k objects []|reflexivity].
  - split.
    + intros k objects [[= <- <-]|Hin]; [cbn; now rewrite Hbody|now apply (IHrec k)].
    + cbn. now rewrite <- IHkeys.
Qed.

Lemma parsed_index filecontent es d :
  forallb (fun e => valid_record (i_record e)) es = true ->
  index_section filecontent es = Ok d ->
  NoDup (map i_id es) /\ Forall2 entry_for es d.
Proof.
  intros Hvalid Hd.
  destruct (first_repeat_split es) as [Hnd|(pre & e & post & -> & Hpre & Hin)].
  - split; [exact Hnd|].
    destruct (transform_section_entries es Hvalid) as (vs & entries & Hvs & HF & Hexplore).
    rewrite (index_section_eq _ _ _ Hvs), (Hexplore [] Hnd) in Hd by reflexivity.
    cbn [app] in Hd. now injection Hd as <-.
  - rewrite (repeated_id_raises filecontent pre e post Hvalid Hpre Hin) in Hd. discriminate.
Qed.

(** X17: Every index [explore_data] returns for a parsed data section is
    well formed: the ids of the section were distinct (a repeated id
    raises instead), the keys of the index are these ids in file order
    and distinct, each key holds one object, and every body is the body
    of a record. *)
Theorem parsed_index_is_well_formed filecontent es d :
  forallb (fun e => valid_record (i_record e)) es = true ->
  index_section filecontent es = Ok d ->
  NoDup (map i_id es) /\
  dict_keys d = map i_id es /\
  NoDup (dict_keys d) /\
  records_only d /\
  Forall2 entry_for es d.
Proof.
  intros Hvalid Hd. destruct (parsed_index filecontent es d Hvalid Hd) as [Hnd HF].
  destruct (entries_are_records es d HF) as [Hrec Hkeys].
  rewrite Hkeys. auto.
Qed.

End ParsedIndex.

Lemma parsed_index_is_well_formed_witness :
  NoDup (map i_id cyclic_section) /\
  dict_keys (index_of cyclic_section) = map i_id cyclic_section /\
  NoDup (dict_keys (index_of cyclic_section)) /\
  records_only (index_of cyclic_section) /\
  Forall2 entry_for cyclic_section (index_of cyclic_section).
Proof.
  apply (@parsed_index_is_well_formed literal_float EmptyString cyclic_section
           (index_of cyclic_section)); reflexivity.
Defined.

Section ParsedGraph.

Context `{PyFloat} `{TextWrap} `{SetOrder}.

Lemma complete_build_closed d :
  NoDup (dict_keys d) ->
  records_only d ->
  (forall r, In r (refs_of_data d) -> dict_contains d r = true) ->
  exists st,
    make_graph_complete {| net := empty_network; data := d |} = (Ok tt, st) /\
    data st = d.
Proof.
  intros Hnd Hrec Hclosed. unfold make_graph_complete, for_dict. cbn [data].
  destruct (first_loop_indexed d (List.length d) (dict_keys d)
              {| net := empty_network; data := d |} Hrec eq_refl eq_refl
              (incl_refl _) Hnd) as (st1 & -> & Hd1 & He1 & Hn1).
  { intros k _. reflexivity. }
  cbn [net empty_network nodes edges map app] in He1, Hn1.
  rewrite Hd1.
  destruct (second_loop_indexed d (List.length d) d st1 Hnd Hd1 eq_refl (incl_refl _))
    as (st2 & -> & Hd2 & _).
  - intros k Hk. apply has_node_ids. now rewrite Hn1.
  - exact Hclosed.
  - now exists st2.
Qed.

(** X18: [make_graph] on the index of a parsed data section.  With a
    root it always returns a network, whether the root and the
    references are keys of the index or not.  Without a root it returns
    a network and leaves the model as it is when every reference is a
    key; when some reference is not, it raises [RuntimeError] and no
    network is written. *)
Theorem graph_of_a_parsed_section filecontent es d fuel :
  forallb (fun e => valid_record (i_record e)) es = true ->
  index_section filecontent es = Ok d ->
  traversal_bound d <= fuel ->
  (forall entity, entity <> EmptyString ->
     exists network m',
       make_graph fuel {| DATA_TAG := d |} entity = Some (Ok network, m')) /\
  ((forall r, In r (refs_of_data d) -> dict_contains d r = true) ->
   exists network,
     make_graph fuel {| DATA_TAG := d |} EmptyString
     = Some (Ok network, {| DATA_TAG := d |})) /\
  (forall r, dangling d r ->
     exists m',
       make_graph fuel {| DATA_TAG := d |} EmptyString = Some (Raise RuntimeError, m')).
Proof.
  intros Hvalid Hd Hfuel.
  destruct (parsed_index filecontent es d Hvalid Hd) as [Hnd HF].
  destruct (entries_are_records es d HF) as [Hrec Hkeys].
  assert (Hdistinct : NoDup (dict_keys d)) by now rewrite Hkeys.
  unfold make_graph. cbn [DATA_TAG]. split; [|split].
  - intros entity Hentity.
    destruct entity as [|c entity]; [contradiction|]. cbn [String.length Nat.eqb].
    destruct (rooted_build d (String c entity) fuel Hrec Hfuel)
      as (visited & st1 & st & _ & -> & _).
    eauto.
  - intros Hclosed. cbn [String.length Nat.eqb].
    destruct (complete_build_closed d Hdistinct Hrec Hclosed) as (st & -> & ->).
    eauto.
  - intros r Hr. cbn [String.length Nat.eqb].
    destruct (complete_build_dangling d r Hdistinct Hrec Hr) as (st & -> & _).
    eauto.
Qed.

End ParsedGraph.

Lemma graph_of_a_parsed_section_witness :
  (forall entity, entity <> EmptyString ->
     exists network m',
       @make_graph no_wrap insertion_order 3
         {| DATA_TAG := index_of dangling_section |} entity = Some (Ok network, m')) /\
  ((forall r, In r (refs_of_data (index_of dangling_section)) ->
              dict_contains (index_of dangling_section) r = true) ->
   exists network,
     @make_graph no_wrap insertion_order 3
       {| DATA_TAG := index_of dangling_section |} EmptyString
     = Some (Ok network, {| DATA_TAG := index_of dangling_section |})) /\
  (forall r, dangling (index_of dangling_section) r ->
     exists m',
       @make_graph no_wrap insertion_order 3
         {| DATA_TAG := index_of dangling_section |} EmptyString
       = Some (Raise RuntimeError, m')).
Proof.
  apply (@graph_of_a_parsed_section literal_float no_wrap insertion_order
           EmptyString dangling_section (index_of dangling_section) 3).
  - reflexivity.
  - reflexivity.
  - vm_compute. lia.
Defined.

(* ================================================================== *)
(** * Comments and string literals *)
(* ================================================================== *)

Lemma remove_comments_apostrophe rest :
  remove_comments (String "'" rest) = String "'" (remove_comments rest).
Proof. unfold remove_comments. now rewrite (re_sub_step _ _ match_comment_prefix). Qed.

Lemma blank_text_no_apostrophe s : all_chars not_apostrophe (blank_text s) = true.
Proof.
  induction s as [|c s IH]; [reflexivity|].
  cbn [blank_text all_chars]. rewrite IH, andb_true_r.
  destruct (Ascii.eqb_spec c newline) as [->|_]; reflexivity.
Qed.

(** X19: The comment substitution runs first and does not look at
    apostrophes: a block comment inside a string literal is replaced by
    blanks like any other, and the second substitution then keeps these
    blanks, since they are inside the literal.  The parser reads a
    string literal of the same length whose comment is blanked out. *)
Theorem comment_inside_a_string_is_blanked body rest :
  contains "*/" body = false ->
  preprocess ("'/*" ++ body ++ "*/'" ++ rest)
  = ("'" ++ blank_text ("/*" ++ body ++ "*/") ++ "'" ++ preprocess rest)%string.
Proof.
  intros Hbody. unfold preprocess.
  change ("'/*" ++ body ++ "*/'" ++ rest)%string
    with (String "'" ("/*" ++ body ++ String "*" (String "/" (String "'" rest)))).
  rewrite remove_comments_apostrophe.
  change ("/*" ++ body ++ String "*" (String "/" (String "'" rest)))%string
    with ("/*" ++ body ++ "*/" ++ String "'" rest)%string.
  rewrite (remove_comments_comment body (String "'" rest) Hbody).
  rewrite remove_comments_apostrophe.
  change (String "'" (blank_text ("/*" ++ body ++ "*/")
                        ++ String "'" (remove_comments rest)))%string
    with ("'" ++ blank_text ("/*" ++ body ++ "*/") ++ "'" ++ remove_comments rest)%string.
  apply remove_blanks_string, blank_text_no_apostrophe.
Qed.

Lemma comment_inside_a_string_is_blanked_witness :
  preprocess "'/*a*/'," = "'     ',".
Proof.
  apply (comment_inside_a_string_is_blanked "a" ","). reflexivity.
Defined.
